(** * SyncNotes: conflict detection, resolution and the note store

    A shallow embedding of the client-side conflict engine
    ([utils/conflict/ConflictDetector.js], [ConflictResolver],
    [ConflictManager.js]) and of the note write path of
    [utils/storage/IndexedDBStorage.js].

    Conventions of the embedding:
    - a JS number that holds a version or an epoch-milliseconds timestamp is
      an integer [Z]; an optional field is an [option]; [null]/[undefined]
      is [None]; the version increment of [saveNote] is a sum of doubles and
      is rounded as one ([JS.add]);
    - a JS string is a [string]; [charCodeAt] is the code of the character;
    - a thrown [Error] is the [Throw] constructor of [Result]; a function that
      mutates [this] returns the new object next to its result, also when it
      throws;
    - a reading of [Date.now()] and the suffix
      [Math.random().toString(36).substr(2, 9)] are inputs of the function
      that takes them, one argument per call site;
    - the [onConflictDetected] / [onConflictResolved] hooks are observers:
      a call is recorded in the manager's trace and returns normally;
    - [console.*] output is not modelled. *)

From Stdlib Require Import ZArith Lia Ascii DecimalString.
From stdpp Require Import base option list strings gmap sorting.

#[local] Open Scope Z_scope.

(** ** Results of fallible calls *)

Inductive JsError : Type :=
  | TypeError
  | ManualResolutionRequired
  | UnknownStrategy (strategy : string)
  | AlreadyResolving
  | ResolvedContentRequired
  | ConflictNotFound (conflictId : string)
  | InvalidNoteData
  | NotInitialized.

Inductive Result (A : Type) : Type :=
  | Ok (a : A)
  | Throw (e : JsError).

Arguments Ok {A} a.
Arguments Throw {A} e.

Definition rbind {A B} (r : Result A) (k : A -> Result B) : Result B :=
  match r with
  | Ok a => k a
  | Throw e => Throw e
  end.

Notation "'try!' x ':=' r 'in' k" := (rbind r (fun x => k))
  (at level 10, x name, r at level 100, k at level 200, only parsing).

(** ** JavaScript primitives used by the sources *)

Module JS.

Definition LF : ascii := ascii_of_nat 10.
Definition nl : string := String LF "".

(** [s.split('\n')]: never empty, [""] splits to one empty line. *)
Fixpoint split (s : string) : list string :=
  match s with
  | EmptyString => [""]
  | String c rest =>
      if Ascii.eqb c LF then "" :: split rest
      else match split rest with
           | [] => [String c ""]
           | x :: xs => String c x :: xs
           end
  end.

(** [lines.join('\n')]. *)
Fixpoint join (lines : list string) : string :=
  match lines with
  | [] => ""
  | x :: rest =>
      match rest with
      | [] => x
      | _ :: _ => x +:+ nl +:+ join rest
      end
  end.

(** [s.includes(needle)] as a proposition. *)
Definition includes (s needle : string) : Prop :=
  exists pre post, s = pre +:+ needle +:+ post.

(** [ToInt32]: wrap an integer to the signed 32-bit range. *)
Definition toInt32 (z : Z) : Z :=
  let m := z mod 2 ^ 32 in
  if m <? 2 ^ 31 then m else m - 2 ^ 32.

Definition charCode (c : ascii) : Z := Z.of_nat (nat_of_ascii c).

Definition digit36 (d : Z) : ascii :=
  if d <? 10 then ascii_of_nat (Z.to_nat (48 + d))
  else ascii_of_nat (Z.to_nat (87 + d)).

Fixpoint digits36 (fuel : nat) (n : Z) (acc : string) : string :=
  match fuel with
  | O => acc
  | S fuel' =>
      let acc' := String (digit36 (n mod 36)) acc in
      if n <? 36 then acc' else digits36 fuel' (n / 36) acc'
  end.

(** [n.toString(36)] for an integer [n]. *)
Definition toString36 (n : Z) : string :=
  let a := Z.abs n in
  let body := digits36 (S (Z.to_nat (Z.log2 a))) a "" in
  if n <? 0 then String "-"%char body else body.

(** [`${n}`] for an integer [n]. *)
Definition toString10 (n : Z) : string :=
  NilZero.string_of_int (Z.to_int n).

(** [x || d] for an optional number: [undefined] and [0] are falsy. *)
Definition numberOr (x : option Z) (d : Z) : Z :=
  match x with
  | Some v => if v =? 0 then d else v
  | None => d
  end.

(** [x || d] for an optional string: [undefined] and [''] are falsy. *)
Definition stringOr (x : option string) (d : string) : string :=
  match x with
  | Some v => if String.eqb v "" then d else v
  | None => d
  end.

(** [!x] for an optional string. *)
Definition falsy (x : option string) : bool :=
  match x with
  | Some v => String.eqb v ""
  | None => true
  end.

(** [s.startsWith(prefix)]. *)
Fixpoint startsWith (s prefix : string) {struct prefix} : bool :=
  match prefix with
  | EmptyString => true
  | String p prefix' =>
      match s with
      | EmptyString => false
      | String c s' => Ascii.eqb c p && startsWith s' prefix'
      end
  end.

(** [lines[idx] || '']: the line at [idx], empty when there is none. *)
Definition lineAt (lines : list string) (idx : nat) : string :=
  stringOr (lines !! idx) "".

(** [!s.includes('\n')]: the text is a single line. *)
Fixpoint singleLine (s : string) : bool :=
  match s with
  | EmptyString => true
  | String c rest => negb (Ascii.eqb c LF) && singleLine rest
  end.

(** [array.sort(cmp)] for a comparator that orders the elements
    consistently: the sort is stable, equal elements keep their order. *)
Fixpoint insertBy {A} (cmp : A -> A -> Z) (x : A) (l : list A) : list A :=
  match l with
  | [] => [x]
  | y :: l' => if cmp x y <=? 0 then x :: y :: l' else y :: insertBy cmp x l'
  end.

Definition sortBy {A} (cmp : A -> A -> Z) (l : list A) : list A :=
  foldr (insertBy cmp) [] l.

(** The double nearest to an integer, ties to the even significand: an
    integer of magnitude up to [2^53] is a double; a larger one keeps its 53
    leading bits.  The numbers rounded here are sums of a double and 1, which
    stay below the largest double. *)
Definition toDouble (z : Z) : Z :=
  let a := Z.abs z in
  if a <=? 2 ^ 53 then z
  else
    let ulp := 2 ^ (Z.log2 a - 52) in
    let q := a / ulp in
    let r := a mod ulp in
    let q' :=
      if 2 * r <? ulp then q
      else if ulp <? 2 * r then q + 1
      else if Z.even q then q else q + 1 in
    Z.sgn z * (q' * ulp).

(** [a + b] for two integer-valued numbers: the sum, rounded to a double. *)
Definition add (a b : Z) : Z := toDouble (a + b).

(** [a - b] for two optional numbers as a comparator result: [NaN], which a
    missing operand gives, counts as 0. *)
Definition compareNumbers (a b : option Z) : Z :=
  match a, b with
  | Some x, Some y => x - y
  | _, _ => 0
  end.

End JS.

(** ** Data model *)

Record VersionedContent : Type := mkVersioned {
  content : string;
  version : Z;
  timestamp : Z;
  deviceId : string;
  parentVersion : option Z;
  hash : string
}.

Inductive ConflictType : Type := concurrent_edit | offline_divergence.

Record ConflictInfo : Type := mkConflict {
  type : ConflictType;
  localVersion : option VersionedContent;
  remoteVersion : option VersionedContent;
  commonAncestor : option VersionedContent
}.

Record ConflictRegion : Type := mkRegion {
  startLine : Z;
  endLine : Z;
  localContent : string;
  remoteContent : string
}.

Record MergeResult : Type := mkMerge {
  success : bool;
  merged : string;
  conflicts : option (list ConflictRegion)
}.

(** ** ConflictDetector *)

Record ConflictDetector : Type := mkDetector {
  conflictWindow : Z
}.

Module Detector.

(** [constructor(options = {})]: [options.conflictWindow || 5000]. *)
Definition new (optConflictWindow : option Z) : ConflictDetector :=
  {| conflictWindow := JS.numberOr optConflictWindow 5000 |}.

Fixpoint hashLoop (content : string) (hash : Z) : Z :=
  match content with
  | EmptyString => hash
  | String c rest =>
      let hash1 := (JS.toInt32 (Z.shiftl hash 5) - hash) + JS.charCode c in
      let hash2 := Z.land (JS.toInt32 hash1) (JS.toInt32 hash1) in
      hashLoop rest hash2
  end.

Definition hashContent (content : string) : string :=
  JS.toString36 (hashLoop content 0).

Definition detectConflict (this : ConflictDetector)
    (local remote : VersionedContent) : option ConflictInfo :=
  if String.eqb (hash local) (hash remote)
     || String.eqb (content local) (content remote)
  then None
  else if version local =? version remote
  then Some (mkConflict concurrent_edit (Some local) (Some remote) None)
  else
    let timeDiff := Z.abs (timestamp local - timestamp remote) in
    if timeDiff <? conflictWindow this
    then Some (mkConflict concurrent_edit (Some local) (Some remote) None)
    else if (version local <? version remote)
            && negb (String.eqb (hash local) (hash remote))
    then Some (mkConflict offline_divergence (Some local) (Some remote) None)
    else None.

Record MergeState : Type := mkMergeState {
  mergedLines : list string;
  regions : list ConflictRegion;
  baseIdx : nat;
  localIdx : nat;
  remoteIdx : nat
}.

(** The inner [while (idx < lines.length && lines[idx] !== baseLine)]
    loops, on the lines from [idx] on: the lines pushed to the conflict
    run. *)
Fixpoint collectConflictLines (rest : list string) (baseLine : string)
    : list string :=
  match rest with
  | [] => []
  | x :: rest' =>
      if String.eqb x baseLine then []
      else x :: collectConflictLines rest' baseLine
  end.

Definition LOCAL_MARKER : string := "<<<<<<< LOCAL".
Definition SEPARATOR : string := "=======".
Definition REMOTE_MARKER : string := ">>>>>>> REMOTE".

(** One iteration of the [while] loop of [_mergeLines], entered with the
    loop condition true. *)
Definition mergeStep (baseLines localLines remoteLines : list string)
    (st : MergeState) : MergeState :=
  let baseLine := JS.stringOr (baseLines !! baseIdx st) "" in
  let localLine := JS.stringOr (localLines !! localIdx st) "" in
  let remoteLine := JS.stringOr (remoteLines !! remoteIdx st) "" in
  if String.eqb baseLine localLine && String.eqb baseLine remoteLine
  then mkMergeState (mergedLines st ++ [baseLine]) (regions st)
         (S (baseIdx st)) (S (localIdx st)) (S (remoteIdx st))
  else if String.eqb baseLine localLine
          && negb (String.eqb baseLine remoteLine)
  then mkMergeState (mergedLines st ++ [remoteLine]) (regions st)
         (S (baseIdx st)) (S (localIdx st)) (S (remoteIdx st))
  else if String.eqb baseLine remoteLine
          && negb (String.eqb baseLine localLine)
  then mkMergeState (mergedLines st ++ [localLine]) (regions st)
         (S (baseIdx st)) (S (localIdx st)) (S (remoteIdx st))
  else
    let conflictStart := Z.of_nat (length (mergedLines st)) in
    let localConflictLines :=
      collectConflictLines (drop (localIdx st) localLines) baseLine in
    let remoteConflictLines :=
      collectConflictLines (drop (remoteIdx st) remoteLines) baseLine in
    let merged' :=
      mergedLines st ++ [LOCAL_MARKER] ++ localConflictLines
        ++ [SEPARATOR] ++ remoteConflictLines ++ [REMOTE_MARKER] in
    mkMergeState merged'
      (regions st ++
         [mkRegion conflictStart (Z.of_nat (length merged') - 1)
            (JS.join localConflictLines) (JS.join remoteConflictLines)])
      (S (baseIdx st))
      (localIdx st + length localConflictLines)
      (remoteIdx st + length remoteConflictLines).

(** The loop condition of [_mergeLines]. *)
Definition mergePending (baseLines localLines remoteLines : list string)
    (st : MergeState) : bool :=
  (baseIdx st <? length baseLines)%nat
  || (localIdx st <? length localLines)%nat
  || (remoteIdx st <? length remoteLines)%nat.

(** The [while] loop; [None] when [fuel] iterations were not enough. *)
Fixpoint mergeLoop (fuel : nat) (baseLines localLines remoteLines : list string)
    (st : MergeState) : option MergeState :=
  if mergePending baseLines localLines remoteLines st then
    match fuel with
    | O => None
    | S fuel' =>
        mergeLoop fuel' baseLines localLines remoteLines
          (mergeStep baseLines localLines remoteLines st)
    end
  else Some st.

(** What is left to scan: every iteration makes it smaller. *)
Definition mergeMeasure (baseLines localLines remoteLines : list string)
    (st : MergeState) : nat :=
  ((length baseLines - baseIdx st)
   + (length localLines - localIdx st)
   + (length remoteLines - remoteIdx st))%nat.

Definition mergeStart : MergeState := mkMergeState [] [] 0 0 0.

(** Loop invariant of the scan: once a region has been recorded, both
    markers are among the merged lines. *)
Definition markersPresent (st : MergeState) : Prop :=
  regions st <> [] ->
  In LOCAL_MARKER (mergedLines st) /\ In REMOTE_MARKER (mergedLines st).

(** [_mergeLines]: [{ lines: merged, conflicts }].  The loop is run with
    as many iterations as there are lines, which [mergeLoop_terminates]
    shows to be enough. *)
Definition _mergeLines (baseLines localLines remoteLines : list string)
    : list string * list ConflictRegion :=
  match mergeLoop (mergeMeasure baseLines localLines remoteLines mergeStart)
          baseLines localLines remoteLines mergeStart with
  | Some st => (mergedLines st, regions st)
  | None => ([], [])
  end.

Definition threeWayMerge (this : ConflictDetector)
    (base local remote : string) : MergeResult :=
  if String.eqb local remote then mkMerge true local None
  else if String.eqb base local then mkMerge true remote None
  else if String.eqb base remote then mkMerge true local None
  else
    let baseLines := JS.split base in
    let localLines := JS.split local in
    let remoteLines := JS.split remote in
    let result := _mergeLines baseLines localLines remoteLines in
    if (length (snd result) =? 0)%nat
    then mkMerge true (JS.join (fst result)) None
    else mkMerge false (JS.join (fst result)) (Some (snd result)).

(** [conflict.localVersion.x]: a [TypeError] when the side is [null]. *)
Definition sideOf (side : option VersionedContent)
    : Result VersionedContent :=
  match side with
  | Some v => Ok v
  | None => Throw TypeError
  end.

Definition MERGE_BOTH_SEPARATOR : string :=
  JS.nl +:+ JS.nl +:+ "--- MERGED FROM REMOTE ---" +:+ JS.nl +:+ JS.nl.

Definition _mergeBoth (local remote : string) : string :=
  local +:+ MERGE_BOTH_SEPARATOR +:+ remote.

(** The [case] labels of [autoResolve]. *)
Definition knownStrategies : list string :=
  ["last-write-wins"; "first-write-wins"; "local-wins"; "remote-wins";
   "merge-both"].

Definition autoResolve (this : ConflictDetector) (conflict : ConflictInfo)
    (strategy : string) : Result string :=
  if String.eqb strategy "last-write-wins" then
    try! l := sideOf (localVersion conflict) in
    try! r := sideOf (remoteVersion conflict) in
    Ok (if timestamp l >? timestamp r then content l else content r)
  else if String.eqb strategy "first-write-wins" then
    try! l := sideOf (localVersion conflict) in
    try! r := sideOf (remoteVersion conflict) in
    Ok (if timestamp l <? timestamp r then content l else content r)
  else if String.eqb strategy "local-wins" then
    try! l := sideOf (localVersion conflict) in
    Ok (content l)
  else if String.eqb strategy "remote-wins" then
    try! r := sideOf (remoteVersion conflict) in
    Ok (content r)
  else if String.eqb strategy "merge-both" then
    try! l := sideOf (localVersion conflict) in
    try! r := sideOf (remoteVersion conflict) in
    Ok (_mergeBoth (content l) (content r))
  else Throw (UnknownStrategy strategy).

(** [canAutoMerge(conflict)]. *)
Definition canAutoMerge (this : ConflictDetector) (conflict : ConflictInfo)
    : Result bool :=
  match commonAncestor conflict with
  | Some ancestor =>
      try! l := sideOf (localVersion conflict) in
      try! r := sideOf (remoteVersion conflict) in
      Ok (success (threeWayMerge this (content ancestor) (content l) (content r)))
  | None =>
      try! l := sideOf (localVersion conflict) in
      try! r := sideOf (remoteVersion conflict) in
      let local := content l in
      let remote := content r in
      if JS.startsWith local remote || JS.startsWith remote local
      then Ok true else Ok false
  end.

(** The fold [h => ToInt32(31 * h + code)] over the characters of a text:
    what [hashContent] is shown to compute. *)
Fixpoint polyHash (content : string) (hash : Z) : Z :=
  match content with
  | EmptyString => hash
  | String c rest => polyHash rest (JS.toInt32 (31 * hash + JS.charCode c))
  end.

(** The line a conflict-free scan emits at [idx]: the remote line where the
    local line is the base line, the local line otherwise. *)
Definition cleanLine (baseLines localLines remoteLines : list string)
    (idx : nat) : string :=
  if String.eqb (JS.lineAt baseLines idx) (JS.lineAt localLines idx)
  then JS.lineAt remoteLines idx
  else JS.lineAt localLines idx.

(** At [idx] at most one side differs from the base. *)
Definition oneSided (baseLines localLines remoteLines : list string)
    (idx : nat) : Prop :=
  JS.lineAt baseLines idx = JS.lineAt localLines idx
  \/ JS.lineAt baseLines idx = JS.lineAt remoteLines idx.

(** The number of iterations of a conflict-free scan. *)
Definition scanLength (baseLines localLines remoteLines : list string) : nat :=
  Nat.max (length baseLines) (Nat.max (length localLines) (length remoteLines)).

(** Invariant of a scan that has recorded no region: the three pointers
    move together and the output is the clean line of each index passed. *)
Definition inStep (baseLines localLines remoteLines : list string)
    (st : MergeState) : Prop :=
  localIdx st = baseIdx st
  /\ remoteIdx st = baseIdx st
  /\ (baseIdx st <= scanLength baseLines localLines remoteLines)%nat
  /\ mergedLines st
     = map (cleanLine baseLines localLines remoteLines) (seq 0 (baseIdx st))
  /\ forall i, (i < baseIdx st)%nat ->
       oneSided baseLines localLines remoteLines i.

(** A region sits on [lines]: its start line is the local marker, its end
    line the remote marker, with at least the separator in between. *)
Definition regionPlaced (lines : list string) (region : ConflictRegion) : Prop :=
  0 <= startLine region
  /\ startLine region + 2 <= endLine region
  /\ endLine region < Z.of_nat (length lines)
  /\ lines !! Z.to_nat (startLine region) = Some LOCAL_MARKER
  /\ lines !! Z.to_nat (endLine region) = Some REMOTE_MARKER.

Definition regionBefore (r1 r2 : ConflictRegion) : Prop :=
  endLine r1 < startLine r2.

(** Loop invariant of the scan: every recorded region sits on the merged
    lines, and the regions follow one another without overlap. *)
Definition regionsPlaced (st : MergeState) : Prop :=
  Forall (regionPlaced (mergedLines st)) (regions st)
  /\ StronglySorted regionBefore (regions st).

End Detector.

(** ** ConflictResolver *)

Module QueueItem.
Record t : Type := mk {
  conflict : ConflictInfo;
  timestamp : Z;
  id : string
}.
End QueueItem.

Module Resolved.
Record t : Type := mk {
  id : string;
  resolved : string
}.
End Resolved.

Record ConflictResolver : Type := mkResolver {
  detector : ConflictDetector;
  defaultStrategy : string;
  conflictQueue : list QueueItem.t;
  resolving : bool
}.

Module Stats.
Record t : Type := mk {
  total : nat;
  byType_concurrent_edit : nat;
  byType_offline_divergence : nat;
  oldest : option Z;
  newest : option Z
}.
End Stats.

Module Resolver.

(** [constructor(options = {})]. *)
Definition new (optConflictWindow : option Z)
    (optDefaultStrategy : option string) : ConflictResolver :=
  {| detector := Detector.new optConflictWindow;
     defaultStrategy := JS.stringOr optDefaultStrategy "manual";
     conflictQueue := [];
     resolving := false |}.

(** [resolve(conflict, strategy = this.defaultStrategy)]. *)
Definition resolve (this : ConflictResolver) (conflict : ConflictInfo)
    (optStrategy : option string) : Result string :=
  let strategy := default (defaultStrategy this) optStrategy in
  if String.eqb strategy "manual" then Throw ManualResolutionRequired
  else if String.eqb strategy "auto-merge" then
    match commonAncestor conflict with
    | Some ancestor =>
        try! l := Detector.sideOf (localVersion conflict) in
        try! r := Detector.sideOf (remoteVersion conflict) in
        let result :=
          Detector.threeWayMerge (detector this)
            (content ancestor) (content l) (content r) in
        if success result then Ok (merged result)
        else Detector.autoResolve (detector this) conflict "last-write-wins"
    | None =>
        Detector.autoResolve (detector this) conflict "last-write-wins"
    end
  else Detector.autoResolve (detector this) conflict strategy.

Definition resolveManually (this : ConflictResolver)
    (conflict : ConflictInfo) (resolvedContent : option string)
    : Result string :=
  if JS.falsy resolvedContent then Throw ResolvedContentRequired
  else Ok (default "" resolvedContent).

(** The id given to a queued conflict, from the clock reading and the
    random suffix. *)
Definition conflictId (now : Z) (suffix : string) : string :=
  "conflict_" +:+ JS.toString10 now +:+ "_" +:+ suffix.

(** [enqueueConflict(conflict)]: [nowTimestamp] and [nowId] are the two
    readings of [Date.now()], [suffix] is
    [Math.random().toString(36).substr(2, 9)]. *)
Definition enqueueConflict (nowTimestamp nowId : Z) (suffix : string)
    (this : ConflictResolver) (conflict : ConflictInfo) : ConflictResolver :=
  {| detector := detector this;
     defaultStrategy := defaultStrategy this;
     conflictQueue :=
       conflictQueue this ++
         [QueueItem.mk conflict nowTimestamp (conflictId nowId suffix)];
     resolving := resolving this |}.

Definition getNextConflict (this : ConflictResolver) : option QueueItem.t :=
  head (conflictQueue this).

Definition setQueue (this : ConflictResolver) (queue : list QueueItem.t)
    : ConflictResolver :=
  {| detector := detector this;
     defaultStrategy := defaultStrategy this;
     conflictQueue := queue;
     resolving := resolving this |}.

Definition setResolving (this : ConflictResolver) (flag : bool)
    : ConflictResolver :=
  {| detector := detector this;
     defaultStrategy := defaultStrategy this;
     conflictQueue := conflictQueue this;
     resolving := flag |}.

(** [this.conflictQueue.filter(item => item.id !== conflictId)]. *)
Definition removeConflict (this : ConflictResolver) (conflictId : string)
    : ConflictResolver :=
  setQueue this
    (filter (fun item => QueueItem.id item <> conflictId) (conflictQueue this)).

Definition getQueueSize (this : ConflictResolver) : nat :=
  length (conflictQueue this).

Definition clearQueue (this : ConflictResolver) : ConflictResolver :=
  setQueue this [].

Definition hasConflicts (this : ConflictResolver) : bool :=
  (0 <? length (conflictQueue this))%nat.

(** The [while (this.conflictQueue.length > 0)] loop of [resolveAll];
    [None] when [fuel] iterations were not enough. *)
Fixpoint resolveAllLoop (fuel : nat) (this : ConflictResolver)
    (strategy : string) (results : list Resolved.t)
    : option (ConflictResolver * list Resolved.t) :=
  match conflictQueue this with
  | [] => Some (this, results)
  | item :: rest =>
      match fuel with
      | O => None
      | S fuel' =>
          match resolve this (QueueItem.conflict item) (Some strategy) with
          | Ok resolved =>
              resolveAllLoop fuel'
                (removeConflict this (QueueItem.id item)) strategy
                (results ++ [Resolved.mk (QueueItem.id item) resolved])
          | Throw _ =>
              (* this.conflictQueue.shift() *)
              resolveAllLoop fuel' (setQueue this rest) strategy results
          end
      end
  end.

(** [resolveAll(strategy = 'last-write-wins')].  The loop is given one
    iteration per queued item, which [resolveAllLoop_terminates] shows to
    be enough. *)
Definition resolveAll (this : ConflictResolver) (optStrategy : option string)
    : Result (list Resolved.t) * ConflictResolver :=
  let strategy := default "last-write-wins" optStrategy in
  if resolving this then (Throw AlreadyResolving, this)
  else
    let this1 := setResolving this true in
    match resolveAllLoop (length (conflictQueue this1)) this1 strategy [] with
    | Some (this2, results) => (Ok results, setResolving this2 false)
    | None => (Ok [], setResolving this1 false)
    end.

(** The [{id, resolved}] pairs of the items of [queue] whose resolution
    succeeds, in queue order: what a batch over [queue] is to return. *)
Definition resolvedPairs (this : ConflictResolver) (strategy : string)
    (queue : list QueueItem.t) : list Resolved.t :=
  omap (fun item =>
          match resolve this (QueueItem.conflict item) (Some strategy) with
          | Ok resolved => Some (Resolved.mk (QueueItem.id item) resolved)
          | Throw _ => None
          end) queue.

(** The ids of the queued items, in queue order. *)
Definition queueIds (this : ConflictResolver) : list string :=
  map QueueItem.id (conflictQueue this).

#[global] Instance ConflictType_eq_dec : EqDecision ConflictType.
Proof. solve_decision. Defined.

(** [stats.byType[item.conflict.type]++] for every queued item. *)
Definition countType (ty : ConflictType) (queue : list QueueItem.t) : nat :=
  length (filter (fun item => type (QueueItem.conflict item) = ty) queue).

(** [getStats()]. *)
Definition getStats (this : ConflictResolver) : Stats.t :=
  let queue := conflictQueue this in
  {| Stats.total := length queue;
     Stats.byType_concurrent_edit := countType concurrent_edit queue;
     Stats.byType_offline_divergence := countType offline_divergence queue;
     Stats.oldest := QueueItem.timestamp <$> head queue;
     Stats.newest := QueueItem.timestamp <$> last queue |}.

(** [generateSummary()]; [now] is the reading of [Date.now()] taken when
    the oldest timestamp is truthy. *)
Definition generateSummary (now : Z) (this : ConflictResolver) : string :=
  let stats := getStats this in
  if (Stats.total stats =? 0)%nat then "No conflicts"
  else
    let lines :=
      ["Total conflicts: " +:+ JS.toString10 (Z.of_nat (Stats.total stats));
       "Concurrent edits: "
         +:+ JS.toString10 (Z.of_nat (Stats.byType_concurrent_edit stats));
       "Offline divergence: "
         +:+ JS.toString10 (Z.of_nat (Stats.byType_offline_divergence stats))] in
    let lines' :=
      match Stats.oldest stats with
      | Some oldest =>
          if oldest =? 0 then lines
          else
            let age := now - oldest in
            let minutes := age / 60000 in
            lines ++ ["Oldest conflict: " +:+ JS.toString10 minutes
                        +:+ " minutes ago"]
      | None => lines
      end in
    JS.join lines'.

End Resolver.

(** ** Sample conflicts, as in the unit tests *)

Module Samples.

(** [createConflict(localTimestamp, remoteTimestamp)]. *)
Definition createConflict (localTimestamp remoteTimestamp : Z) : ConflictInfo :=
  mkConflict concurrent_edit
    (Some (mkVersioned "Local content" 1 localTimestamp "device-1" None "hash1"))
    (Some (mkVersioned "Remote content" 1 remoteTimestamp "device-2" None "hash2"))
    None.

(** [{ type: 'concurrent_edit', localVersion: null, remoteVersion: null }]. *)
Definition badConflict : ConflictInfo :=
  mkConflict concurrent_edit None None None.

Definition resolver : ConflictResolver :=
  Resolver.new None (Some "last-write-wins").

(** A malformed and a well-formed conflict, enqueued in this order. *)
Definition mixedQueue : ConflictResolver :=
  Resolver.enqueueConflict 1000 1000 "k3x9q1m7z"
    (Resolver.enqueueConflict 1000 1000 "a8f2c4e6b" resolver badConflict)
    (createConflict 1000 2000).

(** Two conflicts enqueued in the same millisecond for which
    [Math.random()] gave 0.5 both times: [(0.5).toString(36)] is ["0.i"],
    so the suffix is ["i"] both times. *)
Definition collidingQueue : ConflictResolver :=
  Resolver.enqueueConflict 1000 1000 "i"
    (Resolver.enqueueConflict 1000 1000 "i" resolver (createConflict 1000 2000))
    (createConflict 3000 4000).

End Samples.

(** ** ConflictManager *)

Module SyncData.
Record t : Type := mk {
  content : string;
  version : option Z;
  timestamp : option Z;
  deviceId : option string
}.
End SyncData.

Inductive HookCall : Type :=
  | ConflictDetected (conflict : ConflictInfo)
  | ConflictResolved (conflict : option ConflictInfo) (resolved : string).

Record CheckResult : Type := mkCheck {
  hasConflict : bool;
  resolved : option string;
  conflict : option ConflictInfo
}.

Module PendingConflict.
Record t : Type := mk {
  id : string;
  type : ConflictType;
  timestamp : Z;
  localVersion : option VersionedContent;
  remoteVersion : option VersionedContent
}.
End PendingConflict.

Module Manager.

Record t : Type := mk {
  detector : ConflictDetector;
  resolver : ConflictResolver;
  onConflictDetected : bool;
  onConflictResolved : bool;
  autoResolveStrategy : option string;
  hookCalls : list HookCall
}.

(** [constructor(options = {})]; the two booleans say whether a hook is
    registered. *)
Definition new (optConflictWindow : option Z)
    (optDefaultStrategy : option string) (detectedHook resolvedHook : bool)
    (optAutoResolveStrategy : option string) : t :=
  {| detector := Detector.new optConflictWindow;
     resolver := Resolver.new optConflictWindow optDefaultStrategy;
     onConflictDetected := detectedHook;
     onConflictResolved := resolvedHook;
     autoResolveStrategy :=
       if JS.falsy optAutoResolveStrategy then None
       else optAutoResolveStrategy;
     hookCalls := [] |}.

Definition setResolver (this : t) (r : ConflictResolver) : t :=
  {| detector := detector this;
     resolver := r;
     onConflictDetected := onConflictDetected this;
     onConflictResolved := onConflictResolved this;
     autoResolveStrategy := autoResolveStrategy this;
     hookCalls := hookCalls this |}.

(** [if (this.hook) this.hook(...)]. *)
Definition fire (registered : bool) (call : HookCall) (this : t) : t :=
  if registered then
    {| detector := detector this;
       resolver := resolver this;
       onConflictDetected := onConflictDetected this;
       onConflictResolved := onConflictResolved this;
       autoResolveStrategy := autoResolveStrategy this;
       hookCalls := hookCalls this ++ [call] |}
  else this.

(** The versioned content built from one side's raw data; [now] is the
    reading of [Date.now()] used when the timestamp is missing. *)
Definition versioned (this : t) (data : SyncData.t) (now : Z)
    (defaultDevice : string) : VersionedContent :=
  {| content := SyncData.content data;
     version := JS.numberOr (SyncData.version data) 0;
     timestamp := JS.numberOr (SyncData.timestamp data) now;
     deviceId := JS.stringOr (SyncData.deviceId data) defaultDevice;
     parentVersion := None;
     hash := Detector.hashContent (SyncData.content data) |}.

(** The clock readings and the random suffix one call of
    [checkAndHandle] may take. *)
Record Readings : Type := mkReadings {
  nowLocal : Z;
  nowRemote : Z;
  nowEnqueued : Z;
  nowId : Z;
  suffix : string
}.

(** [this.autoResolveStrategy && this.autoResolveStrategy !== 'manual']. *)
Definition autoStrategy (this : t) : option string :=
  match autoResolveStrategy this with
  | Some s =>
      if negb (String.eqb s "") && negb (String.eqb s "manual")
      then Some s else None
  | None => None
  end.

(** The tail of [checkAndHandle]: enqueue and ask for manual handling. *)
Definition enqueueForManual (env : Readings) (this : t)
    (conflict : ConflictInfo) : CheckResult * t :=
  (mkCheck true None (Some conflict),
   setResolver this
     (Resolver.enqueueConflict (nowEnqueued env) (nowId env) (suffix env)
        (resolver this) conflict)).

Definition checkAndHandle (env : Readings) (this : t)
    (localData remoteData : SyncData.t) : CheckResult * t :=
  let local := versioned this localData (nowLocal env) "local" in
  let remote := versioned this remoteData (nowRemote env) "remote" in
  match Detector.detectConflict (detector this) local remote with
  | None => (mkCheck false (Some (content remote)) None, this)
  | Some conflict =>
      let this1 :=
        fire (onConflictDetected this) (ConflictDetected conflict) this in
      match autoStrategy this1 with
      | Some strategy =>
          match Resolver.resolve (resolver this1) conflict (Some strategy) with
          | Ok resolved =>
              (mkCheck true (Some resolved) (Some conflict),
               fire (onConflictResolved this1)
                 (ConflictResolved (Some conflict) resolved) this1)
          | Throw _ => enqueueForManual env this1 conflict
          end
      | None => enqueueForManual env this1 conflict
      end
  end.

Definition resolveManually (this : t) (conflictId : string)
    (resolvedContent : option string) : Result string * t :=
  match
    List.find (fun item => String.eqb (QueueItem.id item) conflictId)
      (conflictQueue (resolver this))
  with
  | None => (Throw (ConflictNotFound conflictId), this)
  | Some conflictItem =>
      match
        Resolver.resolveManually (resolver this)
          (QueueItem.conflict conflictItem) resolvedContent
      with
      | Throw e => (Throw e, this)
      | Ok resolved =>
          let this1 :=
            fire (onConflictResolved this)
              (ConflictResolved (Some (QueueItem.conflict conflictItem))
                 resolved) this in
          (Ok resolved,
           setResolver this1
             (Resolver.removeConflict (resolver this1) conflictId))
      end
  end.

(** [getPendingConflicts()]. *)
Definition getPendingConflicts (this : t) : list PendingConflict.t :=
  map (fun item =>
         PendingConflict.mk (QueueItem.id item)
           (type (QueueItem.conflict item)) (QueueItem.timestamp item)
           (localVersion (QueueItem.conflict item))
           (remoteVersion (QueueItem.conflict item)))
    (conflictQueue (resolver this)).

Definition hasConflicts (this : t) : bool :=
  Resolver.hasConflicts (resolver this).

Definition getConflictCount (this : t) : nat :=
  Resolver.getQueueSize (resolver this).

(** [resolveAllConflicts(strategy = 'last-write-wins')]: the hook is called
    with [null] and the resolved content, once per result. *)
Definition resolveAllConflicts (this : t) (optStrategy : option string)
    : Result nat * t :=
  let strategy := default "last-write-wins" optStrategy in
  match Resolver.resolveAll (resolver this) (Some strategy) with
  | (Throw e, resolver') => (Throw e, setResolver this resolver')
  | (Ok results, resolver') =>
      let this1 := setResolver this resolver' in
      (Ok (length results),
       if onConflictResolved this1
       then foldl (fun m result =>
                     fire true
                       (ConflictResolved None (Resolved.resolved result)) m)
              this1 results
       else this1)
  end.

Definition clearConflicts (this : t) : t :=
  setResolver this (Resolver.clearQueue (resolver this)).

Definition setAutoResolveStrategy (this : t) (strategy : option string) : t :=
  {| detector := detector this;
     resolver := resolver this;
     onConflictDetected := onConflictDetected this;
     onConflictResolved := onConflictResolved this;
     autoResolveStrategy := strategy;
     hookCalls := hookCalls this |}.

End Manager.

Module ManagerSamples.

(** A manager with both hooks registered, no auto-resolve strategy, and
    the two conflicts of [Samples.mixedQueue] pending. *)
Definition pending : Manager.t :=
  Manager.setResolver (Manager.new None None true true None)
    Samples.mixedQueue.

Definition readings : Manager.Readings :=
  Manager.mkReadings 5000 5000 5001 5001 "q7w8e9r0t".

Definition localData : SyncData.t :=
  SyncData.mk "Hello World A" (Some 1) (Some 1000) (Some "device-1").

Definition remoteData : SyncData.t :=
  SyncData.mk "Hello World B" (Some 1) (Some 1001) (Some "device-2").

End ManagerSamples.

(** ** IndexedDBStorage: the note write path *)

Module Note.
Record t : Type := mk {
  id : option string;
  notebookId : option string;
  title : option string;
  content : option string;
  tags : option (list string);
  createdAt : option Z;
  updatedAt : option Z;
  version : option Z
}.
End Note.

Module Storage.

(** The object stores of the opened database; [notes] has key path [id]. *)
Record Database : Type := mkDatabase {
  notes : gmap string Note.t
}.

Record t : Type := mk {
  db : option Database;
  isInitialized : bool
}.

(** [_ensureInitialized()] followed by a transaction on the open database. *)
Definition _transaction {A} (this : t)
    (operation : Database -> A * Database) : Result A * t :=
  match db this with
  | Some d =>
      if isInitialized this then
        let '(a, d') := operation d in
        (Ok a, {| db := Some d'; isInitialized := isInitialized this |})
      else (Throw NotInitialized, this)
  | None => (Throw NotInitialized, this)
  end.

(** The object [saveNote] puts in the store. *)
Definition noteData (now : Z) (notebookId : option string) (note : Note.t)
    : Note.t :=
  {| Note.id := Note.id note;
     Note.notebookId := notebookId;
     Note.title := Note.title note;
     Note.content := Note.content note;
     Note.tags := Some (default [] (Note.tags note));
     Note.createdAt := Some (JS.numberOr (Note.createdAt note) now);
     Note.updatedAt := Some now;
     Note.version := Some (JS.add (JS.numberOr (Note.version note) 0) 1) |}.

(** [saveNote(notebookId, note)]; [now] is the reading of [Date.now()]. *)
Definition saveNote (now : Z) (this : t) (notebookId : option string)
    (note : Note.t) : Result unit * t :=
  if JS.falsy (Note.id note) || JS.falsy notebookId
  then (Throw InvalidNoteData, this)
  else
    let data := noteData now notebookId note in
    _transaction this (fun d =>
      (tt, {| notes := <[default "" (Note.id note) := data]> (notes d) |})).

(** [getNote(notebookId, noteId)]. *)
Definition getNote (this : t) (notebookId : option string) (noteId : string)
    : Result (option Note.t) * t :=
  let '(r, this') :=
    _transaction this (fun d => (notes d !! noteId, d)) in
  (try! note := r in
   match note with
   | Some n =>
       if decide (Note.notebookId n = notebookId) then Ok (Some n)
       else Ok None
   | None => Ok None
   end,
   this').

End Storage.

Module StorageSamples.

Definition opened : Storage.t :=
  Storage.mk (Some (Storage.mkDatabase ∅)) true.

(** A note that has been saved twice already. *)
Definition note : Note.t :=
  Note.mk (Some "note-1") None (Some "Title") (Some "Body") None
    (Some 1700000000000) (Some 1700000000500) (Some 2).

(** A note whose version is [2^53], the first integer whose successor is
    not a double. *)
Definition saturated : Note.t :=
  Note.mk (Some "note-1") None (Some "Title") (Some "Body") None
    (Some 1700000000000) (Some 1700000000500) (Some 9007199254740992).

End StorageSamples.

(** ** IndexedDBStorage: notebooks, history and the offline queue *)

Module Notebook.
Record t : Type := mk {
  id : option string;
  name : option string;
  mnemonic : option string;
  encryptionKey : option string;
  roomId : option string;
  createdAt : option Z;
  updatedAt : option Z
}.
End Notebook.

Module HistoryEntry.
Record t : Type := mk {
  id : option string;
  noteId : option string;
  content : option string;
  delta : option string;
  version : option Z;
  timestamp : option Z;
  deviceName : option string;
  tags : option (list string)
}.
End HistoryEntry.

Module PendingOperation.
Record t : Type := mk {
  id : option string;
  type : option string;
  notebookId : option string;
  noteId : option string;
  data : option string;
  timestamp : option Z;
  retries : option Z
}.
End PendingOperation.

(** The errors of the storage methods modelled here; the errors of the note
    write path keep their [JsError]. *)
Inductive StorageError : Type :=
  | InvalidNotebookData
  | InvalidHistoryEntry
  | InvalidOperation
  | NoteNotFound (noteId : string) (notebookId : option string)
  | KeyRangeError
  | OpenFailed
  | NoteStoreError (e : JsError).

Inductive Outcome (A : Type) : Type :=
  | Done (a : A)
  | Failed (e : StorageError).

Arguments Done {A} a.
Arguments Failed {A} e.

Module IDB.

(** The four object stores, each with key path [id]. *)
Record Database : Type := mkDatabase {
  notebooks : gmap string Notebook.t;
  notes : gmap string Note.t;
  history : gmap string HistoryEntry.t;
  pendingOps : gmap string PendingOperation.t
}.

(** The storage object; [dbName], [version] and [quotaWarningThreshold]
    are read by [initialize] and [getStorageUsage] only. *)
Record t : Type := mk {
  db : option Database;
  isInitialized : bool;
  maxHistoryPerNote : Z
}.

(** [constructor(options = {})]. *)
Definition new (optMaxHistoryPerNote : option Z) : t :=
  {| db := None;
     isInitialized := false;
     maxHistoryPerNote := JS.numberOr optMaxHistoryPerNote 100 |}.

(** [initialize()]; [openResult] is what [indexedDB.open] answers when it
    is asked: the opened database, or nothing when the request fails. *)
Definition initialize (openResult : option Database) (this : t)
    : Outcome unit * t :=
  match (if isInitialized this then db this else None) with
  | Some _ => (Done tt, this)
  | None =>
      match openResult with
      | Some d =>
          (Done tt,
           {| db := Some d;
              isInitialized := true;
              maxHistoryPerNote := maxHistoryPerNote this |})
      | None => (Failed OpenFailed, this)
      end
  end.

Definition notInitialized : StorageError := NoteStoreError NotInitialized.

Definition ofResult {A} (r : Result A) : Outcome A :=
  match r with
  | Ok a => Done a
  | Throw e => Failed (NoteStoreError e)
  end.

(** [_ensureInitialized()] and the database it guards. *)
Definition opened (this : t) : option Database :=
  if isInitialized this then db this else None.

Definition setDb (this : t) (d : Database) : t :=
  {| db := Some d;
     isInitialized := isInitialized this;
     maxHistoryPerNote := maxHistoryPerNote this |}.

(** [_transaction(storeName, mode, operation)]. *)
Definition _transaction {A} (this : t) (operation : Database -> A * Database)
    : Outcome A * t :=
  match opened this with
  | Some d => let '(a, d') := operation d in (Done a, setDb this d')
  | None => (Failed notInitialized, this)
  end.

(** The notes store as the note write path sees it. *)
Definition notesView (this : t) : Storage.t :=
  Storage.mk ((fun d => Storage.mkDatabase (notes d)) <$> db this)
    (isInitialized this).

Definition withNotes (this : t) (view : Storage.t) : t :=
  match db this, Storage.db view with
  | Some d, Some nd =>
      setDb this
        (mkDatabase (notebooks d) (Storage.notes nd) (history d) (pendingOps d))
  | _, _ => this
  end.

Definition saveNote (now : Z) (this : t) (notebookId : option string)
    (note : Note.t) : Outcome unit * t :=
  let '(r, view) := Storage.saveNote now (notesView this) notebookId note in
  (ofResult r, withNotes this view).

Definition getNote (this : t) (notebookId : option string) (noteId : string)
    : Outcome (option Note.t) * t :=
  let '(r, view) := Storage.getNote (notesView this) notebookId noteId in
  (ofResult r, withNotes this view).

(** [store.getAll()]: the records in ascending key order. *)
Definition keyLe {A} (a b : string * A) : Prop := String.le a.1 b.1.

#[global] Instance keyLe_dec {A} : RelDecision (@keyLe A).
Proof. intros a b. unfold keyLe. apply _. Defined.

Definition entries {A} (store : gmap string A) : list (string * A) :=
  merge_sort keyLe (map_to_list store).

Definition records {A} (store : gmap string A) : list A :=
  (entries store).*2.

(** [saveNotebook(notebook)]; [now] is the reading of [Date.now()]. *)
Definition notebookData (now : Z) (notebook : Notebook.t) : Notebook.t :=
  {| Notebook.id := Notebook.id notebook;
     Notebook.name := Notebook.name notebook;
     Notebook.mnemonic := Notebook.mnemonic notebook;
     Notebook.encryptionKey := Notebook.encryptionKey notebook;
     Notebook.roomId := Notebook.roomId notebook;
     Notebook.createdAt := Some (JS.numberOr (Notebook.createdAt notebook) now);
     Notebook.updatedAt := Some now |}.

Definition saveNotebook (now : Z) (this : t) (notebook : Notebook.t)
    : Outcome unit * t :=
  if JS.falsy (Notebook.id notebook) || JS.falsy (Notebook.name notebook)
  then (Failed InvalidNotebookData, this)
  else
    let data := notebookData now notebook in
    _transaction this (fun d =>
      (tt, mkDatabase (<[default "" (Notebook.id notebook) := data]> (notebooks d))
             (notes d) (history d) (pendingOps d))).

Definition getNotebook (this : t) (id : string)
    : Outcome (option Notebook.t) * t :=
  _transaction this (fun d => (notebooks d !! id, d)).

Definition listNotebooks (this : t) : Outcome (list Notebook.t) * t :=
  _transaction this (fun d => (records (notebooks d), d)).

(** The keys the [notebookId] index of the notes store gives for [id]. *)
Definition notesOf (d : Database) (id : string) : gmap string Note.t :=
  filter (fun kv => Note.notebookId kv.2 = Some id) (notes d).

(** Whether a history entry is one the [noteId] index gives for a note of
    [noteIds]. *)
Definition historyOf (noteIds : gmap string Note.t) (entry : HistoryEntry.t)
    : bool :=
  match HistoryEntry.noteId entry with
  | Some noteId => bool_decide (is_Some (noteIds !! noteId))
  | None => false
  end.

(** [deleteNotebook(id)]: one transaction over the four stores. *)
Definition deleteNotebook (this : t) (id : string) : Outcome unit * t :=
  match opened this with
  | None => (Failed notInitialized, this)
  | Some d =>
      let noteIds := notesOf d id in
      (Done tt,
       setDb this
         (mkDatabase
            (delete id (notebooks d))
            (filter (fun kv => noteIds !! kv.1 = None) (notes d))
            (filter (fun kv => historyOf noteIds kv.2 = false) (history d))
            (filter (fun kv => PendingOperation.notebookId kv.2 <> Some id)
               (pendingOps d))))
  end.

(** [listNotes(notebookId)]: the notes the index gives, newest update
    first. *)
Definition listNotes (this : t) (notebookId : string)
    : Outcome (list Note.t) * t :=
  match opened this with
  | None => (Failed notInitialized, this)
  | Some d =>
      (Done (JS.sortBy
               (fun a b => JS.compareNumbers (Note.updatedAt b) (Note.updatedAt a))
               (records (notesOf d notebookId))),
       this)
  end.

(** [deleteNote(notebookId, noteId)]. *)
Definition deleteNote (this : t) (notebookId : option string) (noteId : string)
    : Outcome unit * t :=
  match opened this with
  | None => (Failed notInitialized, this)
  | Some d =>
      match getNote this notebookId noteId with
      | (Failed e, this') => (Failed e, this')
      | (Done None, this') => (Failed (NoteNotFound noteId notebookId), this')
      | (Done (Some _), _) =>
          (Done tt,
           setDb this
             (mkDatabase (notebooks d)
                (delete noteId (notes d))
                (filter (fun kv => HistoryEntry.noteId kv.2 <> Some noteId)
                   (history d))
                (pendingOps d)))
      end
  end.

(** *** History *)

Definition timestampOf (entry : HistoryEntry.t) : Z :=
  default 0 (HistoryEntry.timestamp entry).

(** The entries the [noteId_timestamp] index holds in
    [IDBKeyRange.bound([noteId, 0], [noteId, now])]. *)
Definition inRange (now : Z) (noteId : string)
    (kv : string * HistoryEntry.t) : Prop :=
  HistoryEntry.noteId kv.2 = Some noteId
  /\ exists ts, HistoryEntry.timestamp kv.2 = Some ts /\ 0 <= ts <= now.

#[global] Instance inRange_dec now noteId kv : Decision (inRange now noteId kv).
Proof.
  unfold inRange. destruct (HistoryEntry.timestamp kv.2) as [ts|].
  - destruct (decide (HistoryEntry.noteId kv.2 = Some noteId /\ 0 <= ts <= now))
      as [H | H].
    + left. destruct H as [H1 H2]. split; [exact H1 | exists ts; tauto].
    + right. intros [H1 (ts' & [= <-] & H2)]. tauto.
  - right. intros [_ (ts & Hts & _)]. discriminate Hts.
Defined.

(** The order of a cursor opened with direction ['prev']: larger timestamp
    first, and for one timestamp the larger key first. *)
Definition newerFirst (a b : string * HistoryEntry.t) : Prop :=
  timestampOf b.2 < timestampOf a.2
  \/ (timestampOf a.2 = timestampOf b.2 /\ String.le b.1 a.1).

#[global] Instance newerFirst_dec : RelDecision newerFirst.
Proof. intros a b. unfold newerFirst. apply _. Defined.

(** [index.openCursor(range, 'prev')]: what the cursor visits, in order. *)
Definition historyCursor (now : Z) (noteId : string) (d : Database)
    : list (string * HistoryEntry.t) :=
  merge_sort newerFirst (filter (inRange now noteId) (map_to_list (history d))).

(** [cursor.delete()] for every visited entry of [victims]. *)
Definition deleteEntries (victims : list (string * HistoryEntry.t))
    (store : gmap string HistoryEntry.t) : gmap string HistoryEntry.t :=
  foldr (fun kv m => delete kv.1 m) store victims.

Definition setHistory (d : Database) (store : gmap string HistoryEntry.t)
    : Database :=
  mkDatabase (notebooks d) (notes d) store (pendingOps d).

(** [getHistory(noteId, limit = 50)]; [now] is the reading of
    [Date.now()]. *)
Definition getHistory (now : Z) (this : t) (noteId : string)
    (optLimit : option Z) : Outcome (list HistoryEntry.t) * t :=
  let limit := default 50 optLimit in
  match opened this with
  | None => (Failed notInitialized, this)
  | Some d =>
      if now <? 0 then (Failed KeyRangeError, this)
      else (Done (take (Z.to_nat limit) (historyCursor now noteId d).*2), this)
  end.

(** [cleanupHistory(noteId, keepCount)]: the entries visited after the
    first [keepCount] are deleted; the result is their number. *)
Definition cleanupHistory (now : Z) (this : t) (noteId : string)
    (keepCount : Z) : Outcome nat * t :=
  match opened this with
  | None => (Failed notInitialized, this)
  | Some d =>
      if now <? 0 then (Failed KeyRangeError, this)
      else
        let victims := drop (Z.to_nat keepCount) (historyCursor now noteId d) in
        (Done (length victims),
         setDb this (setHistory d (deleteEntries victims (history d))))
  end.

Definition historyData (now : Z) (noteId : option string)
    (entry : HistoryEntry.t) : HistoryEntry.t :=
  {| HistoryEntry.id := HistoryEntry.id entry;
     HistoryEntry.noteId := noteId;
     HistoryEntry.content := HistoryEntry.content entry;
     HistoryEntry.delta := HistoryEntry.delta entry;
     HistoryEntry.version := HistoryEntry.version entry;
     HistoryEntry.timestamp :=
       Some (JS.numberOr (HistoryEntry.timestamp entry) now);
     HistoryEntry.deviceName := HistoryEntry.deviceName entry;
     HistoryEntry.tags := HistoryEntry.tags entry |}.

(** [saveHistory(noteId, entry)]; [nowSave] is the reading taken for a
    missing timestamp, [nowCleanup] the one taken by [cleanupHistory]. *)
Definition saveHistory (nowSave nowCleanup : Z) (this : t)
    (noteId : option string) (entry : HistoryEntry.t) : Outcome unit * t :=
  if JS.falsy (HistoryEntry.id entry) || JS.falsy noteId
  then (Failed InvalidHistoryEntry, this)
  else
    let data := historyData nowSave noteId entry in
    match
      _transaction this (fun d =>
        (tt, setHistory d
               (<[default "" (HistoryEntry.id entry) := data]> (history d))))
    with
    | (Failed e, this') => (Failed e, this')
    | (Done _, this') =>
        match cleanupHistory nowCleanup this' (default "" noteId)
                (maxHistoryPerNote this') with
        | (Failed e, this'') => (Failed e, this'')
        | (Done _, this'') => (Done tt, this'')
        end
    end.

(** *** The offline queue *)

Definition setPendingOps (d : Database)
    (store : gmap string PendingOperation.t) : Database :=
  mkDatabase (notebooks d) (notes d) (history d) store.

Definition opData (now : Z) (op : PendingOperation.t) : PendingOperation.t :=
  {| PendingOperation.id := PendingOperation.id op;
     PendingOperation.type := PendingOperation.type op;
     PendingOperation.notebookId := PendingOperation.notebookId op;
     PendingOperation.noteId := PendingOperation.noteId op;
     PendingOperation.data := PendingOperation.data op;
     PendingOperation.timestamp :=
       Some (JS.numberOr (PendingOperation.timestamp op) now);
     PendingOperation.retries :=
       Some (JS.numberOr (PendingOperation.retries op) 0) |}.

Definition enqueueOperation (now : Z) (this : t) (op : PendingOperation.t)
    : Outcome unit * t :=
  if JS.falsy (PendingOperation.id op) then (Failed InvalidOperation, this)
  else
    _transaction this (fun d =>
      (tt, setPendingOps d
             (<[default "" (PendingOperation.id op) := opData now op]>
                (pendingOps d)))).

Definition dequeueOperations (this : t)
    : Outcome (list PendingOperation.t) * t :=
  match _transaction this (fun d => (records (pendingOps d), d)) with
  | (Failed e, this') => (Failed e, this')
  | (Done ops, this') =>
      (Done (JS.sortBy
               (fun a b =>
                  JS.compareNumbers (PendingOperation.timestamp a)
                    (PendingOperation.timestamp b))
               ops),
       this')
  end.

Definition clearQueue (this : t) : Outcome unit * t :=
  _transaction this (fun d => (tt, setPendingOps d ∅)).

Definition removeOperation (this : t) (operationId : string)
    : Outcome unit * t :=
  _transaction this (fun d =>
    (tt, setPendingOps d (delete operationId (pendingOps d)))).

(** [close()]. *)
Definition close (this : t) : t :=
  match db this with
  | Some _ =>
      {| db := None;
         isInitialized := false;
         maxHistoryPerNote := maxHistoryPerNote this |}
  | None => this
  end.

End IDB.

Module IDBSamples.

Definition entry (id : string) (ts : Z) : HistoryEntry.t :=
  HistoryEntry.mk (Some id) None (Some "text") None (Some 1) (Some ts)
    (Some "laptop") None.

Definition operation (id : string) (ts : option Z) : PendingOperation.t :=
  PendingOperation.mk (Some id) (Some "update") (Some "nb-1") (Some "note-1")
    None ts None.

Definition notebook : Notebook.t :=
  Notebook.mk (Some "nb-1") (Some "Work") None None None (Some 1690000000000)
    None.

(** An opened, empty database that keeps two history entries per note. *)
Definition empty : IDB.t :=
  IDB.mk (Some (IDB.mkDatabase ∅ ∅ ∅ ∅)) true 2.

End IDBSamples.

(** * Properties *)

(** ** Strings *)

Lemma string_app_cons (x : ascii) (a b : string) :
  String x a +:+ b = String x (a +:+ b).
Proof. reflexivity. Qed.

Lemma string_app_assoc (a b c : string) : (a +:+ b) +:+ c = a +:+ (b +:+ c).
Proof.
  induction a as [|x a IH]; [reflexivity |].
  rewrite !string_app_cons. f_equal. exact IH.
Qed.

Lemma string_app_empty_r (a : string) : a +:+ "" = a.
Proof.
  induction a as [|x a IH]; [reflexivity |].
  rewrite string_app_cons. f_equal. exact IH.
Qed.

Lemma includes_refl (s : string) : JS.includes s s.
Proof. exists "", "". simpl. now rewrite string_app_empty_r. Qed.

Lemma includes_app_l (a b needle : string) :
  JS.includes a needle -> JS.includes (a +:+ b) needle.
Proof.
  intros (pre & post & ->). exists pre, (post +:+ b).
  now rewrite !string_app_assoc.
Qed.

Lemma includes_app_r (a b needle : string) :
  JS.includes b needle -> JS.includes (a +:+ b) needle.
Proof.
  intros (pre & post & ->). exists (a +:+ pre), post.
  now rewrite !string_app_assoc.
Qed.

(** A line of [lines] occurs in [lines.join('\n')]. *)
Lemma join_includes (lines : list string) (x : string) :
  In x lines -> JS.includes (JS.join lines) x.
Proof.
  induction lines as [|y rest IH]; intros Hin; [destruct Hin |].
  destruct Hin as [-> | Hin].
  - destruct rest as [|z rest']; simpl.
    + apply includes_refl.
    + apply includes_app_l, includes_refl.
  - destruct rest as [|z rest']; [destruct Hin |].
    change (JS.join (y :: z :: rest'))
      with (y +:+ JS.nl +:+ JS.join (z :: rest')).
    apply includes_app_r, includes_app_r, IH, Hin.
Qed.

Lemma split_nonempty (s : string) : JS.split s <> [].
Proof.
  destruct s as [|c rest]; simpl; [discriminate |].
  destruct (Ascii.eqb c JS.LF); [discriminate |].
  destruct (JS.split rest); discriminate.
Qed.

(** Splitting into lines and joining them again gives the text back. *)
Lemma join_split (s : string) : JS.join (JS.split s) = s.
Proof.
  induction s as [|c rest IH]; [reflexivity |]. simpl.
  pose proof (split_nonempty rest) as Hne.
  destruct (Ascii.eqb_spec c JS.LF) as [-> | _];
    destruct (JS.split rest) as [|x xs]; try contradiction.
  - change (JS.join ("" :: x :: xs)) with ("" +:+ JS.nl +:+ JS.join (x :: xs)).
    rewrite IH. reflexivity.
  - destruct xs as [|y ys].
    + simpl in *. rewrite IH. reflexivity.
    + change (JS.join (String c x :: y :: ys))
        with (String c (x +:+ JS.nl +:+ JS.join (y :: ys))).
      f_equal. exact IH.
Qed.

#[local] Ltac eqb_cases :=
  repeat match goal with
    | |- context [String.eqb ?a ?b] =>
        destruct (String.eqb_spec a b); simpl in *
    | |- context [Z.eqb ?a ?b] => destruct (Z.eqb_spec a b); simpl in *
    | |- context [Z.ltb ?a ?b] => destruct (Z.ltb_spec a b); simpl in *
    | |- context [Z.gtb ?a ?b] =>
        rewrite (Z.gtb_ltb a b); destruct (Z.ltb_spec b a); simpl in *
    end.

(** ** ConflictDetector.detectConflict *)

Lemma new_default_window : conflictWindow (Detector.new None) = 5000.
Proof. reflexivity. Qed.

Lemma new_configured_window (w : Z) :
  w <> 0 -> conflictWindow (Detector.new (Some w)) = w.
Proof.
  intros Hw. unfold Detector.new, JS.numberOr; simpl.
  destruct (Z.eqb_spec w 0); [contradiction | reflexivity].
Qed.

(** C1. [detectConflict(local, remote)] is the first matching outcome of the
    ordered list: none when the hashes or the contents are equal;
    [concurrent_edit] when the versions are equal; [concurrent_edit] when the
    timestamps are less than [conflictWindow] apart; [offline_divergence]
    when the local version is smaller than the remote one (the hashes differ
    there); none otherwise.  In particular [detectConflict(v, v)] is none. *)
Theorem detectConflict_decision_list (this : ConflictDetector)
    (local remote : VersionedContent) :
  let same := hash local = hash remote \/ content local = content remote in
  let near :=
    Z.abs (timestamp local - timestamp remote) < conflictWindow this in
  let found t := Some (mkConflict t (Some local) (Some remote) None) in
  (same -> Detector.detectConflict this local remote = None)
  /\ (~ same -> version local = version remote ->
      Detector.detectConflict this local remote = found concurrent_edit)
  /\ (~ same -> version local <> version remote -> near ->
      Detector.detectConflict this local remote = found concurrent_edit)
  /\ (~ same -> version local <> version remote -> ~ near ->
      version local < version remote /\ hash local <> hash remote ->
      Detector.detectConflict this local remote = found offline_divergence)
  /\ (~ same -> version local <> version remote -> ~ near ->
      ~ (version local < version remote /\ hash local <> hash remote) ->
      Detector.detectConflict this local remote = None)
  /\ Detector.detectConflict this local local = None.
Proof.
  cbv zeta. unfold Detector.detectConflict.
  repeat split; intros; eqb_cases; try reflexivity; try tauto; try lia.
Qed.

Lemma detectConflict_decision_list_witness :
  Detector.detectConflict (Detector.new (Some 5000))
    (mkVersioned "Local changes" 1 1000 "device-1" None "h1")
    (mkVersioned "Remote changes" 2 10000 "device-2" None "h2")
  = Some (mkConflict offline_divergence
            (Some (mkVersioned "Local changes" 1 1000 "device-1" None "h1"))
            (Some (mkVersioned "Remote changes" 2 10000 "device-2" None "h2"))
            None).
Proof.
  apply (detectConflict_decision_list (Detector.new (Some 5000))
           (mkVersioned "Local changes" 1 1000 "device-1" None "h1")
           (mkVersioned "Remote changes" 2 10000 "device-2" None "h2")).
  - simpl. intros [H | H]; discriminate H.
  - simpl. lia.
  - simpl. lia.
  - simpl. split; [lia | discriminate].
Defined.

(** ** ConflictDetector.autoResolve *)

Lemma autoResolve_unknown (this : ConflictDetector) (conflict : ConflictInfo)
    (strategy : string) :
  ~ In strategy Detector.knownStrategies ->
  Detector.autoResolve this conflict strategy = Throw (UnknownStrategy strategy).
Proof.
  intros Hnot. unfold Detector.autoResolve.
  repeat match goal with
    | |- context [String.eqb strategy ?k] =>
        destruct (String.eqb_spec strategy k) as [-> | _];
        [exfalso; apply Hnot; simpl; tauto |]
    end.
  reflexivity.
Qed.

(** Equal timestamps: both timestamp strategies keep the remote side. *)
Lemma autoResolve_tie (this : ConflictDetector) (conflict : ConflictInfo)
    (l r : VersionedContent) :
  localVersion conflict = Some l -> remoteVersion conflict = Some r ->
  timestamp l = timestamp r ->
  Detector.autoResolve this conflict "last-write-wins" = Ok (content r)
  /\ Detector.autoResolve this conflict "first-write-wins" = Ok (content r).
Proof.
  intros Hl Hr Ht. unfold Detector.autoResolve. rewrite Hl, Hr. simpl.
  rewrite Ht, Z.gtb_ltb, Z.ltb_irrefl. split; reflexivity.
Qed.

(** C3. For a conflict whose two sides are present, [autoResolve] returns
    the content of the side with the larger timestamp for
    ['last-write-wins'], of the side with the smaller timestamp for
    ['first-write-wins'], the local content for ['local-wins'], the remote
    content for ['remote-wins'], the local content, the separator marker and
    the remote content for ['merge-both'] (so the result contains both
    contents), and fails with UnknownStrategy for any other strategy. *)
Theorem autoResolve_strategies (this : ConflictDetector)
    (conflict : ConflictInfo) (l r : VersionedContent) :
  localVersion conflict = Some l ->
  remoteVersion conflict = Some r ->
  (timestamp l > timestamp r ->
   Detector.autoResolve this conflict "last-write-wins" = Ok (content l))
  /\ (timestamp l < timestamp r ->
      Detector.autoResolve this conflict "last-write-wins" = Ok (content r))
  /\ (timestamp l < timestamp r ->
      Detector.autoResolve this conflict "first-write-wins" = Ok (content l))
  /\ (timestamp l > timestamp r ->
      Detector.autoResolve this conflict "first-write-wins" = Ok (content r))
  /\ Detector.autoResolve this conflict "local-wins" = Ok (content l)
  /\ Detector.autoResolve this conflict "remote-wins" = Ok (content r)
  /\ (exists both,
        Detector.autoResolve this conflict "merge-both" = Ok both
        /\ both = content l +:+ Detector.MERGE_BOTH_SEPARATOR +:+ content r
        /\ JS.includes both (content l)
        /\ JS.includes both (content r))
  /\ (forall strategy, ~ In strategy Detector.knownStrategies ->
      Detector.autoResolve this conflict strategy
      = Throw (UnknownStrategy strategy)).
Proof.
  intros Hl Hr. unfold Detector.autoResolve. rewrite Hl, Hr. simpl.
  repeat split; try (intros; eqb_cases; first [reflexivity | lia]).
  - eexists. split; [reflexivity |]. split; [reflexivity |].
    unfold Detector._mergeBoth. split.
    + apply includes_app_l, includes_refl.
    + apply includes_app_r, includes_app_r, includes_refl.
  - intros strategy Hnot.
    pose proof (autoResolve_unknown this conflict strategy Hnot) as H.
    unfold Detector.autoResolve in H. rewrite Hl, Hr in H. exact H.
Qed.

Lemma autoResolve_strategies_witness :
  let conflict :=
    mkConflict concurrent_edit
      (Some (mkVersioned "A" 1 1000 "device-1" None "ha"))
      (Some (mkVersioned "B" 1 2000 "device-2" None "hb")) None in
  let this := Detector.new None in
  Detector.autoResolve this conflict "last-write-wins" = Ok "B"
  /\ Detector.autoResolve this conflict "first-write-wins" = Ok "A"
  /\ Detector.autoResolve this conflict "local-wins" = Ok "A"
  /\ Detector.autoResolve this conflict "remote-wins" = Ok "B"
  /\ (exists both,
        Detector.autoResolve this conflict "merge-both" = Ok both
        /\ JS.includes both "A" /\ JS.includes both "B")
  /\ Detector.autoResolve this conflict "unknown-strategy"
     = Throw (UnknownStrategy "unknown-strategy").
Proof.
  intros conflict this.
  destruct (autoResolve_strategies this conflict
              (mkVersioned "A" 1 1000 "device-1" None "ha")
              (mkVersioned "B" 1 2000 "device-2" None "hb")
              eq_refl eq_refl)
    as (_ & Hlww & Hfww & _ & Hlocal & Hremote & Hboth & Hunknown).
  split; [apply Hlww; simpl; lia |].
  split; [apply Hfww; simpl; lia |].
  split; [exact Hlocal |].
  split; [exact Hremote |].
  split.
  - destruct Hboth as (both & Hb & _ & Ha & Hb').
    exists both. split; [exact Hb | split; [exact Ha | exact Hb']].
  - apply Hunknown. simpl. intros H.
    repeat destruct H as [H | H]; try discriminate H. exact H.
Defined.

(** ** ConflictDetector.threeWayMerge *)

(** C5. The fast paths of [threeWayMerge]: equal local and remote give the
    local text; otherwise an unchanged local gives the remote text; otherwise
    an unchanged remote gives the local text; each with [success = true].
    In particular [threeWayMerge(x, x, x)] succeeds with [x]. *)
Theorem threeWayMerge_fast_paths (this : ConflictDetector)
    (base local remote : string) :
  (local = remote ->
   Detector.threeWayMerge this base local remote = mkMerge true local None)
  /\ (local <> remote -> base = local ->
      Detector.threeWayMerge this base local remote = mkMerge true remote None)
  /\ (local <> remote -> base <> local -> base = remote ->
      Detector.threeWayMerge this base local remote = mkMerge true local None)
  /\ Detector.threeWayMerge this base base base = mkMerge true base None
  /\ Detector.threeWayMerge this base base remote = mkMerge true remote None
  /\ Detector.threeWayMerge this base local base = mkMerge true local None.
Proof.
  unfold Detector.threeWayMerge.
  repeat split; intros; eqb_cases; subst; try reflexivity; try contradiction.
Qed.

Lemma threeWayMerge_fast_paths_witness :
  Detector.threeWayMerge (Detector.new None) "Hello" "Hello" "Hello World"
  = mkMerge true "Hello World" None.
Proof.
  destruct (threeWayMerge_fast_paths (Detector.new None)
              "Hello" "Hello" "Hello World") as (_ & Hlocal & _).
  apply Hlocal; [discriminate | reflexivity].
Defined.

(** *** The line scan terminates *)

Section MergeScan.

Variables baseLines localLines remoteLines : list string.

#[local] Abbreviation step :=
  (Detector.mergeStep baseLines localLines remoteLines).
#[local] Abbreviation pending :=
  (Detector.mergePending baseLines localLines remoteLines).
#[local] Abbreviation measure :=
  (Detector.mergeMeasure baseLines localLines remoteLines).
#[local] Abbreviation loop :=
  (fun fuel => Detector.mergeLoop fuel baseLines localLines remoteLines).
#[local] Abbreviation markersPresent := Detector.markersPresent.

(** A line that differs from the current base line is collected. *)
Lemma collect_advances (lines : list string) (idx : nat) (baseLine x : string) :
  lines !! idx = Some x -> x <> baseLine ->
  (1 <= length (Detector.collectConflictLines (drop idx lines) baseLine))%nat.
Proof.
  intros Hx Hne. rewrite (drop_S _ _ _ Hx). simpl.
  destruct (String.eqb_spec x baseLine); [contradiction | simpl; lia].
Qed.

(** A current line that is not empty is a line of the list. *)
Lemma current_line_present (lines : list string) (idx : nat) :
  "" <> JS.stringOr (lines !! idx) "" ->
  exists x, lines !! idx = Some x /\ x <> "".
Proof.
  intros Hne. destruct (lines !! idx) as [x|] eqn:Hx.
  - exists x. split; [reflexivity |]. intros ->. apply Hne. reflexivity.
  - exfalso. apply Hne. reflexivity.
Qed.

Lemma mergeStep_decreases (st : Detector.MergeState) :
  pending st = true -> (measure (step st) < measure st)%nat.
Proof.
  unfold Detector.mergePending, Detector.mergeMeasure, Detector.mergeStep.
  intros Hpending.
  assert (Hsome : (Detector.baseIdx st < length baseLines
                   \/ Detector.localIdx st < length localLines
                   \/ Detector.remoteIdx st < length remoteLines)%nat).
  { apply orb_true_iff in Hpending as [Hpending | H];
      [apply orb_true_iff in Hpending as [H | H] |];
      apply Nat.ltb_lt in H; lia. }
  clear Hpending.
  set (baseLine := JS.stringOr (baseLines !! Detector.baseIdx st) "").
  set (localLine := JS.stringOr (localLines !! Detector.localIdx st) "").
  set (remoteLine := JS.stringOr (remoteLines !! Detector.remoteIdx st) "").
  destruct (String.eqb_spec baseLine localLine) as [Hbl | Hbl];
    destruct (String.eqb_spec baseLine remoteLine) as [Hbr | Hbr];
    simpl; try lia.
  destruct (decide (Detector.baseIdx st < length baseLines)%nat) as [Hb | Hb];
    [lia |].
  assert (Hempty : baseLine = "").
  { unfold baseLine. rewrite (lookup_ge_None_2 baseLines); [reflexivity | lia]. }
  rewrite Hempty in Hbl |- *.
  destruct (current_line_present localLines (Detector.localIdx st) Hbl)
    as (x & Hx & Hxne).
  pose proof (collect_advances _ _ _ _ Hx Hxne) as Hadv.
  pose proof (lookup_lt_Some _ _ _ Hx) as Hlt.
  lia.
Qed.

Lemma pending_measure (st : Detector.MergeState) :
  pending st = true -> (0 < measure st)%nat.
Proof.
  unfold Detector.mergePending, Detector.mergeMeasure. intros Hpending.
  apply orb_true_iff in Hpending as [Hpending | H];
    [apply orb_true_iff in Hpending as [H | H] |];
    apply Nat.ltb_lt in H; lia.
Qed.

(** With at least [measure st] iterations the loop ends by its condition. *)
Lemma mergeLoop_terminates (fuel : nat) (st : Detector.MergeState) :
  (measure st <= fuel)%nat ->
  exists st', loop fuel st = Some st' /\ pending st' = false.
Proof.
  revert st. induction fuel as [|fuel IH]; intros st Hfuel; simpl.
  - destruct (pending st) eqn:Hp.
    + apply pending_measure in Hp. lia.
    + exists st. split; [reflexivity | exact Hp].
  - destruct (pending st) eqn:Hp.
    + apply IH. apply mergeStep_decreases in Hp. lia.
    + exists st. split; [reflexivity | exact Hp].
Qed.

(** A property kept by every iteration holds when the loop ends. *)
Lemma mergeLoop_invariant (P : Detector.MergeState -> Prop) :
  (forall st, pending st = true -> P st -> P (step st)) ->
  forall fuel st st', P st -> loop fuel st = Some st' -> P st'.
Proof.
  intros Hstep. induction fuel as [|fuel IH]; intros st st' HP; simpl;
    destruct (pending st) eqn:Hp; intros Hloop; try discriminate.
  - injection Hloop as <-. exact HP.
  - eapply IH; [| exact Hloop]. apply Hstep; assumption.
  - injection Hloop as <-. exact HP.
Qed.

Lemma mergeStep_markers (st : Detector.MergeState) :
  markersPresent st -> markersPresent (step st).
Proof.
  unfold Detector.markersPresent, Detector.mergeStep. intros Hinv.
  set (baseLine := JS.stringOr (baseLines !! Detector.baseIdx st) "").
  set (localLine := JS.stringOr (localLines !! Detector.localIdx st) "").
  set (remoteLine := JS.stringOr (remoteLines !! Detector.remoteIdx st) "").
  destruct (String.eqb_spec baseLine localLine);
    destruct (String.eqb_spec baseLine remoteLine); simpl;
    try (intros Hreg; destruct (Hinv Hreg) as [Hl Hr];
         split; apply in_or_app; left; assumption).
  intros _. split; apply in_or_app; right.
  - left. reflexivity.
  - right. apply in_or_app. right. right. apply in_or_app. right.
    left. reflexivity.
Qed.

(** [_mergeLines] is the loop run until its condition fails. *)
Lemma _mergeLines_complete :
  exists st,
    loop (measure Detector.mergeStart) Detector.mergeStart = Some st
    /\ pending st = false
    /\ Detector._mergeLines baseLines localLines remoteLines
       = (Detector.mergedLines st, Detector.regions st).
Proof.
  destruct (mergeLoop_terminates (measure Detector.mergeStart)
              Detector.mergeStart (le_n _)) as (st & Hloop & Hp).
  exists st. split; [exact Hloop |]. split; [exact Hp |].
  unfold Detector._mergeLines. simpl in Hloop. rewrite Hloop. reflexivity.
Qed.

Lemma _mergeLines_markers :
  snd (Detector._mergeLines baseLines localLines remoteLines) <> [] ->
  In Detector.LOCAL_MARKER
    (fst (Detector._mergeLines baseLines localLines remoteLines))
  /\ In Detector.REMOTE_MARKER
       (fst (Detector._mergeLines baseLines localLines remoteLines)).
Proof.
  destruct _mergeLines_complete as (st & Hloop & _ & ->). simpl.
  assert (Hstart : markersPresent Detector.mergeStart).
  { intros H. exfalso. apply H. reflexivity. }
  exact (mergeLoop_invariant markersPresent
           (fun st _ => mergeStep_markers st) _ _ _ Hstart Hloop).
Qed.

End MergeScan.

(** C4. [threeWayMerge] returns [success = false] exactly when the line scan
    was run (no fast path applied) and recorded at least one region; the scan
    is the loop run until its condition fails; on failure the region list is
    the non-empty list the scan recorded and the merged text contains both
    the ['<<<<<<< LOCAL'] and the ['>>>>>>> REMOTE'] marker. *)
Theorem threeWayMerge_failure (this : ConflictDetector)
    (base local remote : string) :
  let baseLines := JS.split base in
  let localLines := JS.split local in
  let remoteLines := JS.split remote in
  let scan := Detector._mergeLines baseLines localLines remoteLines in
  let result := Detector.threeWayMerge this base local remote in
  (exists st,
     Detector.mergeLoop
       (Detector.mergeMeasure baseLines localLines remoteLines
          Detector.mergeStart)
       baseLines localLines remoteLines Detector.mergeStart = Some st
     /\ Detector.mergePending baseLines localLines remoteLines st = false
     /\ scan = (Detector.mergedLines st, Detector.regions st))
  /\ (success result = false <->
      local <> remote /\ base <> local /\ base <> remote /\ snd scan <> [])
  /\ (success result = false ->
      conflicts result = Some (snd scan)
      /\ snd scan <> []
      /\ merged result = JS.join (fst scan)
      /\ JS.includes (merged result) Detector.LOCAL_MARKER
      /\ JS.includes (merged result) Detector.REMOTE_MARKER).
Proof.
  cbv zeta. split; [apply _mergeLines_complete |].
  pose proof (_mergeLines_markers (JS.split base) (JS.split local)
                (JS.split remote)) as Hmarkers.
  unfold Detector.threeWayMerge.
  destruct (String.eqb_spec local remote) as [Hlr | Hlr];
    [simpl; split; [split; [discriminate | tauto] | discriminate] |].
  destruct (String.eqb_spec base local) as [Hbl | Hbl];
    [simpl; split; [split; [discriminate | tauto] | discriminate] |].
  destruct (String.eqb_spec base remote) as [Hbr | Hbr];
    [simpl; split; [split; [discriminate | tauto] | discriminate] |].
  destruct (Detector._mergeLines (JS.split base) (JS.split local)
              (JS.split remote)) as [lines regs].
  simpl in *. destruct regs as [|reg regs]; simpl.
  - split; [split; [discriminate | intros (_ & _ & _ & H); now contradict H] |
            discriminate].
  - assert (Hne : reg :: regs <> []) by discriminate.
    destruct (Hmarkers Hne) as [Hl Hr].
    split; [split; [intros _; repeat split; assumption | reflexivity] |].
    intros _. repeat split; try assumption; try reflexivity;
      apply join_includes; assumption.
Qed.

Lemma threeWayMerge_failure_witness :
  let result :=
    Detector.threeWayMerge (Detector.new None)
      "Hello" "Hello World" "Hello Universe" in
  success result = false
  /\ (exists reg regs, conflicts result = Some (reg :: regs))
  /\ JS.includes (merged result) "<<<<<<< LOCAL"
  /\ JS.includes (merged result) ">>>>>>> REMOTE".
Proof.
  intros result.
  destruct (threeWayMerge_failure (Detector.new None)
              "Hello" "Hello World" "Hello Universe")
    as (_ & _ & Hfail).
  destruct (Hfail eq_refl) as (Hconf & _ & _ & Hl & Hr).
  split; [reflexivity |].
  split; [| split; [exact Hl | exact Hr]].
  eexists _, _. reflexivity.
Defined.

(** ** ConflictResolver.resolve *)

Lemma resolve_manual (this : ConflictResolver) (conflict : ConflictInfo) :
  Resolver.resolve this conflict (Some "manual") = Throw ManualResolutionRequired.
Proof. reflexivity. Qed.

(** [resolve] reads the detector and the default strategy only. *)
Lemma resolve_setQueue (this : ConflictResolver) (queue : list QueueItem.t)
    (conflict : ConflictInfo) (strategy : option string) :
  Resolver.resolve (Resolver.setQueue this queue) conflict strategy
  = Resolver.resolve this conflict strategy.
Proof. reflexivity. Qed.

(** The ['last-write-wins'] fallback returns one side's content. *)
Lemma lastWriteWins_one_side (this : ConflictDetector) (conflict : ConflictInfo)
    (l r : VersionedContent) :
  localVersion conflict = Some l -> remoteVersion conflict = Some r ->
  Detector.autoResolve this conflict "last-write-wins" = Ok (content l)
  \/ Detector.autoResolve this conflict "last-write-wins" = Ok (content r).
Proof.
  intros Hl Hr. unfold Detector.autoResolve. rewrite Hl, Hr. simpl.
  destruct (timestamp l >? timestamp r); [left | right]; reflexivity.
Qed.

(** C6. [resolve(conflict, 'auto-merge')]: without a common ancestor it is
    [autoResolve(conflict, 'last-write-wins')]; with one (and both sides
    present) it returns the merged text when the three-way merge of
    (ancestor, local, remote) succeeds, and
    [autoResolve(conflict, 'last-write-wins')] when the merge fails, which
    is the content of one side: the merge's regions are not returned. *)
Theorem resolve_auto_merge (this : ConflictResolver) (conflict : ConflictInfo) :
  (commonAncestor conflict = None ->
   Resolver.resolve this conflict (Some "auto-merge")
   = Detector.autoResolve (detector this) conflict "last-write-wins")
  /\ (forall ancestor l r,
        commonAncestor conflict = Some ancestor ->
        localVersion conflict = Some l ->
        remoteVersion conflict = Some r ->
        let result :=
          Detector.threeWayMerge (detector this)
            (content ancestor) (content l) (content r) in
        (success result = true ->
         Resolver.resolve this conflict (Some "auto-merge")
         = Ok (merged result))
        /\ (success result = false ->
            Resolver.resolve this conflict (Some "auto-merge")
            = Detector.autoResolve (detector this) conflict "last-write-wins"
            /\ (Resolver.resolve this conflict (Some "auto-merge")
                = Ok (content l)
                \/ Resolver.resolve this conflict (Some "auto-merge")
                   = Ok (content r)))).
Proof.
  split.
  - intros Hanc. unfold Resolver.resolve. simpl. rewrite Hanc. reflexivity.
  - intros ancestor l r Hanc Hl Hr result.
    unfold Resolver.resolve. simpl. rewrite Hanc, Hl, Hr. simpl.
    fold result. split; intros Hs; rewrite Hs; [reflexivity |].
    split; [reflexivity |].
    apply (lastWriteWins_one_side (detector this) conflict l r Hl Hr).
Qed.

Lemma resolve_auto_merge_witness :
  let conflict :=
    mkConflict concurrent_edit
      (Some (mkVersioned "Local changes" 1 1000 "device-1" None "h1"))
      (Some (mkVersioned "Remote changes" 1 2000 "device-2" None "h2"))
      (Some (mkVersioned "Original" 0 500 "device-1" None "h0")) in
  Resolver.resolve (Resolver.new None (Some "last-write-wins")) conflict
    (Some "auto-merge")
  = Ok "Remote changes".
Proof.
  intros conflict.
  destruct (resolve_auto_merge (Resolver.new None (Some "last-write-wins"))
              conflict) as [_ Hanc].
  destruct (Hanc _ _ _ eq_refl eq_refl eq_refl) as [_ Hfail].
  destruct (Hfail eq_refl) as [-> _]. reflexivity.
Defined.

(** A conflict with a common ancestor whose side is missing fails in
    [resolve] as it does in the fallback. *)
Lemma resolve_auto_merge_malformed (this : ConflictResolver)
    (conflict : ConflictInfo) :
  localVersion conflict = None \/ remoteVersion conflict = None ->
  Resolver.resolve this conflict (Some "auto-merge") = Throw TypeError
  /\ Detector.autoResolve (detector this) conflict "last-write-wins"
     = Throw TypeError.
Proof.
  unfold Resolver.resolve, Detector.autoResolve. simpl.
  intros [H | H]; rewrite H;
    destruct (commonAncestor conflict), (localVersion conflict);
    split; reflexivity.
Qed.

(** ** ConflictResolver.resolveAll *)

Section ResolveAll.

Variable this : ConflictResolver.
Variable strategy : string.

Lemma removeConflict_setQueue (queue : list QueueItem.t) (cid : string) :
  Resolver.removeConflict (Resolver.setQueue this queue) cid
  = Resolver.setQueue this
      (filter (fun item => QueueItem.id item <> cid) queue).
Proof. reflexivity. Qed.

(** Removing the head's id from a queue without a second item of that id
    removes the head only. *)
Lemma remove_head_unique (item : QueueItem.t) (rest : list QueueItem.t) :
  ~ In (QueueItem.id item) (map QueueItem.id rest) ->
  filter (fun it => QueueItem.id it <> QueueItem.id item) (item :: rest)
  = rest.
Proof.
  intros Hfresh. rewrite filter_cons_False by (intros H; apply H; reflexivity).
  induction rest as [|x rest IH]; [reflexivity |].
  simpl in Hfresh. rewrite filter_cons_True by (intros H; apply Hfresh; left; exact H).
  f_equal. apply IH. intros H. apply Hfresh. right. exact H.
Qed.

(** The loop ends with an empty queue, for every starting queue. *)
Lemma resolveAllLoop_terminates (fuel : nat) (queue : list QueueItem.t)
    (results : list Resolved.t) :
  (length queue <= fuel)%nat ->
  exists results',
    Resolver.resolveAllLoop fuel (Resolver.setQueue this queue) strategy results
    = Some (Resolver.setQueue this [], results').
Proof.
  revert queue results.
  induction fuel as [|fuel IH]; intros queue results Hfuel.
  - destruct queue; [| simpl in Hfuel; lia].
    exists results. reflexivity.
  - destruct queue as [|item rest]; [exists results; reflexivity |].
    simpl in Hfuel.
    change (Resolver.resolveAllLoop (S fuel)
              (Resolver.setQueue this (item :: rest)) strategy results)
      with (match Resolver.resolve this (QueueItem.conflict item)
                    (Some strategy) with
            | Ok resolved =>
                Resolver.resolveAllLoop fuel
                  (Resolver.setQueue this
                     (filter (fun it => QueueItem.id it <> QueueItem.id item)
                        (item :: rest)))
                  strategy
                  (results ++ [Resolved.mk (QueueItem.id item) resolved])
            | Throw _ =>
                Resolver.resolveAllLoop fuel (Resolver.setQueue this rest)
                  strategy results
            end).
    destruct (Resolver.resolve this (QueueItem.conflict item) (Some strategy)).
    + apply IH.
      rewrite filter_cons_False by (intros H; apply H; reflexivity).
      pose proof (length_filter
                    (fun it => QueueItem.id it <> QueueItem.id item) rest).
      lia.
    + apply IH. lia.
Qed.

(** With pairwise distinct ids the loop returns the pairs of the items
    whose resolution succeeds. *)
Lemma resolveAllLoop_distinct (queue : list QueueItem.t) :
  NoDup (map QueueItem.id queue) ->
  forall (fuel : nat) (results : list Resolved.t),
    (length queue <= fuel)%nat ->
    Resolver.resolveAllLoop fuel (Resolver.setQueue this queue) strategy results
    = Some (Resolver.setQueue this [],
            results ++ Resolver.resolvedPairs this strategy queue).
Proof.
  induction queue as [|item rest IH]; intros Hnodup fuel results Hfuel.
  - destruct fuel; simpl; rewrite app_nil_r; reflexivity.
  - destruct fuel as [|fuel]; [simpl in Hfuel; lia |].
    simpl in Hfuel. apply NoDup_cons in Hnodup as [Hfresh Hnodup].
    change (Resolver.resolveAllLoop (S fuel)
              (Resolver.setQueue this (item :: rest)) strategy results)
      with (match Resolver.resolve this (QueueItem.conflict item)
                    (Some strategy) with
            | Ok resolved =>
                Resolver.resolveAllLoop fuel
                  (Resolver.setQueue this
                     (filter (fun it => QueueItem.id it <> QueueItem.id item)
                        (item :: rest)))
                  strategy
                  (results ++ [Resolved.mk (QueueItem.id item) resolved])
            | Throw _ =>
                Resolver.resolveAllLoop fuel (Resolver.setQueue this rest)
                  strategy results
            end).
    unfold Resolver.resolvedPairs. simpl.
    fold (Resolver.resolvedPairs this strategy rest).
    destruct (Resolver.resolve this (QueueItem.conflict item) (Some strategy)).
    + rewrite remove_head_unique
        by (intros H; apply Hfresh, list_elem_of_In; exact H).
      rewrite IH by (assumption || lia).
      rewrite <- app_assoc. reflexivity.
    + apply IH; [assumption | lia].
Qed.

End ResolveAll.

Lemma setQueue_self (this : ConflictResolver) :
  Resolver.setQueue this (conflictQueue this) = this.
Proof. destruct this; reflexivity. Qed.

(** For every starting queue the batch returns with an empty queue and the
    busy flag cleared. *)
Lemma resolveAll_drains (this : ConflictResolver) (optStrategy : option string) :
  resolving this = false ->
  exists results,
    Resolver.resolveAll this optStrategy
    = (Ok results,
       mkResolver (detector this) (defaultStrategy this) [] false).
Proof.
  intros Hfree. unfold Resolver.resolveAll. rewrite Hfree.
  destruct (resolveAllLoop_terminates (Resolver.setResolving this true)
              (default "last-write-wins" optStrategy)
              (length (conflictQueue this)) (conflictQueue this) []
              (le_n _)) as (results & Hloop).
  change (Resolver.setQueue (Resolver.setResolving this true)
            (conflictQueue this))
    with (Resolver.setQueue (Resolver.setResolving this true)
            (conflictQueue (Resolver.setResolving this true))) in Hloop.
  rewrite setQueue_self in Hloop.
  change (length (conflictQueue (Resolver.setResolving this true)))
    with (length (conflictQueue this)).
  rewrite Hloop. exists results. reflexivity.
Qed.

(** While a batch runs, the busy flag is set: a second [resolveAll] on any
    state the loop goes through fails with AlreadyResolving. *)
Lemma resolveAll_reentrant (this : ConflictResolver)
    (queue : list QueueItem.t) (optStrategy : option string) :
  let running := Resolver.setQueue (Resolver.setResolving this true) queue in
  Resolver.resolveAll running optStrategy = (Throw AlreadyResolving, running).
Proof. reflexivity. Qed.

(** C7 (amended). [resolveAll] fails with AlreadyResolving, leaving the
    resolver as it is, when the busy flag is set.  Otherwise, for every
    starting queue, it returns a result list and leaves the queue empty and
    the busy flag cleared; and for every starting queue whose ids are
    pairwise distinct, the list returned holds the [{id, resolved}] pairs of
    exactly the items whose resolution succeeds, in queue order (a failing
    item is dropped and the rest is still processed). *)
Theorem resolveAll_batch (this : ConflictResolver) (optStrategy : option string) :
  let strategy := default "last-write-wins" optStrategy in
  let drained := mkResolver (detector this) (defaultStrategy this) [] false in
  (resolving this = true ->
   Resolver.resolveAll this optStrategy = (Throw AlreadyResolving, this))
  /\ (resolving this = false ->
      exists results,
        Resolver.resolveAll this optStrategy = (Ok results, drained))
  /\ (resolving this = false ->
      NoDup (Resolver.queueIds this) ->
      Resolver.resolveAll this optStrategy
      = (Ok (Resolver.resolvedPairs this strategy (conflictQueue this)),
         drained)).
Proof.
  cbv zeta. split; [| split; [apply resolveAll_drains |]];
    intros Hflag; unfold Resolver.resolveAll; rewrite Hflag; [reflexivity |].
  intros Hnodup.
  pose proof (resolveAllLoop_distinct (Resolver.setResolving this true)
                (default "last-write-wins" optStrategy)
                (conflictQueue this) Hnodup
                (length (conflictQueue this)) [] (le_n _)) as Hloop.
  change (Resolver.setQueue (Resolver.setResolving this true)
            (conflictQueue this))
    with (Resolver.setQueue (Resolver.setResolving this true)
            (conflictQueue (Resolver.setResolving this true))) in Hloop.
  rewrite setQueue_self in Hloop.
  change (length (conflictQueue (Resolver.setResolving this true)))
    with (length (conflictQueue this)).
  rewrite Hloop. reflexivity.
Qed.

Lemma resolveAll_batch_witness :
  Resolver.resolveAll Samples.mixedQueue (Some "last-write-wins")
  = (Ok [Resolved.mk "conflict_1000_k3x9q1m7z" "Remote content"],
     Samples.resolver).
Proof.
  destruct (resolveAll_batch Samples.mixedQueue (Some "last-write-wins"))
    as (_ & _ & Hbatch).
  rewrite Hbatch; [reflexivity | reflexivity |].
  apply (bool_decide_unpack _). vm_compute. reflexivity.
Defined.

(** The claim as stated, for every starting queue, fails on a queue that
    holds two items with one id: resolving the first removes both, and the
    second, whose resolution would succeed, is never processed. *)
Lemma resolveAll_batch_counterexample :
  resolving Samples.collidingQueue = false
  /\ Resolver.resolveAll Samples.collidingQueue (Some "last-write-wins")
     = (Ok [Resolved.mk "conflict_1000_i" "Remote content"], Samples.resolver)
  /\ Resolver.resolvedPairs Samples.collidingQueue "last-write-wins"
       (conflictQueue Samples.collidingQueue)
     = [Resolved.mk "conflict_1000_i" "Remote content";
        Resolved.mk "conflict_1000_i" "Remote content"]
  /\ fst (Resolver.resolveAll Samples.collidingQueue (Some "last-write-wins"))
     <> Ok (Resolver.resolvedPairs Samples.collidingQueue "last-write-wins"
              (conflictQueue Samples.collidingQueue)).
Proof.
  split; [reflexivity |]. split; [reflexivity |]. split; [reflexivity |].
  vm_compute. intros H. discriminate H.
Qed.

(** ** ConflictResolver.enqueueConflict *)

Lemma enqueueConflict_appends (t1 t2 : Z) (suffix : string)
    (this : ConflictResolver) (conflict : ConflictInfo) :
  conflictQueue (Resolver.enqueueConflict t1 t2 suffix this conflict)
  = conflictQueue this
      ++ [QueueItem.mk conflict t1 (Resolver.conflictId t2 suffix)].
Proof. reflexivity. Qed.

(** Two ids made from one clock reading differ when the random suffixes
    differ. *)
Lemma conflictId_suffix_inj (now : Z) (suffix1 suffix2 : string) :
  Resolver.conflictId now suffix1 = Resolver.conflictId now suffix2 ->
  suffix1 = suffix2.
Proof.
  unfold Resolver.conflictId. intros H.
  repeat apply String.app_inj in H. exact H.
Qed.

(** The id depends on the clock reading and the suffix only: with the same
    reading and the same suffix, two enqueued conflicts get the same id. *)
Lemma enqueueConflict_same_draw (now1 now2 now : Z) (suffix : string)
    (this : ConflictResolver) (c1 c2 : ConflictInfo) :
  exists item1 item2,
    conflictQueue
      (Resolver.enqueueConflict now2 now suffix
         (Resolver.enqueueConflict now1 now suffix this c1) c2)
    = conflictQueue this ++ [item1; item2]
    /\ QueueItem.conflict item1 = c1
    /\ QueueItem.conflict item2 = c2
    /\ QueueItem.id item1 = QueueItem.id item2.
Proof.
  eexists _, _. rewrite !enqueueConflict_appends, <- app_assoc. simpl.
  repeat split; reflexivity.
Qed.

(** C9 (the code at the failing input). Two different conflicts enqueued
    in the same millisecond with the same random suffix are two distinct
    queue items that carry the same id. *)
Theorem enqueueConflict_id_collision :
  exists item1 item2,
    conflictQueue Samples.collidingQueue = [item1; item2]
    /\ item1 <> item2
    /\ QueueItem.id item1 = "conflict_1000_i"
    /\ QueueItem.id item2 = "conflict_1000_i".
Proof.
  eexists _, _. split; [reflexivity |].
  split; [intros H; discriminate H |]. split; reflexivity.
Qed.

(** ** ConflictManager.resolveManually *)

Lemma resolveManually_requires_content (this : ConflictResolver)
    (conflict : ConflictInfo) (resolvedContent : option string) :
  JS.falsy resolvedContent = true ->
  Resolver.resolveManually this conflict resolvedContent
  = Throw ResolvedContentRequired.
Proof. intros H. unfold Resolver.resolveManually. rewrite H. reflexivity. Qed.

(** A failing call of the manager's [resolveManually] changes nothing. *)
Lemma Manager_resolveManually_throw_unchanged (this : Manager.t)
    (conflictId : string) (resolvedContent : option string) (e : JsError) :
  fst (Manager.resolveManually this conflictId resolvedContent) = Throw e ->
  snd (Manager.resolveManually this conflictId resolvedContent) = this.
Proof.
  unfold Manager.resolveManually.
  destruct (List.find _ _) as [item|]; [| reflexivity].
  destruct (Resolver.resolveManually _ _ _); [discriminate | reflexivity].
Qed.

Lemma find_id_present (queue : list QueueItem.t) (conflictId : string) :
  In conflictId (map QueueItem.id queue) ->
  exists item,
    List.find (fun item => String.eqb (QueueItem.id item) conflictId) queue
    = Some item
    /\ In item queue /\ QueueItem.id item = conflictId.
Proof.
  induction queue as [|x queue IH]; intros Hin; [destruct Hin |].
  simpl. destruct (String.eqb_spec (QueueItem.id x) conflictId) as [Heq | Hne].
  - exists x. split; [reflexivity |]. split; [left; reflexivity | exact Heq].
  - destruct Hin as [Hin | Hin]; [contradiction |].
    destruct (IH Hin) as (item & Hfind & Hitem & Hid).
    exists item. split; [exact Hfind |]. split; [right; exact Hitem | exact Hid].
Qed.

(** C10. When [conflictId] is queued and the content is empty or absent,
    the manager's [resolveManually] fails with the resolver's
    content-required error and leaves the manager as it was: the queue is
    unchanged and no hook call is recorded.  Whenever a call changes the
    queue or records a hook call, it returned a resolved content: the one
    given, with the [onConflictResolved] hook (if registered) called before
    the item was removed from the queue. *)
Theorem Manager_resolveManually_atomic (this : Manager.t) (conflictId : string) :
  In conflictId (Resolver.queueIds (Manager.resolver this)) ->
  (forall resolvedContent,
     JS.falsy resolvedContent = true ->
     Manager.resolveManually this conflictId resolvedContent
     = (Throw ResolvedContentRequired, this))
  /\ (forall resolvedContent r this',
        Manager.resolveManually this conflictId resolvedContent = (r, this') ->
        conflictQueue (Manager.resolver this')
          <> conflictQueue (Manager.resolver this)
        \/ Manager.hookCalls this' <> Manager.hookCalls this ->
        exists c item,
          resolvedContent = Some c /\ c <> "" /\ r = Ok c
          /\ In item (conflictQueue (Manager.resolver this))
          /\ QueueItem.id item = conflictId
          /\ ~ In conflictId (Resolver.queueIds (Manager.resolver this'))
          /\ Manager.hookCalls this'
             = Manager.hookCalls this
                 ++ (if Manager.onConflictResolved this
                     then [ConflictResolved (Some (QueueItem.conflict item)) c]
                     else [])).
Proof.
  intros Hin. destruct (find_id_present _ _ Hin) as (item & Hfind & Hitem & Hid).
  split.
  - intros resolvedContent Hfalsy. unfold Manager.resolveManually.
    rewrite Hfind, (resolveManually_requires_content _ _ _ Hfalsy). reflexivity.
  - intros resolvedContent r this'. unfold Manager.resolveManually.
    rewrite Hfind. unfold Resolver.resolveManually.
    destruct (JS.falsy resolvedContent) eqn:Hfalsy.
    + intros [= <- <-] [H | H]; contradict H; reflexivity.
    + intros [= <- <-] _.
      destruct resolvedContent as [c|]; [| discriminate Hfalsy].
      simpl in Hfalsy. apply String.eqb_neq in Hfalsy.
      exists c, item. simpl.
      split; [reflexivity |]. split; [exact Hfalsy |]. split; [reflexivity |].
      split; [exact Hitem |]. split; [exact Hid |]. split.
      * unfold Manager.fire, Resolver.queueIds.
        destruct (Manager.onConflictResolved this); simpl;
          rewrite <- list_elem_of_In, list_elem_of_fmap;
          intros (x & Hx & Hxin); apply list_elem_of_filter in Hxin as [Hne _];
          apply Hne; symmetry; exact Hx.
      * unfold Manager.fire.
        destruct (Manager.onConflictResolved this); simpl;
          [reflexivity | rewrite app_nil_r; reflexivity].
Qed.

Lemma Manager_resolveManually_atomic_witness :
  Manager.resolveManually ManagerSamples.pending "conflict_1000_k3x9q1m7z"
    (Some "")
  = (Throw ResolvedContentRequired, ManagerSamples.pending)
  /\ Manager.resolveManually ManagerSamples.pending "conflict_1000_k3x9q1m7z"
       None
     = (Throw ResolvedContentRequired, ManagerSamples.pending).
Proof.
  assert (Hin : In "conflict_1000_k3x9q1m7z"
                  (Resolver.queueIds (Manager.resolver ManagerSamples.pending))).
  { vm_compute. right. left. reflexivity. }
  destruct (Manager_resolveManually_atomic ManagerSamples.pending
              "conflict_1000_k3x9q1m7z" Hin) as [Hfail _].
  split; apply Hfail; reflexivity.
Defined.

(** ** ConflictManager.checkAndHandle *)

Lemma fire_resolver (registered : bool) (call : HookCall) (this : Manager.t) :
  Manager.resolver (Manager.fire registered call this) = Manager.resolver this
  /\ Manager.autoStrategy (Manager.fire registered call this)
     = Manager.autoStrategy this
  /\ Manager.hookCalls (Manager.fire registered call this)
     = Manager.hookCalls this ++ (if registered then [call] else []).
Proof.
  destruct registered; simpl; repeat split; try reflexivity.
  rewrite app_nil_r. reflexivity.
Qed.

Lemma autoStrategy_none (this : Manager.t) :
  Manager.autoResolveStrategy this = None
  \/ Manager.autoResolveStrategy this = Some "manual" ->
  Manager.autoStrategy this = None.
Proof.
  unfold Manager.autoStrategy. intros [-> | ->]; reflexivity.
Qed.

Lemma autoStrategy_some (this : Manager.t) (s : string) :
  Manager.autoStrategy this = Some s -> Manager.autoResolveStrategy this = Some s.
Proof.
  unfold Manager.autoStrategy.
  destruct (Manager.autoResolveStrategy this) as [s'|]; [| discriminate].
  destruct (negb _ && negb _); [| discriminate]. intros [= ->]. reflexivity.
Qed.

(** C2. With [local] and [remote] the versioned contents built from the two
    inputs: when the detector finds no conflict, [checkAndHandle] returns
    [{hasConflict:false, resolved: remote.content, conflict:null}] and
    changes nothing; when it finds a conflict and no auto-resolve strategy
    or ['manual'] is configured, or the attempt with the configured strategy
    fails, the conflict is appended to the resolver's queue and the result
    is [{hasConflict:true, resolved:null, conflict}]. *)
Theorem checkAndHandle_outcomes (env : Manager.Readings) (this : Manager.t)
    (localData remoteData : SyncData.t) :
  let local := Manager.versioned this localData (Manager.nowLocal env) "local" in
  let remote :=
    Manager.versioned this remoteData (Manager.nowRemote env) "remote" in
  (Detector.detectConflict (Manager.detector this) local remote = None ->
   Manager.checkAndHandle env this localData remoteData
   = (mkCheck false (Some (SyncData.content remoteData)) None, this))
  /\ (forall conflict,
        Detector.detectConflict (Manager.detector this) local remote
        = Some conflict ->
        Manager.autoResolveStrategy this = None
        \/ Manager.autoResolveStrategy this = Some "manual"
        \/ (exists strategy e,
              Manager.autoResolveStrategy this = Some strategy
              /\ Resolver.resolve (Manager.resolver this) conflict
                   (Some strategy) = Throw e) ->
        exists this',
          Manager.checkAndHandle env this localData remoteData
          = (mkCheck true None (Some conflict), this')
          /\ conflictQueue (Manager.resolver this')
             = conflictQueue (Manager.resolver this)
                 ++ [QueueItem.mk conflict (Manager.nowEnqueued env)
                       (Resolver.conflictId (Manager.nowId env)
                          (Manager.suffix env))]
          /\ Manager.hookCalls this'
             = Manager.hookCalls this
                 ++ (if Manager.onConflictDetected this
                     then [ConflictDetected conflict] else [])).
Proof.
  cbv zeta. split.
  - intros Hnone. unfold Manager.checkAndHandle. rewrite Hnone. reflexivity.
  - intros conflict Hsome Hmanual. unfold Manager.checkAndHandle.
    rewrite Hsome.
    set (this1 := Manager.fire (Manager.onConflictDetected this)
                    (ConflictDetected conflict) this).
    destruct (fire_resolver (Manager.onConflictDetected this)
                (ConflictDetected conflict) this) as (Hres & Hauto & Hcalls).
    fold this1 in Hres, Hauto, Hcalls.
    assert (Henq : exists this',
               Manager.enqueueForManual env this1 conflict
               = (mkCheck true None (Some conflict), this')
               /\ conflictQueue (Manager.resolver this')
                  = conflictQueue (Manager.resolver this)
                      ++ [QueueItem.mk conflict (Manager.nowEnqueued env)
                            (Resolver.conflictId (Manager.nowId env)
                               (Manager.suffix env))]
               /\ Manager.hookCalls this'
                  = Manager.hookCalls this
                      ++ (if Manager.onConflictDetected this
                          then [ConflictDetected conflict] else [])).
    { eexists. split; [reflexivity |]. simpl. rewrite Hres, Hcalls.
      split; reflexivity. }
    rewrite Hauto, Hres.
    destruct (Manager.autoStrategy this) as [s|] eqn:Hs; [| exact Henq].
    apply autoStrategy_some in Hs as Hcfg.
    destruct Hmanual as [Hnone | [Hman | (s' & e & Hcfg' & Hthrow)]].
    + congruence.
    + rewrite (autoStrategy_none this (or_intror Hman)) in Hs. discriminate.
    + assert (s' = s) as -> by congruence. rewrite Hthrow. exact Henq.
Qed.

Lemma checkAndHandle_outcomes_witness :
  exists conflict this',
    Manager.checkAndHandle ManagerSamples.readings ManagerSamples.pending
      ManagerSamples.localData ManagerSamples.remoteData
    = (mkCheck true None (Some conflict), this')
    /\ type conflict = concurrent_edit
    /\ length (conflictQueue (Manager.resolver this')) = 3%nat.
Proof.
  destruct (checkAndHandle_outcomes ManagerSamples.readings
              ManagerSamples.pending ManagerSamples.localData
              ManagerSamples.remoteData) as [_ Hconflict].
  cbv zeta in Hconflict.
  destruct (Detector.detectConflict _ _ _) as [conflict|] eqn:Hdet;
    [| vm_compute in Hdet; discriminate Hdet].
  destruct (Hconflict conflict eq_refl (or_introl eq_refl))
    as (this' & Hcall & Hqueue & _).
  exists conflict, this'. split; [exact Hcall |]. split.
  - vm_compute in Hdet. injection Hdet as <-. reflexivity.
  - rewrite Hqueue. reflexivity.
Defined.

(** ** IndexedDBStorage.saveNote *)

Lemma saveNote_requires_ids (now : Z) (this : Storage.t)
    (notebookId : option string) (note : Note.t) :
  JS.falsy (Note.id note) = true \/ JS.falsy notebookId = true ->
  Storage.saveNote now this notebookId note = (Throw InvalidNoteData, this).
Proof.
  intros H. unfold Storage.saveNote.
  destruct H as [-> | ->]; [| rewrite orb_true_r]; reflexivity.
Qed.

Lemma saveNote_requires_initialize (now : Z) (this : Storage.t)
    (notebookId : option string) (note : Note.t) :
  JS.falsy (Note.id note) = false -> JS.falsy notebookId = false ->
  Storage.db this = None \/ Storage.isInitialized this = false ->
  Storage.saveNote now this notebookId note = (Throw NotInitialized, this).
Proof.
  intros Hid Hnb Hinit. unfold Storage.saveNote, Storage._transaction.
  rewrite Hid, Hnb. simpl.
  destruct Hinit as [-> | ->]; [reflexivity |].
  destruct (Storage.db this); reflexivity.
Qed.

Lemma toDouble_exact (z : Z) :
  - 2 ^ 53 <= z <= 2 ^ 53 -> JS.toDouble z = z.
Proof.
  intros Hz. unfold JS.toDouble. cbv zeta.
  destruct (Z.leb_spec (Z.abs z) (2 ^ 53)); [reflexivity | lia].
Qed.

Lemma add_one_safe (v : Z) :
  - 2 ^ 53 < v < 2 ^ 53 -> JS.add v 1 = v + 1.
Proof. intros Hv. apply toDouble_exact. lia. Qed.

Lemma add_one_saturates : JS.add (2 ^ 53) 1 = 2 ^ 53.
Proof. vm_compute. reflexivity. Qed.

(** C8. On an initialized store, for a note with an id and a notebook id,
    [saveNote(notebookId, note)] stores under the note's id the passed note
    with its title and content, its tags (or the empty list), its non-zero
    [createdAt] (or the time of the save), [updatedAt] set to the time of
    the save, [notebookId] set to the one passed, and the version
    [(note.version || 0) + 1], a sum of doubles.  When the passed version is
    absent or a safe integer (of magnitude below [2^53]) the stored version
    is one more than the passed one, 1 for a missing version. *)
Theorem saveNote_stores (now : Z) (this : Storage.t) (database : Storage.Database)
    (notebookId noteId : string) (note : Note.t) :
  Storage.db this = Some database ->
  Storage.isInitialized this = true ->
  Note.id note = Some noteId ->
  noteId <> "" ->
  notebookId <> "" ->
  exists this' stored,
    Storage.saveNote now this (Some notebookId) note = (Ok tt, this')
    /\ Storage.getNote this' (Some notebookId) noteId = (Ok (Some stored), this')
    /\ stored
       = Note.mk (Some noteId) (Some notebookId) (Note.title note)
           (Note.content note) (Some (default [] (Note.tags note)))
           (Some (JS.numberOr (Note.createdAt note) now)) (Some now)
           (Some (JS.add (JS.numberOr (Note.version note) 0) 1))
    /\ (Note.version note = None -> Note.version stored = Some 1)
    /\ (forall v, Note.version note = Some v -> - 2 ^ 53 < v < 2 ^ 53 ->
        Note.version stored = Some (v + 1))
    /\ Note.updatedAt stored = Some now
    /\ Note.notebookId stored = Some notebookId.
Proof.
  intros Hdb Hinit Hid Hnote Hnb.
  set (data := Storage.noteData now (Some notebookId) note).
  set (this' :=
         Storage.mk
           (Some (Storage.mkDatabase (<[noteId := data]> (Storage.notes database))))
           true).
  apply String.eqb_neq in Hnote, Hnb.
  assert (Hsave : Storage.saveNote now this (Some notebookId) note
                  = (Ok tt, this')).
  { unfold Storage.saveNote, Storage._transaction.
    rewrite Hid, Hdb, Hinit. simpl. rewrite Hnote, Hnb. reflexivity. }
  assert (Hget : Storage.getNote this' (Some notebookId) noteId
                 = (Ok (Some data), this')).
  { unfold Storage.getNote, Storage._transaction. simpl.
    rewrite lookup_insert_eq. simpl.
    rewrite decide_True by reflexivity. reflexivity. }
  exists this', data. split; [exact Hsave |]. split; [exact Hget |].
  split; [unfold data, Storage.noteData; rewrite Hid; reflexivity |].
  repeat split; try reflexivity.
  - intros Hv. unfold data, Storage.noteData. cbn [Note.version].
    rewrite Hv. reflexivity.
  - intros v Hv Hsafe. unfold data, Storage.noteData. cbn [Note.version].
    rewrite Hv. cbn [JS.numberOr].
    destruct (Z.eqb_spec v 0) as [-> | _]; [reflexivity |].
    rewrite (add_one_safe v Hsafe). reflexivity.
Qed.

Lemma saveNote_stores_witness :
  exists this' stored,
    Storage.saveNote 1700000001000 StorageSamples.opened (Some "nb-1")
      StorageSamples.note = (Ok tt, this')
    /\ Storage.getNote this' (Some "nb-1") "note-1" = (Ok (Some stored), this')
    /\ stored
       = Note.mk (Some "note-1") (Some "nb-1") (Some "Title") (Some "Body")
           (Some []) (Some 1700000000000) (Some 1700000001000) (Some 3).
Proof.
  destruct (saveNote_stores 1700000001000 StorageSamples.opened
              (Storage.mkDatabase ∅) "nb-1" "note-1" StorageSamples.note
              eq_refl eq_refl eq_refl)
    as (this' & stored & Hsave & Hget & Hstored & _);
    [discriminate | discriminate |].
  exists this', stored. split; [exact Hsave |]. split; [exact Hget |].
  rewrite Hstored. reflexivity.
Defined.

(** The claim as stated, for every note object, fails on a note whose
    version is [2^53]: the sum [2^53 + 1] is not a double and rounds back to
    [2^53], so the stored version is the passed version, not one more. *)
Lemma saveNote_stores_counterexample :
  exists this' stored,
    Storage.saveNote 1700000001000 StorageSamples.opened (Some "nb-1")
      StorageSamples.saturated = (Ok tt, this')
    /\ Storage.getNote this' (Some "nb-1") "note-1" = (Ok (Some stored), this')
    /\ Note.version StorageSamples.saturated = Some (2 ^ 53)
    /\ Note.version stored = Some (2 ^ 53)
    /\ Note.version stored
       <> Some (JS.numberOr (Note.version StorageSamples.saturated) 0 + 1).
Proof.
  eexists. eexists. split; [reflexivity |]. split; [reflexivity |].
  split; [reflexivity |]. split; [vm_compute; reflexivity |].
  vm_compute. intros H. discriminate H.
Qed.

(** ** The repository's unit tests, replayed on the embedding *)

Example test_hash_differs :
  Detector.hashContent "Hello" <> Detector.hashContent "World".
Proof. vm_compute. discriminate. Qed.

Example test_identical_content :
  Detector.detectConflict (Detector.new (Some 5000))
    (mkVersioned "Hello World" 1 1000 "device-1" None
       (Detector.hashContent "Hello World"))
    (mkVersioned "Hello World" 1 1000 "device-2" None
       (Detector.hashContent "Hello World"))
  = None.
Proof. vm_compute. reflexivity. Qed.

Example test_concurrent_edit :
  type <$> Detector.detectConflict (Detector.new (Some 5000))
    (mkVersioned "Hello World A" 1 1000 "device-1" None
       (Detector.hashContent "Hello World A"))
    (mkVersioned "Hello World B" 1 1001 "device-2" None
       (Detector.hashContent "Hello World B"))
  = Some concurrent_edit.
Proof. vm_compute. reflexivity. Qed.

Example test_offline_divergence :
  type <$> Detector.detectConflict (Detector.new (Some 5000))
    (mkVersioned "Local changes" 1 1000 "device-1" None
       (Detector.hashContent "Local changes"))
    (mkVersioned "Remote changes" 2 10000 "device-2" None
       (Detector.hashContent "Remote changes"))
  = Some offline_divergence.
Proof. vm_compute. reflexivity. Qed.

Example test_merge_disjoint_lines :
  Detector.threeWayMerge (Detector.new None)
    ("Line 1" +:+ JS.nl +:+ "Line 2" +:+ JS.nl +:+ "Line 3")
    ("Line 1 Modified" +:+ JS.nl +:+ "Line 2" +:+ JS.nl +:+ "Line 3")
    ("Line 1" +:+ JS.nl +:+ "Line 2" +:+ JS.nl +:+ "Line 3 Modified")
  = mkMerge true
      ("Line 1 Modified" +:+ JS.nl +:+ "Line 2" +:+ JS.nl +:+ "Line 3 Modified")
      None.
Proof. vm_compute. reflexivity. Qed.

Example test_auto_merge_when_possible :
  Resolver.resolve Samples.resolver
    (mkConflict concurrent_edit
       (Some (mkVersioned "Hello" 1 1000 "device-1" None "h"))
       (Some (mkVersioned "Hello World" 1 2000 "device-2" None "h'"))
       (Some (mkVersioned "Hello" 0 500 "device-1" None "h")))
    (Some "auto-merge")
  = Ok "Hello World".
Proof. vm_compute. reflexivity. Qed.

Example test_default_strategy :
  Resolver.resolve Samples.resolver (Samples.createConflict 1000 2000) None
  = Ok "Remote content".
Proof. vm_compute. reflexivity. Qed.

Example test_queue_fifo :
  QueueItem.conflict <$> Resolver.getNextConflict Samples.mixedQueue
  = Some Samples.badConflict.
Proof. reflexivity. Qed.

Example test_resolve_all_manual_drops_everything :
  Resolver.resolveAll Samples.mixedQueue (Some "manual")
  = (Ok [], Samples.resolver).
Proof. vm_compute. reflexivity. Qed.

(** * Further properties of the conflict engine *)

(** ** ConflictDetector.hashContent *)

Lemma toInt32_range (z : Z) : - 2 ^ 31 <= JS.toInt32 z < 2 ^ 31.
Proof.
  unfold JS.toInt32. pose proof (Z.mod_pos_bound z (2 ^ 32) ltac:(lia)).
  cbv zeta. destruct (Z.ltb_spec (z mod 2 ^ 32) (2 ^ 31)); lia.
Qed.

(** [ToInt32] reads its argument modulo [2^32]. *)
Lemma toInt32_mod (a b : Z) :
  a mod 2 ^ 32 = b mod 2 ^ 32 -> JS.toInt32 a = JS.toInt32 b.
Proof. unfold JS.toInt32. intros ->. reflexivity. Qed.

Lemma toInt32_congr (z : Z) : JS.toInt32 z mod 2 ^ 32 = z mod 2 ^ 32.
Proof.
  unfold JS.toInt32. cbv zeta.
  destruct (Z.ltb_spec (z mod 2 ^ 32) (2 ^ 31)).
  - apply Z.mod_mod. lia.
  - rewrite <- (Z.mod_mod z (2 ^ 32)) at 2 by lia.
    rewrite <- (Z.mod_add (z mod 2 ^ 32 - 2 ^ 32) 1 (2 ^ 32)) by lia.
    f_equal. lia.
Qed.

(** One round of the loop of [hashContent]: [(hash << 5) - hash + char],
    cut to 32 bits, is [31 * hash + char] cut to 32 bits. *)
Lemma hash_round (hash c : Z) :
  Z.land (JS.toInt32 ((JS.toInt32 (Z.shiftl hash 5) - hash) + c))
         (JS.toInt32 ((JS.toInt32 (Z.shiftl hash 5) - hash) + c))
  = JS.toInt32 (31 * hash + c).
Proof.
  rewrite Z.land_diag. apply toInt32_mod.
  rewrite Z.shiftl_mul_pow2 by lia.
  rewrite <- Zplus_mod_idemp_l, <- Zminus_mod_idemp_l, toInt32_congr.
  rewrite Zminus_mod_idemp_l, Zplus_mod_idemp_l. f_equal. lia.
Qed.

Lemma hashLoop_polyHash (content : string) (hash : Z) :
  Detector.hashLoop content hash = Detector.polyHash content hash.
Proof.
  revert hash. induction content as [|c rest IH]; intros hash; simpl;
    [reflexivity |].
  rewrite hash_round. apply IH.
Qed.

Lemma polyHash_range (content : string) (hash : Z) :
  - 2 ^ 31 <= hash < 2 ^ 31 ->
  - 2 ^ 31 <= Detector.polyHash content hash < 2 ^ 31.
Proof.
  revert hash. induction content as [|c rest IH]; intros hash Hh; simpl;
    [exact Hh |].
  apply IH, toInt32_range.
Qed.

(** X1. [hashContent] prints, in base 36, the fold
    [h => ToInt32(31 * h + charCode)] over the characters of the text, started
    at 0: the shift-and-subtract of the source is multiplication by 31 and
    the bitwise [&] cuts to 32 bits.  The number printed is always in the
    signed 32-bit range, and a text extended by one character [c] hashes to
    [ToInt32(31 * h + c)] for the hash number [h] of the text. *)
Theorem hashContent_polynomial (content : string) :
  Detector.hashContent content = JS.toString36 (Detector.polyHash content 0)
  /\ - 2 ^ 31 <= Detector.hashLoop content 0 < 2 ^ 31
  /\ forall c : ascii,
       Detector.hashLoop (content +:+ String c "") 0
       = JS.toInt32 (31 * Detector.hashLoop content 0 + JS.charCode c).
Proof.
  split; [unfold Detector.hashContent; now rewrite hashLoop_polyHash |].
  split; [rewrite hashLoop_polyHash; apply polyHash_range; lia |].
  intros c. rewrite !hashLoop_polyHash. generalize 0.
  induction content as [|x rest IH]; intros h; [reflexivity |].
  rewrite string_app_cons. simpl. apply IH.
Qed.

(** ** The line scan without conflicts *)

Section CleanScan.

Variables baseLines localLines remoteLines : list string.

#[local] Abbreviation step :=
  (Detector.mergeStep baseLines localLines remoteLines).
#[local] Abbreviation pending :=
  (Detector.mergePending baseLines localLines remoteLines).
#[local] Abbreviation cleanLine :=
  (Detector.cleanLine baseLines localLines remoteLines).
#[local] Abbreviation oneSided :=
  (Detector.oneSided baseLines localLines remoteLines).
#[local] Abbreviation scanLength :=
  (Detector.scanLength baseLines localLines remoteLines).

#[local] Abbreviation inStep :=
  (Detector.inStep baseLines localLines remoteLines).

Lemma pending_inStep (st : Detector.MergeState) :
  pending st = true -> Detector.localIdx st = Detector.baseIdx st ->
  Detector.remoteIdx st = Detector.baseIdx st ->
  (Detector.baseIdx st < scanLength)%nat.
Proof.
  unfold Detector.mergePending, Detector.scanLength. intros Hp Hl Hr.
  rewrite Hl, Hr in Hp.
  apply orb_true_iff in Hp as [Hp | H];
    [apply orb_true_iff in Hp as [H | H] |]; apply Nat.ltb_lt in H; lia.
Qed.

Lemma not_pending_inStep (st : Detector.MergeState) :
  pending st = false -> Detector.localIdx st = Detector.baseIdx st ->
  Detector.remoteIdx st = Detector.baseIdx st ->
  (scanLength <= Detector.baseIdx st)%nat.
Proof.
  unfold Detector.mergePending, Detector.scanLength. intros Hp Hl Hr.
  rewrite Hl, Hr in Hp.
  apply orb_false_iff in Hp as [Hp H3]. apply orb_false_iff in Hp as [H1 H2].
  apply Nat.ltb_ge in H1, H2, H3. lia.
Qed.

(** A step that leaves the region list empty is a step in which the three
    pointers advance together. *)
Lemma mergeStep_clean (st : Detector.MergeState) :
  pending st = true ->
  (Detector.regions st = [] -> inStep st) ->
  Detector.regions (step st) = [] -> inStep (step st).
Proof.
  intros Hp Hinv Hclean.
  assert (Hreg : Detector.regions st = []).
  { revert Hclean. unfold Detector.mergeStep.
    repeat match goal with
      | |- context [if ?b then _ else _] => destruct b
      end; simpl; try tauto.
    destruct (Detector.regions st); [reflexivity | discriminate]. }
  destruct (Hinv Hreg) as (Hl & Hr & Hn & Hm & Hprev).
  pose proof (pending_inStep st Hp Hl Hr) as Hlt.
  revert Hclean. unfold Detector.mergeStep. rewrite Hl, Hr, Hreg.
  set (n := Detector.baseIdx st) in *.
  assert (Hcase :
    forall line, line = cleanLine n -> oneSided n ->
      inStep (Detector.mkMergeState (Detector.mergedLines st ++ [line])
                [] (S n) (S n) (S n))).
  { intros line -> Hone. unfold Detector.inStep.
    cbn [Detector.localIdx Detector.remoteIdx Detector.baseIdx
         Detector.mergedLines].
    split; [reflexivity |]. split; [reflexivity |]. split; [lia |].
    split.
    - rewrite seq_S, map_app, Hm. reflexivity.
    - intros i Hi. destruct (decide (i = n)) as [-> | Hne];
        [exact Hone | apply Hprev; lia]. }
  unfold Detector.cleanLine, Detector.oneSided, JS.lineAt in Hcase.
  destruct (String.eqb_spec (JS.stringOr (baseLines !! n) "")
              (JS.stringOr (localLines !! n) "")) as [Hbl | Hbl];
    destruct (String.eqb_spec (JS.stringOr (baseLines !! n) "")
                (JS.stringOr (remoteLines !! n) "")) as [Hbr | Hbr];
    simpl; intros Hclean; try discriminate Hclean;
    apply Hcase; auto.
Qed.

(** Where every index is one-sided no region is ever recorded. *)
Lemma mergeStep_oneSided (st : Detector.MergeState) :
  (forall i, (i < scanLength)%nat -> oneSided i) ->
  pending st = true ->
  Detector.regions st = [] /\ inStep st ->
  Detector.regions (step st) = [] /\ inStep (step st).
Proof.
  intros Hall Hp [Hreg Hin].
  assert (Hclean : Detector.regions (step st) = []).
  { destruct Hin as (Hl & Hr & _).
    pose proof (Hall _ (pending_inStep st Hp Hl Hr)) as Hone.
    unfold Detector.oneSided, JS.lineAt in Hone.
    unfold Detector.mergeStep. rewrite Hl, Hr.
    destruct (String.eqb_spec
                (JS.stringOr (baseLines !! Detector.baseIdx st) "")
                (JS.stringOr (localLines !! Detector.baseIdx st) ""));
      destruct (String.eqb_spec
                  (JS.stringOr (baseLines !! Detector.baseIdx st) "")
                  (JS.stringOr (remoteLines !! Detector.baseIdx st) ""));
      simpl; try exact Hreg. tauto. }
  split; [exact Hclean |].
  apply mergeStep_clean; [exact Hp | intros _; exact Hin | exact Hclean].
Qed.

Lemma inStep_start : inStep Detector.mergeStart.
Proof.
  unfold Detector.inStep. simpl. repeat split; try reflexivity; lia.
Qed.

(** The scan records no region exactly when every line index is one-sided,
    and then it emits the clean line of every index. *)
Lemma _mergeLines_clean_iff :
  snd (Detector._mergeLines baseLines localLines remoteLines) = []
  <-> forall i, (i < scanLength)%nat -> oneSided i.
Proof.
  destruct (_mergeLines_complete baseLines localLines remoteLines)
    as (st & Hloop & Hdone & ->). simpl. split.
  - intros Hreg.
    assert (Hin : Detector.regions st = [] -> inStep st).
    { apply (mergeLoop_invariant baseLines localLines remoteLines
               (fun st => Detector.regions st = [] -> inStep st)
               mergeStep_clean _ _ _ (fun _ => inStep_start) Hloop). }
    destruct (Hin Hreg) as (Hl & Hr & _ & _ & Hprev).
    intros i Hi. apply Hprev.
    pose proof (not_pending_inStep st Hdone Hl Hr). lia.
  - intros Hall.
    assert (Hstart : Detector.regions Detector.mergeStart = []
                     /\ inStep Detector.mergeStart)
      by (split; [reflexivity | apply inStep_start]).
    destruct (mergeLoop_invariant baseLines localLines remoteLines
                (fun st => Detector.regions st = [] /\ inStep st)
                (fun st => mergeStep_oneSided st Hall) _ _ _ Hstart Hloop)
      as [Hreg _].
    exact Hreg.
Qed.

Lemma _mergeLines_clean_lines :
  snd (Detector._mergeLines baseLines localLines remoteLines) = [] ->
  fst (Detector._mergeLines baseLines localLines remoteLines)
  = map cleanLine (seq 0 scanLength).
Proof.
  destruct (_mergeLines_complete baseLines localLines remoteLines)
    as (st & Hloop & Hdone & ->). simpl. intros Hreg.
  assert (Hin : Detector.regions st = [] -> inStep st).
  { apply (mergeLoop_invariant baseLines localLines remoteLines
             (fun st => Detector.regions st = [] -> inStep st)
             mergeStep_clean _ _ _ (fun _ => inStep_start) Hloop). }
  destruct (Hin Hreg) as (Hl & Hr & Hle & Hm & _).
  pose proof (not_pending_inStep st Hdone Hl Hr).
  rewrite Hm. f_equal. f_equal. lia.
Qed.

End CleanScan.

Lemma scanLength_swap (baseLines localLines remoteLines : list string) :
  Detector.scanLength baseLines remoteLines localLines
  = Detector.scanLength baseLines localLines remoteLines.
Proof. unfold Detector.scanLength. lia. Qed.

Lemma oneSided_swap (baseLines localLines remoteLines : list string) (i : nat) :
  Detector.oneSided baseLines remoteLines localLines i
  <-> Detector.oneSided baseLines localLines remoteLines i.
Proof. unfold Detector.oneSided. tauto. Qed.

Lemma cleanLine_swap (baseLines localLines remoteLines : list string) (i : nat) :
  Detector.oneSided baseLines localLines remoteLines i ->
  Detector.cleanLine baseLines remoteLines localLines i
  = Detector.cleanLine baseLines localLines remoteLines i.
Proof.
  unfold Detector.oneSided, Detector.cleanLine.
  destruct (String.eqb_spec (JS.lineAt baseLines i) (JS.lineAt remoteLines i));
    destruct (String.eqb_spec (JS.lineAt baseLines i) (JS.lineAt localLines i));
    intros [H | H]; congruence.
Qed.

(** The three-way merge past its fast paths, as a function of the scan. *)
Lemma threeWayMerge_scan (this : ConflictDetector) (base local remote : string) :
  local <> remote -> base <> local -> base <> remote ->
  Detector.threeWayMerge this base local remote
  = let scan :=
      Detector._mergeLines (JS.split base) (JS.split local) (JS.split remote) in
    if (length (snd scan) =? 0)%nat
    then mkMerge true (JS.join (fst scan)) None
    else mkMerge false (JS.join (fst scan)) (Some (snd scan)).
Proof.
  intros Hlr Hbl Hbr. unfold Detector.threeWayMerge.
  destruct (String.eqb_spec local remote); [contradiction |].
  destruct (String.eqb_spec base local); [contradiction |].
  destruct (String.eqb_spec base remote); [contradiction |].
  reflexivity.
Qed.

Lemma threeWayMerge_scan_success (this : ConflictDetector)
    (base local remote : string) :
  local <> remote -> base <> local -> base <> remote ->
  success (Detector.threeWayMerge this base local remote) = true
  <-> snd (Detector._mergeLines (JS.split base) (JS.split local)
             (JS.split remote)) = [].
Proof.
  intros Hlr Hbl Hbr. rewrite threeWayMerge_scan by assumption. cbv zeta.
  destruct (snd _) as [|reg regs]; simpl; split; intros H;
    first [reflexivity | discriminate H].
Qed.

Lemma threeWayMerge_clean_text (this : ConflictDetector)
    (base local remote : string) :
  local <> remote -> base <> local -> base <> remote ->
  success (Detector.threeWayMerge this base local remote) = true ->
  merged (Detector.threeWayMerge this base local remote)
  = JS.join (map (Detector.cleanLine (JS.split base) (JS.split local)
                    (JS.split remote))
               (seq 0 (Detector.scanLength (JS.split base) (JS.split local)
                         (JS.split remote))))
  /\ conflicts (Detector.threeWayMerge this base local remote) = None.
Proof.
  intros Hlr Hbl Hbr Hs.
  pose proof (proj1 (threeWayMerge_scan_success this base local remote
                       Hlr Hbl Hbr) Hs) as Hreg.
  rewrite threeWayMerge_scan by assumption. cbv zeta.
  rewrite Hreg. simpl.
  rewrite (_mergeLines_clean_lines _ _ _ Hreg). split; reflexivity.
Qed.

Lemma threeWayMerge_success_iff (this : ConflictDetector)
    (base local remote : string) :
  local <> remote -> base <> local -> base <> remote ->
  success (Detector.threeWayMerge this base local remote) = true
  <-> forall i,
        (i < Detector.scanLength (JS.split base) (JS.split local)
               (JS.split remote))%nat ->
        Detector.oneSided (JS.split base) (JS.split local) (JS.split remote) i.
Proof.
  intros Hlr Hbl Hbr.
  rewrite threeWayMerge_scan_success by assumption.
  apply _mergeLines_clean_iff.
Qed.

(** X2. Past the fast paths (the three texts pairwise different where the
    source compares them), [threeWayMerge] succeeds exactly when at every
    line index at most one side differs from the base, a missing line
    counting as empty; the merged text then has, at every index, the remote
    line where the local line is the base line and the local line otherwise,
    and no region list. *)
Theorem threeWayMerge_clean (this : ConflictDetector) (base local remote : string) :
  local <> remote -> base <> local -> base <> remote ->
  let baseLines := JS.split base in
  let localLines := JS.split local in
  let remoteLines := JS.split remote in
  let n := Detector.scanLength baseLines localLines remoteLines in
  let result := Detector.threeWayMerge this base local remote in
  (success result = true
   <-> forall i, (i < n)%nat ->
         Detector.oneSided baseLines localLines remoteLines i)
  /\ (success result = true ->
      merged result
      = JS.join (map (Detector.cleanLine baseLines localLines remoteLines)
                   (seq 0 n))
      /\ conflicts result = None).
Proof.
  intros Hlr Hbl Hbr. cbv zeta. split.
  - apply threeWayMerge_success_iff; assumption.
  - intros Hs.
    destruct (threeWayMerge_clean_text this base local remote Hlr Hbl Hbr Hs)
      as [Hmerged Hnone].
    split; [exact Hmerged | exact Hnone].
Qed.

Lemma threeWayMerge_clean_witness :
  Detector.threeWayMerge (Detector.new None)
    ("L1" +:+ JS.nl +:+ "L2" +:+ JS.nl +:+ "L3")
    ("L1x" +:+ JS.nl +:+ "L2" +:+ JS.nl +:+ "L3")
    ("L1" +:+ JS.nl +:+ "L2" +:+ JS.nl +:+ "L3x")
  = mkMerge true ("L1x" +:+ JS.nl +:+ "L2" +:+ JS.nl +:+ "L3x") None.
Proof.
  destruct (threeWayMerge_clean (Detector.new None)
              ("L1" +:+ JS.nl +:+ "L2" +:+ JS.nl +:+ "L3")
              ("L1x" +:+ JS.nl +:+ "L2" +:+ JS.nl +:+ "L3")
              ("L1" +:+ JS.nl +:+ "L2" +:+ JS.nl +:+ "L3x"))
    as [Hiff Hclean]; try discriminate.
  assert (Hs : success
                 (Detector.threeWayMerge (Detector.new None)
                    ("L1" +:+ JS.nl +:+ "L2" +:+ JS.nl +:+ "L3")
                    ("L1x" +:+ JS.nl +:+ "L2" +:+ JS.nl +:+ "L3")
                    ("L1" +:+ JS.nl +:+ "L2" +:+ JS.nl +:+ "L3x")) = true).
  { apply Hiff. intros i Hi. vm_compute in Hi.
    destruct i as [|[|[|i]]]; [right | left | left | lia]; reflexivity. }
  destruct (Hclean Hs) as [Hm Hc].
  destruct (Detector.threeWayMerge _ _ _ _) as [s m c]. simpl in *.
  subst. reflexivity.
Defined.

(** X3. Swapping the local and the remote text does not change whether
    [threeWayMerge] succeeds, and a successful merge gives the same text
    either way. *)
Theorem threeWayMerge_swap (this : ConflictDetector) (base local remote : string) :
  success (Detector.threeWayMerge this base local remote)
  = success (Detector.threeWayMerge this base remote local)
  /\ (success (Detector.threeWayMerge this base local remote) = true ->
      merged (Detector.threeWayMerge this base local remote)
      = merged (Detector.threeWayMerge this base remote local)).
Proof.
  destruct (decide (local = remote)) as [-> | Hlr];
    [split; reflexivity |].
  destruct (decide (base = local)) as [-> | Hbl].
  { unfold Detector.threeWayMerge.
    destruct (String.eqb_spec local remote); [contradiction |].
    destruct (String.eqb_spec remote local); [congruence |].
    rewrite String.eqb_refl. destruct (local =? remote)%string;
      split; reflexivity. }
  destruct (decide (base = remote)) as [-> | Hbr].
  { unfold Detector.threeWayMerge.
    destruct (String.eqb_spec local remote); [contradiction |].
    destruct (String.eqb_spec remote local); [congruence |].
    rewrite String.eqb_refl.
    destruct (String.eqb_spec remote local); [congruence |].
    split; reflexivity. }
  assert (Hrl : remote <> local) by congruence.
  pose proof (threeWayMerge_success_iff this base local remote Hlr Hbl Hbr)
    as Hiff.
  pose proof (threeWayMerge_success_iff this base remote local Hrl Hbr Hbl)
    as Hiff'.
  pose proof (threeWayMerge_clean_text this base local remote Hlr Hbl Hbr)
    as Hclean.
  pose proof (threeWayMerge_clean_text this base remote local Hrl Hbr Hbl)
    as Hclean'.
  rewrite scanLength_swap in Hiff', Hclean'.
  assert (Hsame :
    success (Detector.threeWayMerge this base local remote) = true
    <-> success (Detector.threeWayMerge this base remote local) = true).
  { rewrite Hiff, Hiff'. split; intros H i Hi; apply oneSided_swap, H, Hi. }
  split.
  - destruct (success (Detector.threeWayMerge this base local remote)),
      (success (Detector.threeWayMerge this base remote local));
      try reflexivity; [symmetry |]; apply Hsame; reflexivity.
  - intros Hs. destruct (Hclean Hs) as [-> _].
    destruct (Hclean' (proj1 Hsame Hs)) as [-> _].
    f_equal. apply map_ext_in. intros i Hi. symmetry.
    apply cleanLine_swap. apply Hiff; [exact Hs |].
    apply in_seq in Hi. lia.
Qed.

(** ** Lines and joined text *)

Lemma singleLine_app (a b : string) :
  JS.singleLine (a +:+ b) = JS.singleLine a && JS.singleLine b.
Proof.
  induction a as [|c a IH]; [reflexivity |].
  rewrite string_app_cons. simpl. rewrite IH, andb_assoc. reflexivity.
Qed.

Lemma split_singleLine (s : string) :
  Forall (fun line => JS.singleLine line = true) (JS.split s).
Proof.
  induction s as [|c rest IH]; simpl; [repeat constructor |].
  destruct (Ascii.eqb c JS.LF) eqn:Hc; [constructor; [reflexivity | exact IH] |].
  destruct (JS.split rest) as [|x xs]; [repeat constructor; simpl; now rewrite Hc |].
  apply Forall_cons in IH as [Hx Hxs]. constructor; [| exact Hxs].
  simpl. rewrite Hc, Hx. reflexivity.
Qed.

Lemma split_single (x : string) : JS.singleLine x = true -> JS.split x = [x].
Proof.
  induction x as [|c x IH]; [reflexivity |]. simpl.
  intros H. apply andb_true_iff in H as [Hc Hx].
  apply negb_true_iff in Hc. rewrite Hc, (IH Hx). reflexivity.
Qed.

Lemma split_line_app (x rest : string) :
  JS.singleLine x = true ->
  JS.split (x +:+ JS.nl +:+ rest) = x :: JS.split rest.
Proof.
  induction x as [|c x IH]; [reflexivity |].
  rewrite string_app_cons. simpl.
  intros H. apply andb_true_iff in H as [Hc Hx].
  apply negb_true_iff in Hc. rewrite Hc, (IH Hx). reflexivity.
Qed.

(** Joining single lines and splitting again gives the lines back. *)
Lemma split_join (lines : list string) :
  lines <> [] ->
  Forall (fun line => JS.singleLine line = true) lines ->
  JS.split (JS.join lines) = lines.
Proof.
  induction lines as [|x rest IH]; [contradiction |]. intros _ Hall.
  apply Forall_cons in Hall as [Hx Hrest].
  destruct rest as [|y rest']; [apply split_single, Hx |].
  change (JS.join (x :: y :: rest'))
    with (x +:+ JS.nl +:+ JS.join (y :: rest')).
  rewrite (split_line_app _ _ Hx), IH; [reflexivity | discriminate | exact Hrest].
Qed.

(** ** Where the regions of a failed merge sit *)

Section Regions.

Variables baseLines localLines remoteLines : list string.

#[local] Abbreviation step :=
  (Detector.mergeStep baseLines localLines remoteLines).

Lemma regionPlaced_app (lines more : list string) (region : ConflictRegion) :
  Detector.regionPlaced lines region ->
  Detector.regionPlaced (lines ++ more) region.
Proof.
  unfold Detector.regionPlaced. intros (H0 & H2 & Hlt & Hs & He).
  rewrite length_app. repeat split; try lia.
  - rewrite lookup_app_l by lia. exact Hs.
  - rewrite lookup_app_l by lia. exact He.
Qed.

Lemma hunk_shape (localRun remoteRun : list string) :
  let hunk :=
    [Detector.LOCAL_MARKER] ++ localRun ++ [Detector.SEPARATOR]
      ++ remoteRun ++ [Detector.REMOTE_MARKER] in
  length hunk = (length localRun + length remoteRun + 3)%nat
  /\ hunk !! 0%nat = Some Detector.LOCAL_MARKER
  /\ hunk !! (length localRun + length remoteRun + 2)%nat
     = Some Detector.REMOTE_MARKER.
Proof.
  cbv zeta. split; [| split; [reflexivity |]].
  - simpl. rewrite length_app. simpl. rewrite length_app. simpl. lia.
  - replace (length localRun + length remoteRun + 2)%nat
      with (S (length localRun + S (length remoteRun))) by lia.
    simpl. rewrite lookup_app_r by lia.
    replace (length localRun + S (length remoteRun) - length localRun)%nat
      with (S (length remoteRun)) by lia.
    simpl. rewrite lookup_app_r by lia.
    replace (length remoteRun - length remoteRun)%nat with 0%nat by lia.
    reflexivity.
Qed.

Lemma mergeStep_regionsPlaced (st : Detector.MergeState) :
  Detector.regionsPlaced st -> Detector.regionsPlaced (step st).
Proof.
  unfold Detector.regionsPlaced, Detector.mergeStep. intros [Hall Hsorted].
  repeat match goal with
    | |- context [if ?b then _ else _] => destruct b
    end;
    cbn [Detector.mergedLines Detector.regions];
    try (split; [| exact Hsorted];
         eapply Forall_impl; [exact Hall |];
         intros r Hr; apply regionPlaced_app, Hr).
  set (localRun := Detector.collectConflictLines _ _).
  set (remoteRun := Detector.collectConflictLines _ _).
  set (merged := Detector.mergedLines st) in *.
  destruct (hunk_shape localRun remoteRun) as (Hlen & Hfirst & Hlast).
  cbv zeta in Hlen, Hfirst, Hlast.
  set (hunk := [Detector.LOCAL_MARKER] ++ localRun ++ [Detector.SEPARATOR]
                 ++ remoteRun ++ [Detector.REMOTE_MARKER]) in *.
  split.
  - apply Forall_app. split.
    + eapply Forall_impl; [exact Hall |].
      intros r Hr. apply (regionPlaced_app _ hunk), Hr.
    + constructor; [| constructor].
      unfold Detector.regionPlaced.
      cbn [startLine endLine]. rewrite length_app, Hlen.
      repeat split; try lia.
      * rewrite Nat2Z.id, lookup_app_r by lia.
        replace (length merged - length merged)%nat with 0%nat by lia.
        exact Hfirst.
      * replace (Z.to_nat _)
          with (length merged + (length localRun + length remoteRun + 2))%nat
          by lia.
        rewrite lookup_app_r by lia.
        replace (_ - _)%nat with (length localRun + length remoteRun + 2)%nat
          by lia.
        exact Hlast.
  - apply StronglySorted_app_2; [| exact Hsorted | repeat constructor].
    intros r1 r2 Hr1 Hr2. apply list_elem_of_singleton in Hr2 as ->.
    rewrite Forall_forall in Hall. destruct (Hall r1 Hr1) as (_ & _ & Hlt & _).
    unfold Detector.regionBefore. cbn [startLine endLine]. lia.
Qed.

Lemma _mergeLines_regionsPlaced :
  Forall (Detector.regionPlaced
            (fst (Detector._mergeLines baseLines localLines remoteLines)))
    (snd (Detector._mergeLines baseLines localLines remoteLines))
  /\ StronglySorted Detector.regionBefore
       (snd (Detector._mergeLines baseLines localLines remoteLines)).
Proof.
  destruct (_mergeLines_complete baseLines localLines remoteLines)
    as (st & Hloop & _ & ->). simpl.
  assert (Hstart : Detector.regionsPlaced Detector.mergeStart)
    by (split; constructor).
  exact (mergeLoop_invariant baseLines localLines remoteLines
           Detector.regionsPlaced (fun st _ => mergeStep_regionsPlaced st)
           _ _ _ Hstart Hloop).
Qed.

Hypothesis base_single : Forall (fun l => JS.singleLine l = true) baseLines.
Hypothesis local_single : Forall (fun l => JS.singleLine l = true) localLines.
Hypothesis remote_single : Forall (fun l => JS.singleLine l = true) remoteLines.

Lemma current_line_single (lines : list string) (idx : nat) :
  Forall (fun l => JS.singleLine l = true) lines ->
  JS.singleLine (JS.stringOr (lines !! idx) "") = true.
Proof.
  intros Hall. destruct (lines !! idx) as [x|] eqn:Hx; [| reflexivity].
  simpl. destruct (String.eqb x ""); [reflexivity |].
  rewrite Forall_forall in Hall. apply Hall. eapply list_elem_of_lookup_2, Hx.
Qed.

Lemma collect_single (rest : list string) (baseLine : string) :
  Forall (fun l => JS.singleLine l = true) rest ->
  Forall (fun l => JS.singleLine l = true)
    (Detector.collectConflictLines rest baseLine).
Proof.
  induction 1 as [|x rest Hx Hrest IH]; simpl; [constructor |].
  destruct (String.eqb x baseLine); constructor; assumption.
Qed.

Lemma mergeStep_single (st : Detector.MergeState) :
  Forall (fun l => JS.singleLine l = true) (Detector.mergedLines st) ->
  Forall (fun l => JS.singleLine l = true) (Detector.mergedLines (step st)).
Proof.
  intros Hm. unfold Detector.mergeStep.
  repeat match goal with
    | |- context [if ?b then _ else _] => destruct b
    end; simpl;
    try (apply Forall_app; split; [exact Hm |];
         constructor; [apply current_line_single; assumption | constructor]).
  apply Forall_app. split; [exact Hm |].
  constructor; [reflexivity |]. apply Forall_app. split.
  - apply collect_single, Forall_drop, local_single.
  - constructor; [reflexivity |]. apply Forall_app. split.
    + apply collect_single, Forall_drop, remote_single.
    + constructor; [reflexivity | constructor].
Qed.

Lemma _mergeLines_single :
  Forall (fun l => JS.singleLine l = true)
    (fst (Detector._mergeLines baseLines localLines remoteLines)).
Proof.
  destruct (_mergeLines_complete baseLines localLines remoteLines)
    as (st & Hloop & _ & ->). simpl.
  assert (Hstart : Forall (fun l => JS.singleLine l = true)
                     (Detector.mergedLines Detector.mergeStart))
    by constructor.
  exact (mergeLoop_invariant baseLines localLines remoteLines
           (fun st => Forall (fun l => JS.singleLine l = true)
                        (Detector.mergedLines st))
           (fun st _ => mergeStep_single st) _ _ _ Hstart Hloop).
Qed.

End Regions.

(** X4. The regions of a failed merge index the lines of the merged text:
    for every region, line [startLine] of the merged text is
    ['<<<<<<< LOCAL'] and line [endLine] is ['>>>>>>> REMOTE'], with
    [0 <= startLine], [startLine + 2 <= endLine] and [endLine] inside the
    text; the regions are listed top to bottom and do not overlap. *)
Theorem threeWayMerge_regions_placed (this : ConflictDetector)
    (base local remote : string) (regions : list ConflictRegion) :
  conflicts (Detector.threeWayMerge this base local remote) = Some regions ->
  let lines :=
    JS.split (merged (Detector.threeWayMerge this base local remote)) in
  regions <> []
  /\ Forall (Detector.regionPlaced lines) regions
  /\ StronglySorted Detector.regionBefore regions.
Proof.
  unfold Detector.threeWayMerge.
  repeat match goal with
    | |- context [if String.eqb ?a ?b then _ else _] =>
        destruct (String.eqb a b); [discriminate |]
    end.
  pose proof (_mergeLines_markers (JS.split base) (JS.split local)
                (JS.split remote)) as Hmarkers.
  pose proof (_mergeLines_regionsPlaced (JS.split base) (JS.split local)
                (JS.split remote)) as [Hplaced Hsorted].
  pose proof (_mergeLines_single (JS.split base) (JS.split local)
                (JS.split remote) (split_singleLine base)
                (split_singleLine local) (split_singleLine remote))
    as Hsingle.
  destruct (Detector._mergeLines _ _ _) as [lines regs]. simpl in *.
  destruct regs as [|reg regs]; simpl; [discriminate |].
  intros [= <-]. destruct (Hmarkers ltac:(discriminate)) as [Hin _].
  rewrite split_join; [| intros ->; destruct Hin | exact Hsingle].
  split; [discriminate |]. split; assumption.
Qed.

Lemma threeWayMerge_regions_placed_witness :
  exists region,
    conflicts (Detector.threeWayMerge (Detector.new None)
                 "Hello" "Hello World" "Hello Universe") = Some [region]
    /\ Detector.regionPlaced
         (JS.split (merged (Detector.threeWayMerge (Detector.new None)
                              "Hello" "Hello World" "Hello Universe")))
         region.
Proof.
  eexists. split; [reflexivity |].
  destruct (threeWayMerge_regions_placed (Detector.new None)
              "Hello" "Hello World" "Hello Universe" _ eq_refl)
    as (_ & Hplaced & _).
  apply Forall_cons in Hplaced as [Hplaced _]. exact Hplaced.
Defined.

(** ** ConflictDetector.canAutoMerge *)

Lemma startsWith_spec (s prefix : string) :
  JS.startsWith s prefix = true <-> exists suffix, s = prefix +:+ suffix.
Proof.
  revert s. induction prefix as [|p prefix IH]; intros s; simpl.
  - split; [intros _; exists s; reflexivity | reflexivity].
  - destruct s as [|c s]; [split; [discriminate | intros [x Hx]; discriminate Hx] |].
    rewrite andb_true_iff, IH. split.
    + intros [Hc [suffix ->]]. apply Ascii.eqb_eq in Hc as ->.
      exists suffix. reflexivity.
    + intros [suffix Hs]. rewrite string_app_cons in Hs.
      injection Hs as -> ->. split; [apply Ascii.eqb_refl | eauto].
Qed.

(** X5. For a conflict with a common ancestor, [canAutoMerge] tells what
    [resolve(conflict, 'auto-merge')] does: when it answers true, [resolve]
    returns the text of the three-way merge; when it answers false,
    [resolve] returns the ['last-write-wins'] choice; and it fails (with a
    TypeError, a side being null) exactly when [resolve] fails so. *)
Theorem canAutoMerge_resolve (this : ConflictResolver) (conflict : ConflictInfo)
    (ancestor : VersionedContent) :
  commonAncestor conflict = Some ancestor ->
  (forall l r,
     localVersion conflict = Some l -> remoteVersion conflict = Some r ->
     let result :=
       Detector.threeWayMerge (detector this)
         (content ancestor) (content l) (content r) in
     Detector.canAutoMerge (detector this) conflict = Ok (success result)
     /\ (success result = true ->
         Resolver.resolve this conflict (Some "auto-merge")
         = Ok (merged result))
     /\ (success result = false ->
         Resolver.resolve this conflict (Some "auto-merge")
         = Detector.autoResolve (detector this) conflict "last-write-wins"))
  /\ (localVersion conflict = None \/ remoteVersion conflict = None ->
      Detector.canAutoMerge (detector this) conflict = Throw TypeError
      /\ Resolver.resolve this conflict (Some "auto-merge") = Throw TypeError).
Proof.
  intros Hanc. unfold Detector.canAutoMerge, Resolver.resolve. simpl.
  rewrite Hanc. split.
  - intros l r Hl Hr. rewrite Hl, Hr. simpl.
    split; [reflexivity |]. split; intros ->; reflexivity.
  - intros [H | H]; rewrite H; destruct (localVersion conflict);
      split; reflexivity.
Qed.

Lemma canAutoMerge_resolve_witness :
  let conflict :=
    mkConflict concurrent_edit
      (Some (mkVersioned "Hello" 1 1000 "device-1" None "h"))
      (Some (mkVersioned "Hello World" 1 2000 "device-2" None "h'"))
      (Some (mkVersioned "Hello" 0 500 "device-1" None "h")) in
  Detector.canAutoMerge (detector Samples.resolver) conflict = Ok true
  /\ Resolver.resolve Samples.resolver conflict (Some "auto-merge")
     = Ok "Hello World".
Proof.
  intros conflict.
  destruct (canAutoMerge_resolve Samples.resolver conflict _ eq_refl)
    as [Hsides _].
  destruct (Hsides _ _ eq_refl eq_refl) as (Hcan & Hmerge & _).
  split; [exact Hcan | apply Hmerge; reflexivity].
Defined.

(** X6. For a conflict without a common ancestor whose two sides are
    present, [canAutoMerge] answers true exactly when one content is the
    other followed by some (possibly empty) text, and false otherwise. *)
Theorem canAutoMerge_without_ancestor (this : ConflictDetector)
    (conflict : ConflictInfo) (l r : VersionedContent) :
  commonAncestor conflict = None ->
  localVersion conflict = Some l ->
  remoteVersion conflict = Some r ->
  (Detector.canAutoMerge this conflict = Ok true
   \/ Detector.canAutoMerge this conflict = Ok false)
  /\ (Detector.canAutoMerge this conflict = Ok true
      <-> exists suffix,
            content l = content r +:+ suffix
            \/ content r = content l +:+ suffix).
Proof.
  intros Hanc Hl Hr. unfold Detector.canAutoMerge. rewrite Hanc, Hl, Hr.
  simpl.
  destruct (JS.startsWith (content l) (content r)) eqn:H1;
    destruct (JS.startsWith (content r) (content l)) eqn:H2; simpl;
    (split; [tauto |]); split; try reflexivity; try discriminate.
  - intros _. apply startsWith_spec in H1 as [suffix Hs]. eauto.
  - intros _. apply startsWith_spec in H1 as [suffix Hs]. eauto.
  - intros _. apply startsWith_spec in H2 as [suffix Hs]. eauto.
  - intros [suffix [Hs | Hs]].
    + assert (JS.startsWith (content l) (content r) = true)
        by (apply startsWith_spec; eauto). congruence.
    + assert (JS.startsWith (content r) (content l) = true)
        by (apply startsWith_spec; eauto). congruence.
Qed.

Lemma canAutoMerge_without_ancestor_witness :
  Detector.canAutoMerge (Detector.new None)
    (mkConflict concurrent_edit
       (Some (mkVersioned "Hello" 1 1000 "device-1" None "h"))
       (Some (mkVersioned "Hello World" 1 2000 "device-2" None "h'")) None)
  = Ok true.
Proof.
  destruct (canAutoMerge_without_ancestor (Detector.new None)
              (mkConflict concurrent_edit
                 (Some (mkVersioned "Hello" 1 1000 "device-1" None "h"))
                 (Some (mkVersioned "Hello World" 1 2000 "device-2" None "h'"))
                 None) _ _ eq_refl eq_refl eq_refl) as [_ Hiff].
  apply Hiff. exists " World". right. reflexivity.
Defined.

(** ** ConflictResolver: the queue *)

Lemma filter_fresh_id (queue : list QueueItem.t) (conflictId : string) :
  ~ In conflictId (map QueueItem.id queue) ->
  filter (fun item => QueueItem.id item <> conflictId) queue = queue.
Proof.
  induction queue as [|x queue IH]; intros Hfresh; [reflexivity |].
  simpl in Hfresh.
  rewrite filter_cons_True by (intros H; apply Hfresh; left; exact H).
  f_equal. apply IH. tauto.
Qed.

(** X7. [removeConflict(id)] on an id that is not queued changes nothing;
    in every case the id is not queued afterwards, every item with another
    id stays, the order of the remaining items is kept, and the strategy,
    detector and busy flag are untouched. *)
Theorem removeConflict_queue (this : ConflictResolver) (conflictId : string) :
  (~ In conflictId (Resolver.queueIds this) ->
   Resolver.removeConflict this conflictId = this)
  /\ ~ In conflictId
         (Resolver.queueIds (Resolver.removeConflict this conflictId))
  /\ (forall item,
        In item (conflictQueue (Resolver.removeConflict this conflictId))
        <-> In item (conflictQueue this) /\ QueueItem.id item <> conflictId)
  /\ conflictQueue (Resolver.removeConflict this conflictId)
       `sublist_of` conflictQueue this
  /\ detector (Resolver.removeConflict this conflictId) = detector this
  /\ defaultStrategy (Resolver.removeConflict this conflictId)
     = defaultStrategy this
  /\ resolving (Resolver.removeConflict this conflictId) = resolving this.
Proof.
  unfold Resolver.removeConflict, Resolver.queueIds. simpl.
  split; [| split; [| split; [| split; [apply sublist_filter | tauto]]]].
  - intros Hfresh. rewrite (filter_fresh_id _ _ Hfresh).
    apply setQueue_self.
  - rewrite <- list_elem_of_In, list_elem_of_fmap.
    intros (x & Hx & Hin). apply list_elem_of_filter in Hin as [Hne _].
    apply Hne. symmetry. exact Hx.
  - intros item. rewrite <- !list_elem_of_In, list_elem_of_filter. tauto.
Qed.

(** X8. [enqueueConflict] adds one item at the tail: the queue grows by
    one, the next conflict of a non-empty queue stays the same, and on an
    empty queue the next conflict is the one just enqueued. *)
Theorem enqueueConflict_fifo (now1 now2 : Z) (suffix : string)
    (this : ConflictResolver) (conflict : ConflictInfo) :
  let this' := Resolver.enqueueConflict now1 now2 suffix this conflict in
  Resolver.getQueueSize this' = S (Resolver.getQueueSize this)
  /\ Resolver.hasConflicts this' = true
  /\ (forall item, Resolver.getNextConflict this = Some item ->
      Resolver.getNextConflict this' = Some item)
  /\ (Resolver.getNextConflict this = None ->
      Resolver.getNextConflict this'
      = Some (QueueItem.mk conflict now1 (Resolver.conflictId now2 suffix)))
  /\ (forall i item, conflictQueue this !! i = Some item ->
      conflictQueue this' !! i = Some item).
Proof.
  cbv zeta. unfold Resolver.getQueueSize, Resolver.hasConflicts,
    Resolver.getNextConflict. rewrite enqueueConflict_appends.
  rewrite length_app. simpl.
  split; [lia |]. split; [apply Nat.ltb_lt; lia |].
  split; [| split].
  - intros item. destruct (conflictQueue this); [discriminate | trivial].
  - destruct (conflictQueue this); [reflexivity | discriminate].
  - intros i item Hi. apply lookup_app_l_Some. exact Hi.
Qed.

(** ** ConflictResolver.resolveAll on every queue *)

Lemma sublist_omap {A B} (f : A -> option B) (l1 l2 : list A) :
  l1 `sublist_of` l2 -> omap f l1 `sublist_of` omap f l2.
Proof.
  induction 1 as [|x l1 l2 _ IH|x l1 l2 _ IH]; simpl.
  - constructor.
  - destruct (f x); [constructor |]; exact IH.
  - destruct (f x); [constructor |]; exact IH.
Qed.

Lemma omap_length_le {A B} (f : A -> option B) (l : list A) :
  (length (omap f l) <= length l)%nat.
Proof.
  induction l as [|x l IH]; [simpl; lia |].
  change (omap f (x :: l))
    with (match f x with Some y => y :: omap f l | None => omap f l end).
  destruct (f x); simpl; lia.
Qed.

Section ResolveAllAny.

Variable this : ConflictResolver.
Variable strategy : string.

Lemma resolveAllLoop_step (fuel : nat) (item : QueueItem.t)
    (rest : list QueueItem.t) (results : list Resolved.t) :
  Resolver.resolveAllLoop (S fuel) (Resolver.setQueue this (item :: rest))
    strategy results
  = match Resolver.resolve this (QueueItem.conflict item) (Some strategy) with
    | Ok resolved =>
        Resolver.resolveAllLoop fuel
          (Resolver.setQueue this
             (filter (fun it => QueueItem.id it <> QueueItem.id item) rest))
          strategy (results ++ [Resolved.mk (QueueItem.id item) resolved])
    | Throw _ =>
        Resolver.resolveAllLoop fuel (Resolver.setQueue this rest)
          strategy results
    end.
Proof.
  change (Resolver.resolveAllLoop (S fuel)
            (Resolver.setQueue this (item :: rest)) strategy results)
    with (match Resolver.resolve this (QueueItem.conflict item)
                  (Some strategy) with
          | Ok resolved =>
              Resolver.resolveAllLoop fuel
                (Resolver.setQueue this
                   (filter (fun it => QueueItem.id it <> QueueItem.id item)
                      (item :: rest)))
                strategy
                (results ++ [Resolved.mk (QueueItem.id item) resolved])
          | Throw _ =>
              Resolver.resolveAllLoop fuel (Resolver.setQueue this rest)
                strategy results
          end).
  rewrite filter_cons_False by (intros H; apply H; reflexivity).
  reflexivity.
Qed.

(** On every queue the loop returns pairs of queued items whose resolution
    succeeds, in queue order. *)
Lemma resolveAllLoop_sublist (fuel : nat) (queue : list QueueItem.t)
    (results : list Resolved.t) :
  (length queue <= fuel)%nat ->
  exists more,
    Resolver.resolveAllLoop fuel (Resolver.setQueue this queue) strategy results
    = Some (Resolver.setQueue this [], results ++ more)
    /\ more `sublist_of` Resolver.resolvedPairs this strategy queue.
Proof.
  revert queue results.
  induction fuel as [|fuel IH]; intros queue results Hfuel.
  - destruct queue; [| simpl in Hfuel; lia].
    exists []. rewrite app_nil_r. split; [reflexivity | constructor].
  - destruct queue as [|item rest].
    { exists []. rewrite app_nil_r. split; [reflexivity | constructor]. }
    simpl in Hfuel. rewrite resolveAllLoop_step.
    unfold Resolver.resolvedPairs. simpl.
    fold (Resolver.resolvedPairs this strategy rest).
    destruct (Resolver.resolve this (QueueItem.conflict item) (Some strategy))
      as [resolved | e].
    + pose proof (length_filter
                    (fun it => QueueItem.id it <> QueueItem.id item) rest).
      destruct (IH (filter (fun it => QueueItem.id it <> QueueItem.id item) rest)
                  (results ++ [Resolved.mk (QueueItem.id item) resolved])
                  ltac:(lia)) as (more & Hloop & Hsub).
      exists (Resolved.mk (QueueItem.id item) resolved :: more).
      split; [rewrite Hloop, <- app_assoc; reflexivity |].
      constructor. etrans; [exact Hsub |].
      apply sublist_omap, sublist_filter.
    + destruct (IH rest results ltac:(lia)) as (more & Hloop & Hsub).
      exists more. split; [exact Hloop | exact Hsub].
Qed.

(** When no queued item can be resolved the loop drops them all. *)
Lemma resolveAllLoop_all_fail (queue : list QueueItem.t)
    (results : list Resolved.t) :
  (forall item, In item queue ->
     exists e, Resolver.resolve this (QueueItem.conflict item) (Some strategy)
               = Throw e) ->
  Resolver.resolveAllLoop (length queue) (Resolver.setQueue this queue)
    strategy results
  = Some (Resolver.setQueue this [], results).
Proof.
  induction queue as [|item rest IH]; intros Hfail; [reflexivity |].
  simpl length. rewrite resolveAllLoop_step.
  destruct (Hfail item (or_introl eq_refl)) as [e ->].
  apply IH. intros x Hx. apply Hfail. right. exact Hx.
Qed.

End ResolveAllAny.

Lemma resolveAll_unfold (this : ConflictResolver) (optStrategy : option string) :
  resolving this = false ->
  Resolver.resolveAll this optStrategy
  = match Resolver.resolveAllLoop (length (conflictQueue this))
            (Resolver.setQueue (Resolver.setResolving this true)
               (conflictQueue this))
            (default "last-write-wins" optStrategy) [] with
    | Some (this2, results) => (Ok results, Resolver.setResolving this2 false)
    | None => (Ok [], this)
    end.
Proof.
  intros Hfree. unfold Resolver.resolveAll. rewrite Hfree.
  change (Resolver.setQueue (Resolver.setResolving this true)
            (conflictQueue this))
    with (Resolver.setQueue (Resolver.setResolving this true)
            (conflictQueue (Resolver.setResolving this true))).
  rewrite setQueue_self.
  change (length (conflictQueue (Resolver.setResolving this true)))
    with (length (conflictQueue this)).
  destruct (Resolver.resolveAllLoop _ _ _ _) as [[this2 results]|];
    [reflexivity |].
  f_equal. destruct this; simpl in *. subst. reflexivity.
Qed.

Lemma resolveAll_any_queue (this : ConflictResolver)
    (optStrategy : option string) :
  resolving this = false ->
  exists results,
    Resolver.resolveAll this optStrategy
    = (Ok results, mkResolver (detector this) (defaultStrategy this) [] false)
    /\ results `sublist_of`
         Resolver.resolvedPairs this (default "last-write-wins" optStrategy)
           (conflictQueue this).
Proof.
  intros Hfree. rewrite (resolveAll_unfold _ _ Hfree).
  destruct (resolveAllLoop_sublist (Resolver.setResolving this true)
              (default "last-write-wins" optStrategy)
              (length (conflictQueue this)) (conflictQueue this) []
              (le_n _)) as (results & -> & Hsub).
  exists results. split; [reflexivity | exact Hsub].
Qed.

Lemma resolvedPairs_length (this : ConflictResolver) (strategy : string)
    (results : list Resolved.t) :
  results `sublist_of`
    Resolver.resolvedPairs this strategy (conflictQueue this) ->
  (length results <= length (conflictQueue this))%nat.
Proof.
  intros Hsub. apply sublist_length in Hsub. etrans; [exact Hsub |].
  unfold Resolver.resolvedPairs. apply omap_length_le.
Qed.

(** X9. For every starting queue, also one that holds several items with
    one id, [resolveAll] returns only pairs of queued items whose resolution
    succeeds, in queue order: the list returned is a sublist of the pairs of
    all resolvable items, so it is never longer than the queue and every id
    in it is the id of a queued item. *)
Theorem resolveAll_sublist (this : ConflictResolver) (optStrategy : option string) :
  resolving this = false ->
  exists results,
    Resolver.resolveAll this optStrategy
    = (Ok results, mkResolver (detector this) (defaultStrategy this) [] false)
    /\ results `sublist_of`
         Resolver.resolvedPairs this (default "last-write-wins" optStrategy)
           (conflictQueue this)
    /\ (length results <= length (conflictQueue this))%nat
    /\ Forall (fun result =>
                 In (Resolved.id result) (Resolver.queueIds this))
         results.
Proof.
  intros Hfree.
  destruct (resolveAll_any_queue this optStrategy Hfree)
    as (results & Hcall & Hsub).
  exists results. split; [exact Hcall |].
  split; [exact Hsub |]. split.
  - exact (resolvedPairs_length _ _ _ Hsub).
  - apply Forall_forall. intros result Hin.
    eapply elem_of_sublist in Hin; [| exact Hsub].
    apply list_elem_of_omap in Hin as (item & Hitem & Hres).
    destruct (Resolver.resolve _ _ _); [| discriminate].
    injection Hres as <-. simpl.
    apply list_elem_of_In, list_elem_of_fmap. eauto.
Qed.

Lemma resolveAll_sublist_witness :
  exists results,
    Resolver.resolveAll Samples.collidingQueue (Some "last-write-wins")
    = (Ok results, Samples.resolver)
    /\ (length results <= 2)%nat.
Proof.
  destruct (resolveAll_sublist Samples.collidingQueue (Some "last-write-wins")
              eq_refl) as (results & Hcall & _ & Hlen & _).
  exists results. split; [exact Hcall | exact Hlen].
Defined.

Lemma resolve_refused (this : ConflictResolver) (conflict : ConflictInfo)
    (strategy : string) :
  strategy = "manual"
  \/ (strategy <> "auto-merge" /\ ~ In strategy Detector.knownStrategies) ->
  exists e, Resolver.resolve this conflict (Some strategy) = Throw e.
Proof.
  intros [-> | [Hauto Hunknown]]; [eexists; reflexivity |].
  unfold Resolver.resolve. simpl.
  destruct (String.eqb strategy "manual"); [eexists; reflexivity |].
  destruct (String.eqb_spec strategy "auto-merge"); [contradiction |].
  rewrite autoResolve_unknown by exact Hunknown. eexists; reflexivity.
Qed.

(** X10. A batch run with the strategy ['manual'], or with a strategy name
    that [resolve] does not know, resolves nothing and still empties the
    queue: every queued conflict is dropped and the result list is empty. *)
Theorem resolveAll_refused_strategy (this : ConflictResolver) (strategy : string) :
  resolving this = false ->
  strategy = "manual"
  \/ (strategy <> "auto-merge" /\ ~ In strategy Detector.knownStrategies) ->
  Resolver.resolveAll this (Some strategy)
  = (Ok [], mkResolver (detector this) (defaultStrategy this) [] false).
Proof.
  intros Hfree Hrefused. rewrite (resolveAll_unfold _ _ Hfree). simpl.
  rewrite resolveAllLoop_all_fail; [reflexivity |].
  intros item _. apply resolve_refused, Hrefused.
Qed.

Lemma resolveAll_refused_strategy_witness :
  Resolver.resolveAll Samples.mixedQueue (Some "manual")
  = (Ok [], Samples.resolver).
Proof.
  apply (resolveAll_refused_strategy Samples.mixedQueue "manual" eq_refl).
  left. reflexivity.
Defined.

(** ** ConflictResolver.getStats and generateSummary *)

Lemma join_head_char (c : ascii) (tail : string) (rest : list string) :
  exists t, JS.join (String c tail :: rest) = String c t.
Proof.
  destruct rest as [|y rest]; [exists tail; reflexivity |].
  exists (tail +:+ JS.nl +:+ JS.join (y :: rest)). reflexivity.
Qed.

Lemma countType_total (queue : list QueueItem.t) :
  (Resolver.countType concurrent_edit queue
   + Resolver.countType offline_divergence queue)%nat = length queue.
Proof.
  unfold Resolver.countType.
  induction queue as [|item queue IH]; [reflexivity |].
  destruct (type (QueueItem.conflict item)) eqn:Hty.
  - rewrite filter_cons_True by exact Hty.
    rewrite filter_cons_False by congruence. simpl. lia.
  - rewrite filter_cons_False by congruence.
    rewrite filter_cons_True by exact Hty. simpl. lia.
Qed.

(** X11. [getStats] counts every queued conflict under exactly one of the
    two types, so the two counts add up to [total], the queue length;
    [oldest] and [newest] are the enqueue timestamps of the first and the
    last queued item and are null on an empty queue; and
    [generateSummary] is ['No conflicts'] exactly when the queue is empty. *)
Theorem getStats_summary (now : Z) (this : ConflictResolver) :
  let stats := Resolver.getStats this in
  Stats.total stats = Resolver.getQueueSize this
  /\ (Stats.byType_concurrent_edit stats
      + Stats.byType_offline_divergence stats)%nat = Stats.total stats
  /\ Stats.oldest stats
     = QueueItem.timestamp <$> Resolver.getNextConflict this
  /\ (conflictQueue this = [] <->
      Stats.oldest stats = None /\ Stats.newest stats = None)
  /\ (forall first rest, conflictQueue this = rest ++ [first] ->
      Stats.newest stats = Some (QueueItem.timestamp first))
  /\ (Resolver.generateSummary now this = "No conflicts"
      <-> conflictQueue this = []).
Proof.
  cbv zeta. unfold Resolver.getStats, Resolver.getQueueSize,
    Resolver.getNextConflict, Resolver.generateSummary. simpl.
  split; [reflexivity |]. split; [apply countType_total |].
  split; [reflexivity |]. split; [| split].
  - destruct (conflictQueue this) as [|x queue]; simpl.
    + tauto.
    + split; [discriminate | intros [H _]; discriminate H].
  - intros first rest ->. rewrite last_snoc. reflexivity.
  - destruct (conflictQueue this) as [|x queue]; [tauto |].
    split; [| discriminate].
    change (length (x :: queue) =? 0)%nat with false. cbv iota.
    change (QueueItem.timestamp <$> head (x :: queue))
      with (Some (QueueItem.timestamp x)). cbv iota.
    destruct (QueueItem.timestamp x =? 0);
      match goal with
      | |- JS.join ((String ?c ?t +:+ ?u) :: ?rest) = _ -> _ =>
          destruct (join_head_char c (t +:+ u) rest) as [t' Ht'];
          rewrite string_app_cons, Ht'; intros H; discriminate H
      end.
Qed.

(** ** ConflictManager: automatic resolution *)

(** A conflict built by [detectConflict] holds the two contents compared
    and no common ancestor. *)
Lemma detectConflict_shape (this : ConflictDetector)
    (local remote : VersionedContent) (conflict : ConflictInfo) :
  Detector.detectConflict this local remote = Some conflict ->
  localVersion conflict = Some local
  /\ remoteVersion conflict = Some remote
  /\ commonAncestor conflict = None
  /\ content local <> content remote
  /\ hash local <> hash remote.
Proof.
  unfold Detector.detectConflict.
  destruct (String.eqb_spec (hash local) (hash remote)); [discriminate |].
  destruct (String.eqb_spec (content local) (content remote)); [discriminate |].
  simpl.
  repeat match goal with
    | |- context [if ?b then _ else _] => destruct b
    end; intros [= <-]; repeat split; assumption.
Qed.

Lemma autoResolve_known (this : ConflictDetector) (conflict : ConflictInfo)
    (l r : VersionedContent) (strategy : string) :
  localVersion conflict = Some l -> remoteVersion conflict = Some r ->
  In strategy Detector.knownStrategies ->
  exists resolved, Detector.autoResolve this conflict strategy = Ok resolved.
Proof.
  intros Hl Hr Hin. unfold Detector.autoResolve. rewrite Hl, Hr.
  simpl in Hin.
  repeat destruct Hin as [<- | Hin]; simpl; try (eexists; reflexivity).
  destruct Hin.
Qed.

Lemma resolve_known (this : ConflictResolver) (conflict : ConflictInfo)
    (l r : VersionedContent) (strategy : string) :
  localVersion conflict = Some l -> remoteVersion conflict = Some r ->
  commonAncestor conflict = None ->
  In strategy Detector.knownStrategies \/ strategy = "auto-merge" ->
  exists resolved,
    Resolver.resolve this conflict (Some strategy) = Ok resolved
    /\ (strategy = "auto-merge" ->
        resolved
        = if timestamp l >? timestamp r then content l else content r).
Proof.
  intros Hl Hr Hanc [Hin | ->].
  - destruct (autoResolve_known (detector this) conflict l r strategy Hl Hr Hin)
      as [resolved Hres].
    exists resolved. split.
    + unfold Resolver.resolve. simpl.
      simpl in Hin.
      repeat destruct Hin as [<- | Hin]; try exact Hres. destruct Hin.
    + intros ->. simpl in Hin.
      repeat destruct Hin as [Hin | Hin]; try discriminate Hin. destruct Hin.
  - eexists. split; [| intros _; reflexivity].
    unfold Resolver.resolve, Detector.autoResolve. simpl.
    rewrite Hanc, Hl, Hr. reflexivity.
Qed.

(** X12. With one of the strategies ['last-write-wins'],
    ['first-write-wins'], ['local-wins'], ['remote-wins'], ['merge-both'] or
    ['auto-merge'] configured, a conflict found by [checkAndHandle] is always
    resolved on the spot: the call returns
    [{hasConflict:true, resolved, conflict}] with a non-null [resolved], the
    queue is left as it was, and the hooks registered are called in the
    order detected, resolved.  Under ['auto-merge'] the resolved content is
    the ['last-write-wins'] choice between the two contents, the conflict a
    detector builds having no common ancestor to merge from. *)
Theorem checkAndHandle_auto_resolved (env : Manager.Readings) (this : Manager.t)
    (localData remoteData : SyncData.t) (conflict : ConflictInfo)
    (strategy : string) :
  let local := Manager.versioned this localData (Manager.nowLocal env) "local" in
  let remote :=
    Manager.versioned this remoteData (Manager.nowRemote env) "remote" in
  Detector.detectConflict (Manager.detector this) local remote = Some conflict ->
  Manager.autoResolveStrategy this = Some strategy ->
  In strategy Detector.knownStrategies \/ strategy = "auto-merge" ->
  exists resolved this',
    Manager.checkAndHandle env this localData remoteData
    = (mkCheck true (Some resolved) (Some conflict), this')
    /\ Resolver.resolve (Manager.resolver this) conflict (Some strategy)
       = Ok resolved
    /\ Manager.resolver this' = Manager.resolver this
    /\ Manager.hookCalls this'
       = Manager.hookCalls this
           ++ (if Manager.onConflictDetected this
               then [ConflictDetected conflict] else [])
           ++ (if Manager.onConflictResolved this
               then [ConflictResolved (Some conflict) resolved] else [])
    /\ (strategy = "auto-merge" ->
        resolved
        = if timestamp local >? timestamp remote
          then SyncData.content localData else SyncData.content remoteData).
Proof.
  cbv zeta. intros Hdet Hcfg Hknown.
  destruct (detectConflict_shape _ _ _ _ Hdet) as (Hl & Hr & Hanc & _).
  destruct (resolve_known (Manager.resolver this) conflict _ _ strategy
              Hl Hr Hanc Hknown) as (resolved & Hres & Hauto).
  assert (Hstrategy : Manager.autoStrategy this = Some strategy).
  { unfold Manager.autoStrategy. rewrite Hcfg.
    destruct Hknown as [Hin | ->]; [| reflexivity].
    simpl in Hin. repeat destruct Hin as [<- | Hin]; try reflexivity.
    destruct Hin. }
  unfold Manager.checkAndHandle. rewrite Hdet.
  set (this1 := Manager.fire (Manager.onConflictDetected this)
                  (ConflictDetected conflict) this).
  destruct (fire_resolver (Manager.onConflictDetected this)
              (ConflictDetected conflict) this) as (Hres1 & Hauto1 & Hcalls1).
  fold this1 in Hres1, Hauto1, Hcalls1.
  rewrite Hauto1, Hstrategy, Hres1, Hres.
  eexists resolved, _. split; [reflexivity |]. split; [reflexivity |].
  destruct (fire_resolver (Manager.onConflictResolved this1)
              (ConflictResolved (Some conflict) resolved) this1)
    as (Hres2 & _ & Hcalls2).
  split; [rewrite Hres2; exact Hres1 |].
  split.
  - rewrite Hcalls2, Hcalls1, <- app_assoc.
    replace (Manager.onConflictResolved this1)
      with (Manager.onConflictResolved this); [reflexivity |].
    unfold this1, Manager.fire.
    destruct (Manager.onConflictDetected this); reflexivity.
  - exact Hauto.
Qed.

Lemma checkAndHandle_auto_resolved_witness :
  exists conflict this',
    Manager.checkAndHandle ManagerSamples.readings
      (Manager.setAutoResolveStrategy ManagerSamples.pending (Some "auto-merge"))
      ManagerSamples.localData ManagerSamples.remoteData
    = (mkCheck true (Some "Hello World B") (Some conflict), this')
    /\ Manager.resolver this' = Samples.mixedQueue.
Proof.
  pose proof (checkAndHandle_auto_resolved ManagerSamples.readings
                (Manager.setAutoResolveStrategy ManagerSamples.pending
                   (Some "auto-merge"))
                ManagerSamples.localData ManagerSamples.remoteData) as Hthm.
  cbv zeta in Hthm.
  destruct (Detector.detectConflict _ _ _) as [conflict|] eqn:Hdet;
    [| vm_compute in Hdet; discriminate Hdet].
  destruct (Hthm conflict "auto-merge" eq_refl eq_refl (or_intror eq_refl))
    as (resolved & this' & Hcall & _ & Hresolver & _ & Hauto).
  exists conflict, this'. rewrite Hcall, (Hauto eq_refl).
  split; [reflexivity | exact Hresolver].
Defined.

(** ** ConflictManager.resolveManually and resolveAllConflicts *)

Lemma find_id_absent (queue : list QueueItem.t) (conflictId : string) :
  ~ In conflictId (map QueueItem.id queue) ->
  List.find (fun item => String.eqb (QueueItem.id item) conflictId) queue = None.
Proof.
  induction queue as [|x queue IH]; intros Hfresh; [reflexivity |].
  simpl in *. destruct (String.eqb_spec (QueueItem.id x) conflictId);
    [tauto | apply IH; tauto].
Qed.

Lemma find_id_first (queue : list QueueItem.t) (conflictId : string)
    (item : QueueItem.t) :
  List.find (fun item => String.eqb (QueueItem.id item) conflictId) queue
  = Some item ->
  exists before after,
    queue = before ++ item :: after
    /\ QueueItem.id item = conflictId
    /\ ~ In conflictId (map QueueItem.id before).
Proof.
  induction queue as [|x queue IH]; [discriminate |]. simpl.
  destruct (String.eqb_spec (QueueItem.id x) conflictId) as [Heq | Hne].
  - intros [= <-]. exists [], queue. repeat split; [exact Heq | tauto].
  - intros Hfind. destruct (IH Hfind) as (before & after & -> & Hid & Hfresh).
    exists (x :: before), after. repeat split; [exact Hid |].
    simpl. tauto.
Qed.

(** X13. The manager's [resolveManually] on an id that is not queued fails
    with a not-found error whatever the content, and changes nothing.  On a
    queued id with a non-empty content it returns that content, calls the
    [onConflictResolved] hook (if registered) with the conflict of the first
    queued item that has the id, and leaves in the queue exactly the items
    with another id, in their order. *)
Theorem Manager_resolveManually_outcomes (this : Manager.t)
    (conflictId : string) :
  (~ In conflictId (Resolver.queueIds (Manager.resolver this)) ->
   forall resolvedContent,
     Manager.resolveManually this conflictId resolvedContent
     = (Throw (ConflictNotFound conflictId), this))
  /\ (forall c before item after,
        c <> "" ->
        conflictQueue (Manager.resolver this) = before ++ item :: after ->
        QueueItem.id item = conflictId ->
        ~ In conflictId (map QueueItem.id before) ->
        exists this',
          Manager.resolveManually this conflictId (Some c) = (Ok c, this')
          /\ conflictQueue (Manager.resolver this')
             = before
                 ++ filter (fun it => QueueItem.id it <> conflictId) after
          /\ Manager.hookCalls this'
             = Manager.hookCalls this
                 ++ (if Manager.onConflictResolved this
                     then [ConflictResolved (Some (QueueItem.conflict item)) c]
                     else [])).
Proof.
  split.
  - intros Hfresh resolvedContent. unfold Manager.resolveManually.
    rewrite (find_id_absent _ _ Hfresh). reflexivity.
  - intros c before item after Hc Hqueue Hid Hfresh.
    assert (Hfind : List.find
                      (fun it => String.eqb (QueueItem.id it) conflictId)
                      (conflictQueue (Manager.resolver this)) = Some item).
    { rewrite Hqueue. clear Hqueue.
      induction before as [|x before IH]; simpl in *.
      - rewrite Hid, String.eqb_refl. reflexivity.
      - destruct (String.eqb_spec (QueueItem.id x) conflictId);
          [tauto | apply IH; tauto]. }
    unfold Manager.resolveManually, Resolver.resolveManually.
    rewrite Hfind. simpl. apply String.eqb_neq in Hc. rewrite Hc.
    eexists. split; [reflexivity |].
    destruct (fire_resolver (Manager.onConflictResolved this)
                (ConflictResolved (Some (QueueItem.conflict item)) c) this)
      as (Hres & _ & Hcalls).
    simpl. rewrite Hres, Hcalls, Hqueue. split; [| reflexivity].
    rewrite filter_app, (filter_fresh_id _ _ Hfresh).
    rewrite filter_cons_False by (intros H; apply H; exact Hid).
    reflexivity.
Qed.

Lemma Manager_resolveManually_outcomes_witness :
  exists this',
    Manager.resolveManually ManagerSamples.pending "conflict_1000_k3x9q1m7z"
      (Some "merged by hand")
    = (Ok "merged by hand", this')
    /\ Resolver.queueIds (Manager.resolver this') = ["conflict_1000_a8f2c4e6b"].
Proof.
  destruct (Manager_resolveManually_outcomes ManagerSamples.pending
              "conflict_1000_k3x9q1m7z") as [_ Hok].
  destruct (Hok "merged by hand"
              [QueueItem.mk Samples.badConflict 1000 "conflict_1000_a8f2c4e6b"]
              (QueueItem.mk (Samples.createConflict 1000 2000) 1000
                 "conflict_1000_k3x9q1m7z")
              [] ltac:(discriminate) eq_refl eq_refl)
    as (this' & Hcall & Hqueue & _).
  { simpl. intros [H | []]. discriminate H. }
  exists this'. split; [exact Hcall |].
  unfold Resolver.queueIds. rewrite Hqueue. reflexivity.
Defined.

Lemma foldl_fire_calls (results : list Resolved.t) (this : Manager.t) :
  let this' :=
    foldl (fun m result =>
             Manager.fire true
               (ConflictResolved None (Resolved.resolved result)) m)
      this results in
  Manager.resolver this' = Manager.resolver this
  /\ Manager.hookCalls this'
     = Manager.hookCalls this
         ++ map (fun result => ConflictResolved None (Resolved.resolved result))
              results.
Proof.
  cbv zeta. revert this.
  induction results as [|result results IH]; intros this.
  - simpl. rewrite app_nil_r. split; reflexivity.
  - cbn [foldl].
    destruct (IH (Manager.fire true
                    (ConflictResolved None (Resolved.resolved result)) this))
      as [-> ->].
    simpl. rewrite <- app_assoc. split; reflexivity.
Qed.

(** X14. [resolveAllConflicts] fails with AlreadyResolving, calling no
    hook, while a batch is running.  Otherwise it returns the number of
    conflicts the batch resolved, which is at most the number that was
    queued; afterwards no conflict is pending; and the [onConflictResolved]
    hook, if registered, has been called once per resolved conflict, in
    order, with [null] for the conflict and the resolved content. *)
Theorem resolveAllConflicts_count (this : Manager.t) (optStrategy : option string) :
  (resolving (Manager.resolver this) = true ->
   exists this',
     Manager.resolveAllConflicts this optStrategy
     = (Throw AlreadyResolving, this')
     /\ Manager.hookCalls this' = Manager.hookCalls this
     /\ Manager.resolver this' = Manager.resolver this)
  /\ (resolving (Manager.resolver this) = false ->
      exists results this',
        Resolver.resolveAll (Manager.resolver this)
          (Some (default "last-write-wins" optStrategy))
        = (Ok results, Manager.resolver this')
        /\ Manager.resolveAllConflicts this optStrategy
           = (Ok (length results), this')
        /\ (length results <= Manager.getConflictCount this)%nat
        /\ Manager.getConflictCount this' = 0%nat
        /\ Manager.hasConflicts this' = false
        /\ Manager.getPendingConflicts this' = []
        /\ Manager.hookCalls this'
           = Manager.hookCalls this
               ++ (if Manager.onConflictResolved this
                   then map (fun result =>
                               ConflictResolved None (Resolved.resolved result))
                          results
                   else [])).
Proof.
  split; intros Hflag; unfold Manager.resolveAllConflicts.
  - unfold Resolver.resolveAll. rewrite Hflag.
    eexists. split; [reflexivity |]. split; reflexivity.
  - destruct (resolveAll_any_queue (Manager.resolver this)
                (Some (default "last-write-wins" optStrategy)) Hflag)
      as (results & Hcall & Hsub).
    pose proof (resolvedPairs_length _ _ _ Hsub) as Hlen.
    rewrite Hcall. cbv zeta.
    set (this1 := Manager.setResolver this
                    (mkResolver (detector (Manager.resolver this))
                       (defaultStrategy (Manager.resolver this)) [] false)).
    replace (Manager.onConflictResolved this1)
      with (Manager.onConflictResolved this) by reflexivity.
    destruct (foldl_fire_calls results this1) as [Hres Hcalls].
    cbv zeta in Hres, Hcalls.
    unfold Manager.getConflictCount, Manager.hasConflicts,
      Manager.getPendingConflicts, Resolver.getQueueSize,
      Resolver.hasConflicts.
    exists results.
    destruct (Manager.onConflictResolved this); eexists;
      (split; [| split; [reflexivity |]]);
      rewrite ?Hres, ?Hcalls, ?app_nil_r;
      try reflexivity; repeat split; try reflexivity; exact Hlen.
Qed.

Lemma resolveAllConflicts_count_witness :
  exists this',
    Manager.resolveAllConflicts ManagerSamples.pending None = (Ok 1%nat, this')
    /\ Manager.hookCalls this' = [ConflictResolved None "Remote content"].
Proof.
  destruct (resolveAllConflicts_count ManagerSamples.pending None)
    as [_ Hbatch].
  destruct (Hbatch eq_refl)
    as (results & this' & Hall & Hcall & _ & _ & _ & _ & Hcalls).
  exists this'. vm_compute in Hall. injection Hall as <- _.
  split; [exact Hcall | exact Hcalls].
Defined.

(** * Further properties of the note store *)

Lemma getNote_opened (database : Storage.Database) (notebookId : option string)
    (noteId : string) :
  Storage.getNote (Storage.mk (Some database) true) notebookId noteId
  = (Ok (match Storage.notes database !! noteId with
         | Some n =>
             if decide (Note.notebookId n = notebookId) then Some n else None
         | None => None
         end),
     Storage.mk (Some database) true).
Proof.
  unfold Storage.getNote, Storage._transaction. simpl.
  destruct (Storage.notes database !! noteId) as [n|]; simpl;
    [destruct (decide _) |]; reflexivity.
Qed.

Lemma saveNote_opened (now : Z) (database : Storage.Database)
    (notebookId noteId : string) (note : Note.t) :
  Note.id note = Some noteId -> noteId <> "" -> notebookId <> "" ->
  Storage.saveNote now (Storage.mk (Some database) true) (Some notebookId) note
  = (Ok tt,
     Storage.mk
       (Some (Storage.mkDatabase
                (<[noteId := Storage.noteData now (Some notebookId) note]>
                   (Storage.notes database))))
       true).
Proof.
  intros Hid Hnote Hnb. apply String.eqb_neq in Hnote, Hnb.
  unfold Storage.saveNote, Storage._transaction.
  rewrite Hid. simpl. rewrite Hnote, Hnb. reflexivity.
Qed.

(** X15. Note ids are keys of one store shared by all notebooks.  After
    [saveNote(notebookId, note)] on an opened store, [getNote] with another
    notebook id answers null for the note's id, also when a note with that id
    was stored under the other notebook before (the save replaces it); the
    notes stored under other ids are read back as before; and [getNote]
    never returns a note whose stored [notebookId] is not the one asked for. *)
Theorem saveNote_getNote_isolation (now : Z) (database : Storage.Database)
    (notebookId noteId : string) (note : Note.t) :
  Note.id note = Some noteId -> noteId <> "" -> notebookId <> "" ->
  let this := Storage.mk (Some database) true in
  exists this',
    Storage.saveNote now this (Some notebookId) note = (Ok tt, this')
    /\ (forall other, other <> Some notebookId ->
        Storage.getNote this' other noteId = (Ok None, this'))
    /\ (forall other otherId, otherId <> noteId ->
        fst (Storage.getNote this' other otherId)
        = fst (Storage.getNote this other otherId))
    /\ (forall other otherId n,
        fst (Storage.getNote this' other otherId) = Ok (Some n) ->
        Note.notebookId n = other).
Proof.
  intros Hid Hnote Hnb. cbv zeta. eexists.
  split; [apply (saveNote_opened now database notebookId noteId note Hid Hnote Hnb) |].
  split; [| split].
  - intros other Hother. rewrite getNote_opened. simpl.
    rewrite lookup_insert_eq. simpl.
    rewrite decide_False by congruence. reflexivity.
  - intros other otherId Hne. rewrite !getNote_opened. simpl.
    rewrite lookup_insert_ne by congruence. reflexivity.
  - intros other otherId n. rewrite getNote_opened. simpl.
    destruct (_ !! otherId) as [m|]; [| discriminate].
    destruct (decide (Note.notebookId m = other)); [| discriminate].
    intros [= <-]. assumption.
Qed.

Lemma saveNote_getNote_isolation_witness :
  exists this',
    Storage.saveNote 1700000001000 StorageSamples.opened (Some "nb-2")
      StorageSamples.note = (Ok tt, this')
    /\ Storage.getNote this' (Some "nb-1") "note-1" = (Ok None, this').
Proof.
  destruct (saveNote_getNote_isolation 1700000001000 (Storage.mkDatabase ∅)
              "nb-2" "note-1" StorageSamples.note eq_refl)
    as (this' & Hsave & Hother & _); [discriminate | discriminate |].
  exists this'. split; [exact Hsave |]. apply Hother. discriminate.
Defined.

(** X16. Saving again the note that was read back bumps the version once
    more and keeps [createdAt]: for a note whose version is absent or an
    integer [v0] with [-2^53 < v0 < 2^53 - 1], a save at a non-zero time
    [now1] and a second save, at [now2], of the note as stored by the first,
    the first stored version is [(v0 or 0) + 1], the second is one more,
    [createdAt] is the one the first save stored, [updatedAt] is [now2], and
    title, content and tags are unchanged. *)
Theorem saveNote_twice (now1 now2 : Z) (database : Storage.Database)
    (notebookId noteId : string) (note : Note.t) :
  Note.id note = Some noteId -> noteId <> "" -> notebookId <> "" ->
  now1 <> 0 ->
  - 2 ^ 53 < JS.numberOr (Note.version note) 0 < 2 ^ 53 - 1 ->
  exists this1 this2 stored1 stored2 v,
    Storage.saveNote now1 (Storage.mk (Some database) true) (Some notebookId)
      note = (Ok tt, this1)
    /\ Storage.getNote this1 (Some notebookId) noteId = (Ok (Some stored1), this1)
    /\ Storage.saveNote now2 this1 (Some notebookId) stored1 = (Ok tt, this2)
    /\ Storage.getNote this2 (Some notebookId) noteId = (Ok (Some stored2), this2)
    /\ v = JS.numberOr (Note.version note) 0 + 1
    /\ Note.version stored1 = Some v
    /\ Note.version stored2 = Some (v + 1)
    /\ Note.createdAt stored2 = Note.createdAt stored1
    /\ Note.updatedAt stored2 = Some now2
    /\ Note.tags stored2 = Note.tags stored1
    /\ Note.title stored2 = Note.title note
    /\ Note.content stored2 = Note.content note.
Proof.
  intros Hid Hnote Hnb Hnow Hsafe.
  set (stored1 := Storage.noteData now1 (Some notebookId) note).
  set (stored2 := Storage.noteData now2 (Some notebookId) stored1).
  set (v0 := JS.numberOr (Note.version note) 0) in *.
  assert (Hv1 : Note.version stored1 = Some (v0 + 1)).
  { unfold stored1, Storage.noteData. cbn [Note.version]. fold v0.
    rewrite add_one_safe by lia. reflexivity. }
  assert (Hv2 : Note.version stored2 = Some (v0 + 1 + 1)).
  { unfold stored2, Storage.noteData. cbn [Note.version].
    fold (Storage.noteData now1 (Some notebookId) note). fold stored1.
    rewrite Hv1. cbn [JS.numberOr].
    destruct (Z.eqb_spec (v0 + 1) 0) as [H0 | H0].
    - rewrite H0. reflexivity.
    - rewrite add_one_safe by lia. reflexivity. }
  eexists _, _, stored1, stored2, (v0 + 1).
  split; [apply (saveNote_opened now1 database notebookId noteId note Hid Hnote Hnb) |].
  split.
  { rewrite getNote_opened. simpl. rewrite lookup_insert_eq. simpl.
    rewrite decide_True by reflexivity. reflexivity. }
  split; [apply (saveNote_opened now2 _ notebookId noteId stored1 Hid Hnote Hnb) |].
  split.
  { rewrite getNote_opened. simpl. rewrite lookup_insert_eq. simpl.
    rewrite decide_True by reflexivity. reflexivity. }
  split; [reflexivity |]. split; [exact Hv1 |]. split; [exact Hv2 |].
  split; [| repeat split; reflexivity].
  unfold stored2, stored1, Storage.noteData. cbn [Note.createdAt].
  assert (Hc : JS.numberOr (Note.createdAt note) now1 <> 0).
  { unfold JS.numberOr. destruct (Note.createdAt note) as [c|]; [| exact Hnow].
    destruct (Z.eqb_spec c 0); assumption. }
  cbn [JS.numberOr]. apply Z.eqb_neq in Hc. rewrite Hc. reflexivity.
Qed.

Lemma saveNote_twice_witness :
  exists this2 stored2,
    Storage.getNote this2 (Some "nb-1") "note-1" = (Ok (Some stored2), this2)
    /\ Note.version stored2 = Some 4
    /\ Note.createdAt stored2 = Some 1700000000000
    /\ Note.updatedAt stored2 = Some 1700000002000.
Proof.
  destruct (saveNote_twice 1700000001000 1700000002000 (Storage.mkDatabase ∅)
              "nb-1" "note-1" StorageSamples.note eq_refl)
    as (this1 & this2 & stored1 & stored2 & v & Hs1 & Hg1 & Hs2 & Hg2
        & Hv & Hv1 & Hv2 & Hc & Hu & _);
    [discriminate | discriminate | discriminate | vm_compute; split; reflexivity |].
  exists this2, stored2. split; [exact Hg2 |].
  vm_compute in Hs1. injection Hs1 as <-.
  vm_compute in Hg1. injection Hg1 as <-.
  vm_compute in Hv. subst v.
  rewrite Hv2, Hc, Hu. repeat split; reflexivity.
Defined.

(** * Properties of the other object stores *)

(** ** Records in key order, and the stable sort *)

#[global] Instance keyLe_total {A} : Total (@IDB.keyLe A).
Proof. intros a b. unfold IDB.keyLe. apply (total String.le). Qed.

#[global] Instance keyLe_trans {A} : Transitive (@IDB.keyLe A).
Proof. intros a b c. unfold IDB.keyLe. apply (transitivity (R := String.le)). Qed.

Lemma elem_of_entries {A} (store : gmap string A) (k : string) (v : A) :
  (k, v) ∈ IDB.entries store <-> store !! k = Some v.
Proof.
  unfold IDB.entries. rewrite merge_sort_Permutation.
  apply elem_of_map_to_list.
Qed.

Lemma entries_sorted {A} (store : gmap string A) :
  StronglySorted IDB.keyLe (IDB.entries store).
Proof. apply StronglySorted_merge_sort; apply _. Qed.

Lemma entries_length {A} (store : gmap string A) :
  length (IDB.entries store) = size store.
Proof.
  unfold IDB.entries. rewrite merge_sort_Permutation.
  apply length_map_to_list.
Qed.

Lemma elem_of_records {A} (store : gmap string A) (v : A) :
  v ∈ IDB.records store <-> exists k, store !! k = Some v.
Proof.
  unfold IDB.records. rewrite list_elem_of_fmap. split.
  - intros ([k v'] & -> & Hin). exists k. apply elem_of_entries, Hin.
  - intros [k Hk]. exists (k, v). split; [reflexivity |].
    apply elem_of_entries, Hk.
Qed.

Lemma insertBy_Permutation {A} (cmp : A -> A -> Z) (x : A) (l : list A) :
  JS.insertBy cmp x l ≡ₚ x :: l.
Proof.
  induction l as [|y l IH]; simpl; [reflexivity |].
  destruct (cmp x y <=? 0); [reflexivity |].
  rewrite IH. apply Permutation_swap.
Qed.

Lemma sortBy_Permutation {A} (cmp : A -> A -> Z) (l : list A) :
  JS.sortBy cmp l ≡ₚ l.
Proof.
  induction l as [|x l IH]; simpl; [reflexivity |].
  rewrite insertBy_Permutation, IH. reflexivity.
Qed.

(** Sorting by the difference of a numeric key orders by that key. *)
Lemma insertBy_sorted {A} (key : A -> Z) (x : A) (l : list A) :
  StronglySorted (fun a b => key a <= key b) l ->
  StronglySorted (fun a b => key a <= key b)
    (JS.insertBy (fun a b => key a - key b) x l).
Proof.
  induction 1 as [|y l Hl IH Hy]; simpl; [repeat constructor |].
  destruct (Z.leb_spec (key x - key y) 0).
  - constructor; [constructor; assumption |].
    constructor; [lia |].
    eapply Forall_impl; [exact Hy |]. simpl. intros z Hz. lia.
  - constructor; [exact IH |].
    rewrite insertBy_Permutation. constructor; [lia | exact Hy].
Qed.

Lemma sortBy_sorted {A} (key : A -> Z) (l : list A) :
  StronglySorted (fun a b => key a <= key b)
    (JS.sortBy (fun a b => key a - key b) l).
Proof.
  induction l as [|x l IH]; simpl; [constructor |].
  apply insertBy_sorted, IH.
Qed.

Lemma insertBy_ext {A} (cmp cmp' : A -> A -> Z) (x : A) (l : list A) :
  (forall b, b ∈ l -> cmp x b = cmp' x b) ->
  JS.insertBy cmp x l = JS.insertBy cmp' x l.
Proof.
  induction l as [|y l IH]; intros Hext; [reflexivity |]. simpl.
  rewrite (Hext y) by left.
  destruct (cmp' x y <=? 0); [reflexivity |].
  f_equal. apply IH. intros b Hb. apply Hext. right. exact Hb.
Qed.

Lemma sortBy_ext {A} (cmp cmp' : A -> A -> Z) (l : list A) :
  (forall a b, a ∈ l -> b ∈ l -> cmp a b = cmp' a b) ->
  JS.sortBy cmp l = JS.sortBy cmp' l.
Proof.
  induction l as [|x l IH]; intros Hext; [reflexivity |]. simpl.
  rewrite IH by (intros a b Ha Hb; apply Hext; right; assumption).
  apply insertBy_ext. intros b Hb. apply Hext; [left |].
  right. rewrite sortBy_Permutation in Hb. exact Hb.
Qed.

(** ** Transactions on an opened database *)

Lemma opened_inv (this : IDB.t) (d : IDB.Database) :
  IDB.opened this = Some d ->
  IDB.isInitialized this = true /\ IDB.db this = Some d.
Proof.
  unfold IDB.opened. destruct (IDB.isInitialized this); [tauto | discriminate].
Qed.

Lemma opened_setDb (this : IDB.t) (d d' : IDB.Database) :
  IDB.opened this = Some d -> IDB.opened (IDB.setDb this d') = Some d'.
Proof.
  intros H. apply opened_inv in H as [Hinit _].
  unfold IDB.opened, IDB.setDb. simpl. rewrite Hinit. reflexivity.
Qed.

Lemma setDb_same (this : IDB.t) (d : IDB.Database) :
  IDB.opened this = Some d -> IDB.setDb this d = this.
Proof.
  intros H. apply opened_inv in H as [Hinit Hdb].
  destruct this; simpl in *. subst. reflexivity.
Qed.

Lemma setDb_setDb (this : IDB.t) (d d' : IDB.Database) :
  IDB.setDb (IDB.setDb this d) d' = IDB.setDb this d'.
Proof. reflexivity. Qed.

Lemma transaction_opened {A} (this : IDB.t) (d : IDB.Database)
    (operation : IDB.Database -> A * IDB.Database) :
  IDB.opened this = Some d ->
  IDB._transaction this operation
  = (Done (operation d).1, IDB.setDb this (operation d).2).
Proof.
  intros H. unfold IDB._transaction. rewrite H.
  destruct (operation d); reflexivity.
Qed.

Lemma transaction_closed {A} (this : IDB.t)
    (operation : IDB.Database -> A * IDB.Database) :
  IDB.opened this = None ->
  IDB._transaction this operation = (Failed IDB.notInitialized, this).
Proof. intros H. unfold IDB._transaction. rewrite H. reflexivity. Qed.

Lemma getNotebook_opened (this : IDB.t) (d : IDB.Database) (id : string) :
  IDB.opened this = Some d ->
  IDB.getNotebook this id = (Done (IDB.notebooks d !! id), this).
Proof.
  intros H. unfold IDB.getNotebook.
  rewrite (transaction_opened _ _ _ H). simpl.
  rewrite (setDb_same _ _ H). reflexivity.
Qed.

(** ** IndexedDBStorage.saveNotebook *)

(** X17. [saveNotebook] rejects a notebook without an id or without a
    name, storing nothing.  On an opened store, a notebook with both is
    stored under its id and read back by [getNotebook] with its id, name,
    mnemonic, encryption key and room id as passed, with [updatedAt] set
    to the time of the save and with its own [createdAt] when it has a
    non-zero one, the time of the save otherwise; the other notebooks and
    the other three stores are left as they were. *)
Theorem saveNotebook_roundtrip (now : Z) (this : IDB.t) (d : IDB.Database)
    (notebook : Notebook.t) :
  IDB.opened this = Some d ->
  (JS.falsy (Notebook.id notebook) = true
   \/ JS.falsy (Notebook.name notebook) = true ->
   IDB.saveNotebook now this notebook = (Failed InvalidNotebookData, this))
  /\ (forall id,
        Notebook.id notebook = Some id -> id <> "" ->
        JS.falsy (Notebook.name notebook) = false ->
        exists d' stored,
          IDB.saveNotebook now this notebook = (Done tt, IDB.setDb this d')
          /\ IDB.getNotebook (IDB.setDb this d') id
             = (Done (Some stored), IDB.setDb this d')
          /\ stored
             = Notebook.mk (Some id) (Notebook.name notebook)
                 (Notebook.mnemonic notebook) (Notebook.encryptionKey notebook)
                 (Notebook.roomId notebook)
                 (Some (JS.numberOr (Notebook.createdAt notebook) now))
                 (Some now)
          /\ Notebook.name stored = Notebook.name notebook
          /\ Notebook.updatedAt stored = Some now
          /\ (forall c, Notebook.createdAt notebook = Some c -> c <> 0 ->
              Notebook.createdAt stored = Some c)
          /\ (Notebook.createdAt notebook = None
              \/ Notebook.createdAt notebook = Some 0 ->
              Notebook.createdAt stored = Some now)
          /\ (forall other, other <> id ->
              IDB.notebooks d' !! other = IDB.notebooks d !! other)
          /\ IDB.notes d' = IDB.notes d
          /\ IDB.history d' = IDB.history d
          /\ IDB.pendingOps d' = IDB.pendingOps d).
Proof.
  intros Hopen. split.
  - intros H. unfold IDB.saveNotebook.
    destruct H as [-> | ->]; [| rewrite orb_true_r]; reflexivity.
  - intros id Hid Hne Hname. unfold IDB.saveNotebook.
    rewrite Hname, Hid. simpl. apply String.eqb_neq in Hne as ->. simpl.
    rewrite (transaction_opened _ _ _ Hopen). simpl.
    eexists _, (IDB.notebookData now notebook). split; [reflexivity |].
    split.
    { rewrite (getNotebook_opened _ _ id (opened_setDb _ _ _ Hopen)). simpl.
      rewrite lookup_insert_eq. reflexivity. }
    split; [unfold IDB.notebookData; rewrite Hid; reflexivity |].
    simpl. split; [reflexivity |]. split; [reflexivity |].
    split; [| split; [| split; [| repeat split]]].
    + intros c -> Hc. simpl. apply Z.eqb_neq in Hc as ->. reflexivity.
    + intros [-> | ->]; reflexivity.
    + intros other Hother. apply lookup_insert_ne. congruence.
Qed.

Lemma saveNotebook_roundtrip_witness :
  exists this' stored,
    IDB.saveNotebook 1700000000000 IDBSamples.empty IDBSamples.notebook
    = (Done tt, this')
    /\ IDB.getNotebook this' "nb-1" = (Done (Some stored), this')
    /\ Notebook.createdAt stored = Some 1690000000000
    /\ Notebook.updatedAt stored = Some 1700000000000.
Proof.
  destruct (saveNotebook_roundtrip 1700000000000 IDBSamples.empty _
              IDBSamples.notebook eq_refl) as [_ Hsave].
  destruct (Hsave "nb-1" eq_refl ltac:(discriminate) eq_refl)
    as (d' & stored & Hs & Hg & _ & _ & Hu & Hc & _).
  exists (IDB.setDb IDBSamples.empty d'), stored.
  split; [exact Hs |]. split; [exact Hg |].
  split; [apply Hc; [reflexivity | discriminate] | exact Hu].
Defined.

(** ** IndexedDBStorage.deleteNotebook, listNotes and deleteNote *)

Lemma notesOf_lookup (d : IDB.Database) (id k : string) (n : Note.t) :
  IDB.notesOf d id !! k = Some n
  <-> IDB.notes d !! k = Some n /\ Note.notebookId n = Some id.
Proof. unfold IDB.notesOf. apply map_lookup_filter_Some. Qed.

Lemma notesOf_None (d : IDB.Database) (id k : string) :
  IDB.notesOf d id !! k = None
  <-> forall n, IDB.notes d !! k = Some n -> Note.notebookId n <> Some id.
Proof.
  unfold IDB.notesOf. rewrite map_lookup_filter_None. simpl. split.
  - intros [H | H] n Hn; [congruence | apply H, Hn].
  - intros H. right. exact H.
Qed.

Lemma historyOf_false (d : IDB.Database) (id : string) (h : HistoryEntry.t) :
  IDB.historyOf (IDB.notesOf d id) h = false
  <-> ~ exists noteId n,
          HistoryEntry.noteId h = Some noteId
          /\ IDB.notes d !! noteId = Some n
          /\ Note.notebookId n = Some id.
Proof.
  unfold IDB.historyOf. destruct (HistoryEntry.noteId h) as [noteId|].
  - rewrite bool_decide_eq_false. split.
    + intros Hnone (noteId' & n & [= <-] & Hn & Hnb). apply Hnone.
      exists n. apply notesOf_lookup. tauto.
    + intros Hnot [n Hn]. apply notesOf_lookup in Hn as [Hn Hnb].
      apply Hnot. eauto.
  - split; [intros _ (x & n & H & _); discriminate H | reflexivity].
Qed.

(** X18. [deleteNotebook(id)] on an opened store always succeeds, whether
    or not a notebook with the id exists.  Afterwards no notebook has the
    id; the notes kept are exactly those stored under another notebook id;
    the history entries kept are exactly those that do not belong to a
    deleted note; the pending operations kept are exactly those of another
    notebook; the other notebooks are untouched; and [listNotes(id)] is
    empty. *)
Theorem deleteNotebook_cascade (this : IDB.t) (d : IDB.Database) (id : string) :
  IDB.opened this = Some d ->
  exists d',
    IDB.deleteNotebook this id = (Done tt, IDB.setDb this d')
    /\ IDB.notebooks d' !! id = None
    /\ (forall other, other <> id ->
        IDB.notebooks d' !! other = IDB.notebooks d !! other)
    /\ (forall k n,
        IDB.notes d' !! k = Some n
        <-> IDB.notes d !! k = Some n /\ Note.notebookId n <> Some id)
    /\ (forall k h,
        IDB.history d' !! k = Some h
        <-> IDB.history d !! k = Some h
            /\ ~ exists noteId n,
                   HistoryEntry.noteId h = Some noteId
                   /\ IDB.notes d !! noteId = Some n
                   /\ Note.notebookId n = Some id)
    /\ (forall k op,
        IDB.pendingOps d' !! k = Some op
        <-> IDB.pendingOps d !! k = Some op
            /\ PendingOperation.notebookId op <> Some id)
    /\ IDB.listNotes (IDB.setDb this d') id = (Done [], IDB.setDb this d').
Proof.
  intros Hopen. unfold IDB.deleteNotebook. rewrite Hopen.
  eexists. split; [reflexivity |]. simpl.
  split; [apply lookup_delete_eq |].
  split; [intros other Hother; apply lookup_delete_ne; congruence |].
  assert (Hnotes : forall k n,
    filter (fun kv : string * Note.t => IDB.notesOf d id !! kv.1 = None)
      (IDB.notes d) !! k = Some n
    <-> IDB.notes d !! k = Some n /\ Note.notebookId n <> Some id).
  { intros k n. rewrite map_lookup_filter_Some. simpl.
    rewrite notesOf_None. split.
    - intros [Hn Hall]. split; [exact Hn | apply Hall, Hn].
    - intros [Hn Hnb]. split; [exact Hn |]. intros n' Hn'. congruence. }
  split; [exact Hnotes |]. split; [| split].
  - intros k h. rewrite map_lookup_filter_Some. simpl.
    rewrite historyOf_false. reflexivity.
  - intros k op. rewrite map_lookup_filter_Some. reflexivity.
  - unfold IDB.listNotes. rewrite (opened_setDb _ _ _ Hopen).
    replace (IDB.notesOf _ id) with (∅ : gmap string Note.t);
      [reflexivity |].
    symmetry. apply map_empty. intros k.
    apply notesOf_None. simpl. intros n Hn. apply Hnotes in Hn. tauto.
Qed.

Lemma deleteNotebook_cascade_witness :
  exists this1 this2,
    IDB.saveNote 1700000001000 IDBSamples.empty (Some "nb-1")
      StorageSamples.note = (Done tt, this1)
    /\ IDB.deleteNotebook this1 "nb-1" = (Done tt, this2)
    /\ IDB.getNote this2 (Some "nb-1") "note-1" = (Done None, this2).
Proof.
  set (this1 := (IDB.saveNote 1700000001000 IDBSamples.empty (Some "nb-1")
                   StorageSamples.note).2).
  destruct (deleteNotebook_cascade this1 _ "nb-1" eq_refl)
    as (d' & Hdel & _ & _ & Hnotes & _).
  exists this1, (IDB.setDb this1 d').
  split; [reflexivity |]. split; [exact Hdel |].
  unfold IDB.getNote, Storage.getNote, Storage._transaction. simpl.
  destruct (IDB.notes d' !! "note-1") as [n|] eqn:Hn;
    [| destruct d'; reflexivity].
  apply Hnotes in Hn as [Hn Hnb]. vm_compute in Hn.
  injection Hn as <-. exfalso. apply Hnb. reflexivity.
Defined.

Lemma notesView_opened (this : IDB.t) (d : IDB.Database) :
  IDB.opened this = Some d ->
  IDB.notesView this = Storage.mk (Some (Storage.mkDatabase (IDB.notes d))) true.
Proof.
  intros H. apply opened_inv in H as [Hinit Hdb].
  unfold IDB.notesView. rewrite Hinit, Hdb. reflexivity.
Qed.

Lemma IDB_getNote_opened (this : IDB.t) (d : IDB.Database)
    (notebookId : option string) (noteId : string) :
  IDB.opened this = Some d ->
  IDB.getNote this notebookId noteId
  = (Done (match IDB.notes d !! noteId with
           | Some n =>
               if decide (Note.notebookId n = notebookId) then Some n else None
           | None => None
           end),
     this).
Proof.
  intros H. unfold IDB.getNote.
  rewrite (notesView_opened _ _ H), getNote_opened. simpl.
  f_equal. apply opened_inv in H as [Hinit Hdb].
  unfold IDB.withNotes. rewrite Hdb. simpl.
  destruct this, d; simpl in *. subst. reflexivity.
Qed.

(** X19. [deleteNote(notebookId, noteId)] on an opened store fails with a
    not-found error, changing nothing, when no note has the id or when the
    note with the id is stored under another notebook.  Otherwise it removes
    the note and exactly the history entries whose [noteId] is the note's,
    and leaves the notebooks, the other notes and the pending operations as
    they were. *)
Theorem deleteNote_outcomes (this : IDB.t) (d : IDB.Database)
    (notebookId : option string) (noteId : string) :
  IDB.opened this = Some d ->
  (IDB.notes d !! noteId = None
   \/ (exists n, IDB.notes d !! noteId = Some n
                 /\ Note.notebookId n <> notebookId) ->
   IDB.deleteNote this notebookId noteId
   = (Failed (NoteNotFound noteId notebookId), this))
  /\ (forall n,
        IDB.notes d !! noteId = Some n -> Note.notebookId n = notebookId ->
        exists d',
          IDB.deleteNote this notebookId noteId = (Done tt, IDB.setDb this d')
          /\ IDB.notes d' = delete noteId (IDB.notes d)
          /\ (forall k h,
              IDB.history d' !! k = Some h
              <-> IDB.history d !! k = Some h
                  /\ HistoryEntry.noteId h <> Some noteId)
          /\ IDB.notebooks d' = IDB.notebooks d
          /\ IDB.pendingOps d' = IDB.pendingOps d
          /\ IDB.getNote (IDB.setDb this d') notebookId noteId
             = (Done None, IDB.setDb this d')).
Proof.
  intros Hopen. unfold IDB.deleteNote.
  rewrite Hopen, (IDB_getNote_opened _ _ _ _ Hopen). split.
  - intros [-> | (n & -> & Hnb)]; [reflexivity |].
    rewrite decide_False by exact Hnb. reflexivity.
  - intros n -> Hnb. rewrite decide_True by exact Hnb.
    eexists. split; [reflexivity |]. simpl.
    split; [reflexivity |]. split; [| split; [reflexivity | split; [reflexivity |]]].
    + intros k h. apply map_lookup_filter_Some.
    + rewrite (IDB_getNote_opened _ _ _ _ (opened_setDb _ _ _ Hopen)). simpl.
      rewrite lookup_delete_eq. reflexivity.
Qed.

Lemma deleteNote_outcomes_witness :
  exists this1,
    IDB.saveNote 1700000001000 IDBSamples.empty (Some "nb-1")
      StorageSamples.note = (Done tt, this1)
    /\ IDB.deleteNote this1 (Some "nb-2") "note-1"
       = (Failed (NoteNotFound "note-1" (Some "nb-2")), this1).
Proof.
  set (this1 := (IDB.saveNote 1700000001000 IDBSamples.empty (Some "nb-1")
                   StorageSamples.note).2).
  exists this1. split; [reflexivity |].
  destruct (deleteNote_outcomes this1 _ (Some "nb-2") "note-1" eq_refl)
    as [Hmissing _].
  apply Hmissing. right. eexists. split; [vm_compute; reflexivity |].
  discriminate.
Defined.

(** ** IndexedDBStorage.listNotes *)

Lemma StronglySorted_weaken {A} (R R' : A -> A -> Prop) (l : list A) :
  (forall a b, R a b -> R' a b) -> StronglySorted R l -> StronglySorted R' l.
Proof.
  intros Himpl. induction 1 as [|x l Hl IH Hx]; constructor; [exact IH |].
  eapply Forall_impl; [exact Hx | apply Himpl].
Qed.

(** X20. [listNotes(notebookId)] on an opened store returns, each once,
    exactly the notes stored under that notebook id; when every stored note
    has an [updatedAt], they come newest update first. *)
Theorem listNotes_sorted (this : IDB.t) (d : IDB.Database) (notebookId : string) :
  IDB.opened this = Some d ->
  exists result,
    IDB.listNotes this notebookId = (Done result, this)
    /\ result ≡ₚ (map_to_list (IDB.notesOf d notebookId)).*2
    /\ (forall n, n ∈ result
        <-> exists k, IDB.notes d !! k = Some n
                      /\ Note.notebookId n = Some notebookId)
    /\ ((forall k n, IDB.notes d !! k = Some n -> is_Some (Note.updatedAt n)) ->
        StronglySorted
          (fun a b => default 0 (Note.updatedAt b) <= default 0 (Note.updatedAt a))
          result).
Proof.
  intros Hopen. unfold IDB.listNotes. rewrite Hopen.
  eexists. split; [reflexivity |].
  assert (Hperm : IDB.records (IDB.notesOf d notebookId)
                  ≡ₚ (map_to_list (IDB.notesOf d notebookId)).*2).
  { unfold IDB.records, IDB.entries. rewrite merge_sort_Permutation.
    reflexivity. }
  split; [rewrite sortBy_Permutation; exact Hperm |]. split.
  - intros n. rewrite sortBy_Permutation, elem_of_records.
    split; intros [k Hk]; exists k; apply notesOf_lookup, Hk.
  - intros Hall.
    rewrite (sortBy_ext _
               (fun a b => (- default 0 (Note.updatedAt a))
                           - (- default 0 (Note.updatedAt b)))).
    + eapply StronglySorted_weaken;
        [| apply (sortBy_sorted (fun a => - default 0 (Note.updatedAt a)))].
      simpl. intros a b Hab. lia.
    + intros a b Ha Hb.
      apply elem_of_records in Ha as [ka Ha], Hb as [kb Hb].
      apply notesOf_lookup in Ha as [Ha _], Hb as [Hb _].
      destruct (Hall _ _ Ha) as [ua ->], (Hall _ _ Hb) as [ub ->].
      simpl. lia.
Qed.

Lemma listNotes_sorted_witness :
  exists this1,
    IDB.saveNote 1700000001000 IDBSamples.empty (Some "nb-1")
      StorageSamples.note = (Done tt, this1)
    /\ exists n, IDB.listNotes this1 "nb-1" = (Done [n], this1)
                 /\ Note.version n = Some 3.
Proof.
  set (this1 := (IDB.saveNote 1700000001000 IDBSamples.empty (Some "nb-1")
                   StorageSamples.note).2).
  exists this1. split; [reflexivity |].
  destruct (listNotes_sorted this1 _ "nb-1" eq_refl)
    as (result & Hlist & Hperm & _).
  vm_compute in Hperm. apply Permutation_sym, Permutation_singleton_l in Hperm.
  subst result. eexists. split; [exact Hlist | reflexivity].
Defined.

(** ** The history cursor *)

#[global] Instance newerFirst_total : Total IDB.newerFirst.
Proof.
  intros a b. unfold IDB.newerFirst.
  destruct (Z.lt_trichotomy (IDB.timestampOf a.2) (IDB.timestampOf b.2))
    as [H | [H | H]]; [right; left; exact H | | left; left; exact H].
  destruct (total String.le a.1 b.1); [right | left]; right; split;
    first [assumption | symmetry; assumption].
Qed.

#[global] Instance newerFirst_trans : Transitive IDB.newerFirst.
Proof.
  intros a b c. unfold IDB.newerFirst.
  intros [H1 | [H1 L1]] [H2 | [H2 L2]]; try (left; lia).
  right. split; [lia |]. etrans; eassumption.
Qed.

Section Cursor.

Variables (now : Z) (noteId : string).

Lemma elem_of_historyCursor (d : IDB.Database) (kv : string * HistoryEntry.t) :
  kv ∈ IDB.historyCursor now noteId d
  <-> IDB.history d !! kv.1 = Some kv.2 /\ IDB.inRange now noteId kv.
Proof.
  unfold IDB.historyCursor.
  rewrite merge_sort_Permutation, list_elem_of_filter.
  destruct kv as [k v]. rewrite elem_of_map_to_list. simpl. tauto.
Qed.

Lemma historyCursor_sorted (d : IDB.Database) :
  StronglySorted IDB.newerFirst (IDB.historyCursor now noteId d).
Proof. apply StronglySorted_merge_sort; apply _. Qed.

Lemma historyCursor_NoDup_keys (d : IDB.Database) :
  NoDup (IDB.historyCursor now noteId d).*1.
Proof.
  unfold IDB.historyCursor. rewrite merge_sort_Permutation.
  apply (sublist_NoDup _ (map_to_list (IDB.history d)).*1).
  - apply (NoDup_fst_map_to_list (IDB.history d)).
  - apply fmap_sublist, sublist_filter.
Qed.

Lemma historyCursor_NoDup (d : IDB.Database) :
  NoDup (IDB.historyCursor now noteId d).
Proof. eapply NoDup_fmap_1, historyCursor_NoDup_keys. Qed.

Lemma deleteEntries_lookup (victims : list (string * HistoryEntry.t))
    (store : gmap string HistoryEntry.t) (k : string) :
  IDB.deleteEntries victims store !! k
  = if decide (k ∈ victims.*1) then None else store !! k.
Proof.
  unfold IDB.deleteEntries.
  induction victims as [|[k' v'] victims IH].
  - destruct (decide (k ∈ ([] : list (string * HistoryEntry.t)).*1)) as [H |];
      [apply elem_of_nil in H; destruct H | reflexivity].
  - change (foldr (fun kv m => delete kv.1 m) store ((k', v') :: victims))
      with (delete k' (foldr (fun kv m => delete kv.1 m) store victims)).
    change (((k', v') :: victims).*1) with (k' :: victims.*1).
    destruct (decide (k = k')) as [-> | Hne].
    + rewrite lookup_delete_eq.
      destruct (decide (k' ∈ k' :: victims.*1)) as [_ | H];
        [reflexivity | exfalso; apply H; left].
    + rewrite lookup_delete_ne by congruence. rewrite IH.
      destruct (decide (k ∈ victims.*1)) as [Hin | Hnin];
        destruct (decide (k ∈ k' :: victims.*1)) as [Hin' | Hnin'];
        try reflexivity.
      * exfalso. apply Hnin'. right. exact Hin.
      * exfalso. apply elem_of_cons in Hin' as [? | ?]; tauto.
Qed.

(** After the entries the cursor visits past some point are deleted, the
    cursor visits the entries before that point, in the same order. *)
Lemma historyCursor_after_delete (d : IDB.Database)
    (kept victims : list (string * HistoryEntry.t)) :
  IDB.historyCursor now noteId d = kept ++ victims ->
  IDB.historyCursor now noteId
    (IDB.setHistory d (IDB.deleteEntries victims (IDB.history d)))
  = kept.
Proof.
  intros Hsplit.
  pose proof (historyCursor_NoDup_keys d) as Hkeys.
  pose proof (historyCursor_sorted d) as Hsorted.
  rewrite Hsplit in Hkeys, Hsorted. rewrite fmap_app in Hkeys.
  apply NoDup_app in Hkeys as (Hk1 & Hdisj & Hk2).
  assert (Hold : forall kv, kv ∈ kept ++ victims ->
                   IDB.history d !! kv.1 = Some kv.2
                   /\ IDB.inRange now noteId kv).
  { intros kv Hin. rewrite <- Hsplit in Hin.
    apply elem_of_historyCursor, Hin. }
  assert (Hmem : forall kv,
    kv ∈ IDB.historyCursor now noteId
           (IDB.setHistory d (IDB.deleteEntries victims (IDB.history d)))
    <-> kv ∈ kept).
  { intros kv. rewrite elem_of_historyCursor. simpl.
    rewrite deleteEntries_lookup. split.
    - destruct (decide (kv.1 ∈ victims.*1)); [intros [H _]; discriminate H |].
      intros [Hlook Hrange].
      assert (Hin : kv ∈ kept ++ victims).
      { rewrite <- Hsplit. apply elem_of_historyCursor. tauto. }
      apply elem_of_app in Hin as [Hin | Hin]; [exact Hin |].
      exfalso. apply n. apply list_elem_of_fmap. eauto.
    - intros Hin. rewrite decide_False.
      + apply Hold, elem_of_app. left. exact Hin.
      + apply Hdisj, list_elem_of_fmap. eauto. }
  apply (StronglySorted_unique_strong IDB.newerFirst).
  - intros [k1 v1] [k2 v2] H1 H2 H12 H21.
    apply Hmem in H1.
    destruct (Hold (k1, v1)) as [Hl1 _]; [apply elem_of_app; tauto |].
    destruct (Hold (k2, v2)) as [Hl2 _]; [apply elem_of_app; tauto |].
    unfold IDB.newerFirst in H12, H21. simpl in *.
    assert (k1 = k2) as ->.
    { destruct H12 as [? | [? L12]], H21 as [? | [? L21]]; try lia.
      apply (anti_symm String.le); assumption. }
    congruence.
  - apply historyCursor_sorted.
  - eapply StronglySorted_app_1_l, Hsorted.
  - apply NoDup_Permutation; [apply historyCursor_NoDup | | exact Hmem].
    eapply NoDup_fmap_1, Hk1.
Qed.

End Cursor.

(** ** IndexedDBStorage.getHistory, cleanupHistory and saveHistory *)

Lemma newerFirst_timestamp (a b : string * HistoryEntry.t) :
  IDB.newerFirst a b -> IDB.timestampOf b.2 <= IDB.timestampOf a.2.
Proof. unfold IDB.newerFirst. intros [H | [H _]]; lia. Qed.

(** X21. [getHistory(noteId, limit)] on an opened store, read at a time
    [now >= 0], returns at most [limit] entries (50 when no limit is given),
    all of them stored entries of that note with a timestamp between 0 and
    [now], ordered newest first; the entries of the note in that range that
    it leaves out are none of them newer than one it returns. *)
Theorem getHistory_newest_first (now : Z) (this : IDB.t) (d : IDB.Database)
    (noteId : string) (optLimit : option Z) :
  IDB.opened this = Some d -> 0 <= now ->
  exists result older,
    IDB.getHistory now this noteId optLimit = (Done result, this)
    /\ (length result <= Z.to_nat (default 50%Z optLimit))%nat
    /\ result ++ older = (IDB.historyCursor now noteId d).*2
    /\ (older <> [] -> length result = Z.to_nat (default 50 optLimit))
    /\ (forall h, h ∈ result ++ older
        <-> exists k ts, IDB.history d !! k = Some h
                         /\ HistoryEntry.noteId h = Some noteId
                         /\ HistoryEntry.timestamp h = Some ts
                         /\ 0 <= ts <= now)
    /\ StronglySorted
         (fun a b => IDB.timestampOf b <= IDB.timestampOf a) (result ++ older).
Proof.
  intros Hopen Hnow. unfold IDB.getHistory. rewrite Hopen.
  destruct (Z.ltb_spec now 0); [lia |].
  set (limit := Z.to_nat (default 50 optLimit)).
  set (cursor := IDB.historyCursor now noteId d).
  exists (take limit cursor.*2), (drop limit cursor.*2).
  split; [reflexivity |]. split; [rewrite length_take; lia |].
  split; [apply take_drop |]. split.
  - intros Hne. rewrite length_take. 
    destruct (decide (limit <= length cursor.*2)%nat); [lia |].
    rewrite drop_ge in Hne by lia. contradiction.
  - rewrite take_drop. split.
    + intros h. rewrite list_elem_of_fmap. split.
      * intros ([k v] & -> & Hin).
        apply elem_of_historyCursor in Hin as [Hlook (Hid & ts & Hts & Hr)].
        exists k, ts. simpl in *. tauto.
      * intros (k & ts & Hlook & Hid & Hts & Hr). exists (k, h).
        split; [reflexivity |]. apply elem_of_historyCursor. simpl.
        split; [exact Hlook |]. split; [exact Hid | eauto].
    + pose proof (historyCursor_sorted now noteId d) as Hsorted.
      fold cursor in Hsorted.
      induction Hsorted as [|x l Hl IH Hx]; simpl; constructor; [exact IH |].
      apply Forall_fmap. eapply Forall_impl; [exact Hx |].
      intros y Hy. apply newerFirst_timestamp in Hy. exact Hy.
Qed.

Lemma cleanupHistory_opened (now : Z) (this : IDB.t) (d : IDB.Database)
    (noteId : string) (keepCount : Z) :
  IDB.opened this = Some d -> 0 <= now ->
  IDB.cleanupHistory now this noteId keepCount
  = (Done (length (drop (Z.to_nat keepCount) (IDB.historyCursor now noteId d))),
     IDB.setDb this
       (IDB.setHistory d
          (IDB.deleteEntries
             (drop (Z.to_nat keepCount) (IDB.historyCursor now noteId d))
             (IDB.history d)))).
Proof.
  intros Hopen Hnow. unfold IDB.cleanupHistory. rewrite Hopen.
  destruct (Z.ltb_spec now 0); [lia | reflexivity].
Qed.

Lemma deleteEntries_outside (now : Z) (noteId : string) (d : IDB.Database)
    (n : nat) (k : string) (h : HistoryEntry.t) :
  IDB.history d !! k = Some h -> ~ IDB.inRange now noteId (k, h) ->
  IDB.deleteEntries (drop n (IDB.historyCursor now noteId d)) (IDB.history d)
    !! k = Some h.
Proof.
  intros Hlook Hout. rewrite deleteEntries_lookup.
  destruct (decide (k ∈ (drop n (IDB.historyCursor now noteId d)).*1))
    as [Hin |]; [| exact Hlook].
  exfalso. apply list_elem_of_fmap in Hin as ([k' v] & -> & Hin).
  apply (elem_of_sublist _ (IDB.historyCursor now noteId d)) in Hin;
    [| apply sublist_drop].
  apply elem_of_historyCursor in Hin as [Hlook' Hr].
  simpl in *. assert (v = h) as -> by congruence. exact (Hout Hr).
Qed.

Lemma historyCursor_after_cleanup (now : Z) (noteId : string)
    (d : IDB.Database) (n : nat) :
  IDB.historyCursor now noteId
    (IDB.setHistory d
       (IDB.deleteEntries (drop n (IDB.historyCursor now noteId d))
          (IDB.history d)))
  = take n (IDB.historyCursor now noteId d).
Proof. apply historyCursor_after_delete. symmetry. apply take_drop. Qed.

(** X22. [cleanupHistory(noteId, keepCount)] on an opened store, read at a
    time [now >= 0], deletes the entries of the note (with a timestamp
    between 0 and [now]) that come after the [keepCount] newest and returns
    their number: afterwards the history of the note is the [keepCount]
    newest entries it had, in the same order, every other history entry is
    still stored, and the other three stores are untouched. *)
Theorem cleanupHistory_keeps_newest (now : Z) (this : IDB.t) (d : IDB.Database)
    (noteId : string) (keepCount : Z) :
  IDB.opened this = Some d -> 0 <= now ->
  exists d',
    IDB.cleanupHistory now this noteId keepCount
    = (Done (length (IDB.historyCursor now noteId d) - Z.to_nat keepCount)%nat,
       IDB.setDb this d')
    /\ IDB.historyCursor now noteId d'
       = take (Z.to_nat keepCount) (IDB.historyCursor now noteId d)
    /\ (length (IDB.historyCursor now noteId d') <= Z.to_nat keepCount)%nat
    /\ (forall k h, IDB.history d' !! k = Some h -> IDB.history d !! k = Some h)
    /\ (forall k h, IDB.history d !! k = Some h ->
        ~ IDB.inRange now noteId (k, h) -> IDB.history d' !! k = Some h)
    /\ IDB.notebooks d' = IDB.notebooks d
    /\ IDB.notes d' = IDB.notes d
    /\ IDB.pendingOps d' = IDB.pendingOps d.
Proof.
  intros Hopen Hnow. rewrite (cleanupHistory_opened _ _ _ _ _ Hopen Hnow).
  set (cursor := IDB.historyCursor now noteId d).
  set (victims := drop (Z.to_nat keepCount) cursor).
  exists (IDB.setHistory d (IDB.deleteEntries victims (IDB.history d))).
  split; [unfold victims; rewrite length_drop; reflexivity |].
  pose proof (historyCursor_after_cleanup now noteId d (Z.to_nat keepCount))
    as Hafter.
  fold cursor in Hafter. fold victims in Hafter.
  split; [exact Hafter |]. split; [rewrite Hafter, length_take; lia |].
  simpl. split; [| split; [| repeat split]].
  - intros k h. rewrite deleteEntries_lookup.
    destruct (decide _); [discriminate | trivial].
  - intros k h Hlook Hout. apply deleteEntries_outside; assumption.
Qed.

Lemma cleanupHistory_keeps_newest_witness :
  let this :=
    (IDB.saveHistory 10 100
       (IDB.saveHistory 10 100 IDBSamples.empty (Some "n1")
          (IDBSamples.entry "h1" 10)).2
       (Some "n1") (IDBSamples.entry "h2" 30)).2 in
  exists this',
    IDB.cleanupHistory 100 this "n1" 1 = (Done 1%nat, this')
    /\ (IDB.getHistory 100 this' "n1" None).1
       = Done [IDB.historyData 10 (Some "n1") (IDBSamples.entry "h2" 30)].
Proof.
  intros this.
  destruct (cleanupHistory_keeps_newest 100 this _ "n1" 1 eq_refl)
    as (d' & Hcall & Hcursor & _); [lia |].
  exists (IDB.setDb this d'). split; [exact Hcall |].
  unfold IDB.getHistory. simpl. rewrite Hcursor. reflexivity.
Defined.

Lemma getHistory_newest_first_witness :
  let this :=
    (IDB.saveHistory 10 100
       (IDB.saveHistory 10 100 IDBSamples.empty (Some "n1")
          (IDBSamples.entry "h1" 10)).2
       (Some "n1") (IDBSamples.entry "h2" 30)).2 in
  exists newest,
    IDB.getHistory 100 this "n1" (Some 1) = (Done [newest], this)
    /\ HistoryEntry.id newest = Some "h2".
Proof.
  intros this.
  destruct (getHistory_newest_first 100 this _ "n1" (Some 1) eq_refl)
    as (result & older & Hcall & _ & Hsplit & _); [lia |].
  vm_compute in Hsplit.
  destruct result as [|newest [|second result]];
    [ rewrite Hcall in *; vm_compute in Hcall; discriminate Hcall
    | | rewrite Hcall in *; vm_compute in Hcall; discriminate Hcall ].
  injection Hsplit as -> _.
  eexists. split; [exact Hcall | reflexivity].
Defined.

Lemma cleanup_lookup (now : Z) (noteId : string) (d : IDB.Database)
    (n : nat) (k : string) (h : HistoryEntry.t) :
  IDB.deleteEntries (drop n (IDB.historyCursor now noteId d)) (IDB.history d)
    !! k = Some h
  <-> IDB.history d !! k = Some h
      /\ (~ IDB.inRange now noteId (k, h)
          \/ (k, h) ∈ take n (IDB.historyCursor now noteId d)).
Proof.
  set (cursor := IDB.historyCursor now noteId d).
  pose proof (historyCursor_NoDup_keys now noteId d) as Hkeys.
  fold cursor in Hkeys. rewrite <- (take_drop n cursor) in Hkeys.
  rewrite fmap_app in Hkeys. apply NoDup_app in Hkeys as (_ & Hdisj & _).
  rewrite deleteEntries_lookup.
  destruct (decide (k ∈ (drop n cursor).*1)) as [Hin | Hout]; split.
  - discriminate.
  - intros [Hlook [Hrange | Htake]]; exfalso.
    + apply list_elem_of_fmap in Hin as ([k' v] & -> & Hin).
      apply (elem_of_sublist _ cursor) in Hin; [| apply sublist_drop].
      apply elem_of_historyCursor in Hin as [Hlook' Hr]. simpl in *.
      assert (v = h) as -> by congruence. exact (Hrange Hr).
    + apply (Hdisj k); [| exact Hin].
      apply list_elem_of_fmap. exists (k, h). split; [reflexivity | exact Htake].
  - intros Hlook. split; [exact Hlook |].
    destruct (decide (IDB.inRange now noteId (k, h))) as [Hr | Hr];
      [right | left; exact Hr].
    assert (Hc : (k, h) ∈ cursor)
      by (apply elem_of_historyCursor; split; [exact Hlook | exact Hr]).
    rewrite <- (take_drop n cursor) in Hc.
    apply elem_of_app in Hc as [Hc | Hc]; [exact Hc |].
    exfalso. apply Hout. apply list_elem_of_fmap.
    exists (k, h). split; [reflexivity | exact Hc].
  - intros [Hlook _]. exact Hlook.
Qed.

(** X23. [saveHistory] rejects an entry without an id, or a missing note
    id, storing nothing.  Otherwise, on an opened store with the cleanup
    reading the clock at [nowCleanup >= 0], it puts the entry under its id,
    with the note id given, its content, delta, version, device name and
    tags as passed and, when the entry has no non-zero timestamp, the time of
    the save; whatever was stored under that id, also an entry of another
    note, is replaced.  It then prunes at once, and only among the entries of
    the note whose timestamp lies between 0 and [nowCleanup]: of those the
    [maxHistoryPerNote] newest remain.  The store afterwards holds exactly
    the entries of the store with the new entry put that are outside that
    range of the note or among those newest; an entry of the note with a
    later (or negative) timestamp is not counted and never pruned.  The other
    three stores are untouched. *)
Theorem saveHistory_prunes (nowSave nowCleanup : Z) (this : IDB.t)
    (d : IDB.Database) (noteId : option string) (entry : HistoryEntry.t) :
  IDB.opened this = Some d ->
  (JS.falsy (HistoryEntry.id entry) = true \/ JS.falsy noteId = true ->
   IDB.saveHistory nowSave nowCleanup this noteId entry
   = (Failed InvalidHistoryEntry, this))
  /\ (forall id note,
        HistoryEntry.id entry = Some id -> id <> "" ->
        noteId = Some note -> note <> "" -> 0 <= nowCleanup ->
        let stored :=
          HistoryEntry.mk (Some id) (Some note) (HistoryEntry.content entry)
            (HistoryEntry.delta entry) (HistoryEntry.version entry)
            (Some (JS.numberOr (HistoryEntry.timestamp entry) nowSave))
            (HistoryEntry.deviceName entry) (HistoryEntry.tags entry) in
        let added := IDB.setHistory d (<[id := stored]> (IDB.history d)) in
        let cap := Z.to_nat (IDB.maxHistoryPerNote this) in
        exists d',
          IDB.saveHistory nowSave nowCleanup this noteId entry
          = (Done tt, IDB.setDb this d')
          /\ (forall k h,
                IDB.history d' !! k = Some h
                <-> IDB.history added !! k = Some h
                    /\ (~ IDB.inRange nowCleanup note (k, h)
                        \/ (k, h) ∈ take cap
                                       (IDB.historyCursor nowCleanup note added)))
          /\ IDB.historyCursor nowCleanup note d'
             = take cap (IDB.historyCursor nowCleanup note added)
          /\ (length (IDB.historyCursor nowCleanup note d') <= cap)%nat
          /\ (forall k h, IDB.history d !! k = Some h -> k <> id ->
              HistoryEntry.noteId h <> Some note ->
              IDB.history d' !! k = Some h)
          /\ (forall h, IDB.history d' !! id = Some h -> h = stored)
          /\ IDB.notes d' = IDB.notes d
          /\ IDB.notebooks d' = IDB.notebooks d
          /\ IDB.pendingOps d' = IDB.pendingOps d).
Proof.
  intros Hopen. split.
  - intros H. unfold IDB.saveHistory.
    destruct H as [-> | ->]; [| rewrite orb_true_r]; reflexivity.
  - intros id note Hid Hne -> Hnote Hnow. cbv zeta.
    unfold IDB.saveHistory. rewrite Hid. simpl.
    apply String.eqb_neq in Hne as ->. apply String.eqb_neq in Hnote as ->.
    simpl. rewrite (transaction_opened _ _ _ Hopen). simpl.
    replace (IDB.historyData nowSave (Some note) entry)
      with (HistoryEntry.mk (Some id) (Some note) (HistoryEntry.content entry)
              (HistoryEntry.delta entry) (HistoryEntry.version entry)
              (Some (JS.numberOr (HistoryEntry.timestamp entry) nowSave))
              (HistoryEntry.deviceName entry) (HistoryEntry.tags entry))
      by (unfold IDB.historyData; rewrite Hid; reflexivity).
    set (stored := HistoryEntry.mk _ _ _ _ _ _ _ _).
    set (added := IDB.setHistory d (<[id := stored]> (IDB.history d))).
    change (IDB.maxHistoryPerNote (IDB.setDb this added))
      with (IDB.maxHistoryPerNote this).
    rewrite (cleanupHistory_opened nowCleanup (IDB.setDb this added) added
               note (IDB.maxHistoryPerNote this)
               (opened_setDb _ _ _ Hopen) Hnow).
    rewrite setDb_setDb.
    eexists. split; [reflexivity |].
    pose proof (historyCursor_after_cleanup nowCleanup note added
                  (Z.to_nat (IDB.maxHistoryPerNote this))) as Hcursor.
    split; [intros k h; apply cleanup_lookup |].
    split; [exact Hcursor |].
    split; [rewrite Hcursor, length_take; lia |].
    split; [| split; [| repeat split]].
    + intros k h Hlook Hk Hhn. cbn [IDB.history IDB.setHistory].
      apply (deleteEntries_outside nowCleanup note added).
      * simpl. rewrite lookup_insert_ne by congruence. exact Hlook.
      * intros [Hin _]. simpl in Hin. contradiction.
    + intros h Hh. cbn [IDB.history IDB.setHistory] in Hh.
      apply cleanup_lookup in Hh as [Hh _]. simpl in Hh.
      rewrite lookup_insert_eq in Hh. congruence.
Qed.

Lemma saveHistory_prunes_witness :
  let this2 :=
    (IDB.saveHistory 10 100
       (IDB.saveHistory 10 100 IDBSamples.empty (Some "n1")
          (IDBSamples.entry "h1" 10)).2
       (Some "n1") (IDBSamples.entry "h2" 30)).2 in
  exists this3 kept,
    IDB.saveHistory 10 100 this2 (Some "n1") (IDBSamples.entry "h3" 20)
    = (Done tt, this3)
    /\ (IDB.getHistory 100 this3 "n1" None).1 = Done kept
    /\ map HistoryEntry.id kept = [Some "h2"; Some "h3"].
Proof.
  intros this2.
  destruct (saveHistory_prunes 10 100 this2 _ (Some "n1")
              (IDBSamples.entry "h3" 20) eq_refl) as [_ Hsave].
  destruct (Hsave "h3" "n1" eq_refl ltac:(discriminate) eq_refl
              ltac:(discriminate) ltac:(lia))
    as (d' & Hcall & _ & Hcursor & _).
  exists (IDB.setDb this2 d'). eexists. split; [exact Hcall |].
  unfold IDB.getHistory. simpl. rewrite Hcursor.
  split; reflexivity.
Defined.

(** With [maxHistoryPerNote] 2, a third entry whose timestamp is later than
    the clock reading of the cleanup is outside the cursor's range: nothing
    is pruned and the note holds three entries. *)
Example saveHistory_later_entry_not_counted :
  let this2 :=
    (IDB.saveHistory 10 100
       (IDB.saveHistory 10 100 IDBSamples.empty (Some "n1")
          (IDBSamples.entry "h1" 10)).2
       (Some "n1") (IDBSamples.entry "h2" 30)).2 in
  let this3 :=
    (IDB.saveHistory 10 100 this2 (Some "n1") (IDBSamples.entry "h3" 500)).2 in
  IDB.maxHistoryPerNote this3 = 2
  /\ HistoryEntry.id <$> (default [] (IDB.records <$> (IDB.history <$> IDB.opened this3)))
     = [Some "h1"; Some "h2"; Some "h3"]
  /\ HistoryEntry.noteId <$> (default [] (IDB.records <$> (IDB.history <$> IDB.opened this3)))
     = [Some "n1"; Some "n1"; Some "n1"].
Proof. vm_compute. repeat split; reflexivity. Qed.

(** An entry saved under an id that another note's entry uses replaces that
    entry. *)
Example saveHistory_replaces_by_id :
  let this1 :=
    (IDB.saveHistory 10 100 IDBSamples.empty (Some "n1")
       (IDBSamples.entry "h1" 10)).2 in
  let this2 :=
    (IDB.saveHistory 10 100 this1 (Some "n2") (IDBSamples.entry "h1" 20)).2 in
  (IDB.getHistory 100 this1 "n1" None).1 <> Done []
  /\ (IDB.getHistory 100 this2 "n1" None).1 = Done [].
Proof. vm_compute. split; [discriminate | reflexivity]. Qed.

(** ** The offline queue *)

Lemma dequeueOperations_opened (this : IDB.t) (d : IDB.Database) :
  IDB.opened this = Some d ->
  IDB.dequeueOperations this
  = (Done (JS.sortBy
             (fun a b =>
                JS.compareNumbers (PendingOperation.timestamp a)
                  (PendingOperation.timestamp b))
             (IDB.records (IDB.pendingOps d))),
     this).
Proof.
  intros H. unfold IDB.dequeueOperations.
  rewrite (transaction_opened _ _ _ H). simpl.
  rewrite (setDb_same _ _ H). reflexivity.
Qed.

(** X24. [enqueueOperation] rejects an operation without an id.  On an
    opened store an operation with an id is stored under it with its type,
    notebook id, note id and data as passed, keeping its non-zero timestamp
    and retry count and taking the time of the call and 0 for missing ones,
    and [dequeueOperations] then returns it.  [dequeueOperations] returns
    every stored operation
    once and does not remove any: the store is unchanged; when every stored
    operation has a timestamp, as those stored by [enqueueOperation] have,
    the operations come oldest first. *)
Theorem offline_queue_order (now : Z) (this : IDB.t) (d : IDB.Database)
    (op : PendingOperation.t) :
  IDB.opened this = Some d ->
  (JS.falsy (PendingOperation.id op) = true ->
   IDB.enqueueOperation now this op = (Failed InvalidOperation, this))
  /\ (forall id, PendingOperation.id op = Some id -> id <> "" ->
      exists stored,
        IDB.enqueueOperation now this op
        = (Done tt,
           IDB.setDb this
             (IDB.setPendingOps d (<[id := stored]> (IDB.pendingOps d))))
        /\ stored
           = PendingOperation.mk (Some id) (PendingOperation.type op)
               (PendingOperation.notebookId op) (PendingOperation.noteId op)
               (PendingOperation.data op)
               (Some (JS.numberOr (PendingOperation.timestamp op) now))
               (Some (JS.numberOr (PendingOperation.retries op) 0))
        /\ (exists ops,
              IDB.dequeueOperations
                (IDB.setDb this
                   (IDB.setPendingOps d (<[id := stored]> (IDB.pendingOps d))))
              = (Done ops,
                 IDB.setDb this
                   (IDB.setPendingOps d (<[id := stored]> (IDB.pendingOps d))))
              /\ stored ∈ ops)
        /\ PendingOperation.timestamp stored
           = Some (JS.numberOr (PendingOperation.timestamp op) now)
        /\ PendingOperation.retries stored
           = Some (JS.numberOr (PendingOperation.retries op) 0)
        /\ PendingOperation.notebookId stored = PendingOperation.notebookId op
        /\ PendingOperation.data stored = PendingOperation.data op)
  /\ exists ops,
       IDB.dequeueOperations this = (Done ops, this)
       /\ ops ≡ₚ (map_to_list (IDB.pendingOps d)).*2
       /\ ((forall k o, IDB.pendingOps d !! k = Some o ->
              is_Some (PendingOperation.timestamp o)) ->
           StronglySorted
             (fun a b =>
                default 0 (PendingOperation.timestamp a)
                <= default 0 (PendingOperation.timestamp b))
             ops).
Proof.
  intros Hopen. split; [| split].
  - intros H. unfold IDB.enqueueOperation. rewrite H. reflexivity.
  - intros id Hid Hne. unfold IDB.enqueueOperation. rewrite Hid. simpl.
    apply String.eqb_neq in Hne as ->.
    rewrite (transaction_opened _ _ _ Hopen). simpl.
    exists (IDB.opData now op). split; [reflexivity |].
    split; [unfold IDB.opData; rewrite Hid; reflexivity |].
    split; [| repeat split].
    rewrite (dequeueOperations_opened _ _ (opened_setDb _ _ _ Hopen)).
    eexists. split; [reflexivity |].
    rewrite sortBy_Permutation. apply elem_of_records. exists id.
    simpl. apply lookup_insert_eq.
  - rewrite (dequeueOperations_opened _ _ Hopen). eexists.
    split; [reflexivity |]. split.
    + rewrite sortBy_Permutation. unfold IDB.records, IDB.entries.
      rewrite merge_sort_Permutation. reflexivity.
    + intros Hall.
      rewrite (sortBy_ext _
                 (fun a b => default 0 (PendingOperation.timestamp a)
                             - default 0 (PendingOperation.timestamp b))).
      * apply (sortBy_sorted
                 (fun a => default 0 (PendingOperation.timestamp a))).
      * intros a b Ha Hb.
        apply elem_of_records in Ha as [ka Ha], Hb as [kb Hb].
        destruct (Hall _ _ Ha) as [ta ->], (Hall _ _ Hb) as [tb ->].
        reflexivity.
Qed.

Lemma offline_queue_order_witness :
  let this3 :=
    (IDB.enqueueOperation 5
       (IDB.enqueueOperation 5
          (IDB.enqueueOperation 5 IDBSamples.empty
             (IDBSamples.operation "b" (Some 7))).2
          (IDBSamples.operation "a" None)).2
       (IDBSamples.operation "c" (Some 3))).2 in
  exists ops,
    IDB.dequeueOperations this3 = (Done ops, this3)
    /\ map PendingOperation.id ops = [Some "c"; Some "a"; Some "b"].
Proof.
  intros this3.
  destruct (offline_queue_order 0 this3 _ (IDBSamples.operation "x" None)
              eq_refl) as (_ & _ & ops & Hcall & _ & _).
  exists ops. split; [exact Hcall |].
  rewrite (dequeueOperations_opened this3 _ eq_refl) in Hcall.
  injection Hcall as <-. vm_compute. reflexivity.
Defined.

(** X25. On an opened store [removeOperation(id)] and [clearQueue()] always
    succeed: after [removeOperation] no operation is stored under the id and
    the others are as before (an id that is not stored changes nothing), and
    after [clearQueue] [dequeueOperations] returns the empty list; both leave
    the other stores alone. *)
Theorem offline_queue_removal (this : IDB.t) (d : IDB.Database)
    (operationId : string) :
  IDB.opened this = Some d ->
  (exists d',
     IDB.removeOperation this operationId = (Done tt, IDB.setDb this d')
     /\ IDB.pendingOps d' !! operationId = None
     /\ (forall other, other <> operationId ->
         IDB.pendingOps d' !! other = IDB.pendingOps d !! other)
     /\ (IDB.pendingOps d !! operationId = None -> d' = d)
     /\ IDB.notes d' = IDB.notes d
     /\ IDB.history d' = IDB.history d
     /\ IDB.notebooks d' = IDB.notebooks d)
  /\ (exists d',
        IDB.clearQueue this = (Done tt, IDB.setDb this d')
        /\ IDB.dequeueOperations (IDB.setDb this d')
           = (Done [], IDB.setDb this d')
        /\ IDB.notes d' = IDB.notes d
        /\ IDB.history d' = IDB.history d
        /\ IDB.notebooks d' = IDB.notebooks d).
Proof.
  intros Hopen. split.
  - unfold IDB.removeOperation. rewrite (transaction_opened _ _ _ Hopen).
    eexists. split; [reflexivity |]. simpl.
    split; [apply lookup_delete_eq |].
    split; [intros other Hne; apply lookup_delete_ne; congruence |].
    split; [| repeat split].
    intros Hnone. unfold IDB.setPendingOps.
    rewrite delete_id by exact Hnone. destruct d; reflexivity.
  - unfold IDB.clearQueue. rewrite (transaction_opened _ _ _ Hopen).
    eexists. split; [reflexivity |]. simpl. split; [| repeat split].
    rewrite (dequeueOperations_opened _ _ (opened_setDb _ _ _ Hopen)).
    simpl. unfold IDB.records, IDB.entries.
    rewrite map_to_list_empty. reflexivity.
Qed.

Lemma offline_queue_removal_witness :
  let this1 :=
    (IDB.enqueueOperation 5 IDBSamples.empty
       (IDBSamples.operation "b" (Some 7))).2 in
  exists this2,
    IDB.removeOperation this1 "b" = (Done tt, this2)
    /\ IDB.dequeueOperations this2 = (Done [], this2).
Proof.
  intros this1.
  destruct (offline_queue_removal this1 _ "b" eq_refl)
    as [(d' & Hcall & _) _].
  exists (IDB.setDb this1 d'). split; [exact Hcall |].
  vm_compute in Hcall. injection Hcall as <-. vm_compute. reflexivity.
Defined.

(** ** Opening and closing the store *)

(** X26. A store that is not opened (just constructed, or closed) refuses
    the reads and writes with a not-initialized error and stays as it is
    (a save with invalid data is still refused as invalid first);
    [initialize] on an opened store does nothing, whatever opening would
    answer; on a store that is not opened it takes the database that opening
    answers and keeps [maxHistoryPerNote], or fails when opening fails; and
    after [close] the store is not opened. *)
Theorem store_lifecycle (this : IDB.t) :
  IDB.opened (IDB.new None) = None
  /\ IDB.maxHistoryPerNote (IDB.new None) = 100
  /\ IDB.opened (IDB.close this) = None
  /\ (forall d openResult, IDB.opened this = Some d ->
      IDB.initialize openResult this = (Done tt, this))
  /\ (IDB.opened this = None ->
      IDB.initialize None this = (Failed OpenFailed, this)
      /\ (forall d, exists this',
            IDB.initialize (Some d) this = (Done tt, this')
            /\ IDB.opened this' = Some d
            /\ IDB.maxHistoryPerNote this' = IDB.maxHistoryPerNote this)
      /\ (forall id, IDB.getNotebook this id = (Failed IDB.notInitialized, this))
      /\ (forall id, IDB.deleteNotebook this id
                     = (Failed IDB.notInitialized, this))
      /\ (forall nb, IDB.listNotes this nb = (Failed IDB.notInitialized, this))
      /\ (forall nb id, IDB.deleteNote this nb id
                        = (Failed IDB.notInitialized, this))
      /\ (forall now id limit,
            IDB.getHistory now this id limit = (Failed IDB.notInitialized, this))
      /\ (forall now id keep,
            IDB.cleanupHistory now this id keep
            = (Failed IDB.notInitialized, this))
      /\ IDB.dequeueOperations this = (Failed IDB.notInitialized, this)
      /\ (forall now notebook,
            IDB.saveNotebook now this notebook
            = (Failed (if JS.falsy (Notebook.id notebook)
                          || JS.falsy (Notebook.name notebook)
                       then InvalidNotebookData else IDB.notInitialized),
               this))
      /\ (forall now op,
            IDB.enqueueOperation now this op
            = (Failed (if JS.falsy (PendingOperation.id op)
                       then InvalidOperation else IDB.notInitialized),
               this))).
Proof.
  split; [reflexivity |]. split; [reflexivity |]. split.
  { unfold IDB.close, IDB.opened. destruct (IDB.db this) eqn:Hdb; simpl;
      [reflexivity |]. rewrite Hdb. destruct (IDB.isInitialized this); reflexivity. }
  split.
  { intros d openResult Hopen. unfold IDB.initialize.
    unfold IDB.opened in Hopen. rewrite Hopen. reflexivity. }
  intros Hclosed. unfold IDB.initialize.
  assert (Hc := Hclosed). unfold IDB.opened in Hc. rewrite Hc.
  split; [reflexivity |]. split.
  { intros d. eexists. split; [reflexivity |]. split; reflexivity. }
  unfold IDB.getNotebook, IDB.deleteNotebook, IDB.listNotes, IDB.deleteNote,
    IDB.getHistory, IDB.cleanupHistory, IDB.dequeueOperations,
    IDB.saveNotebook, IDB.enqueueOperation.
  rewrite !transaction_closed by exact Hclosed. rewrite Hclosed.
  repeat split; try reflexivity.
  - intros id. apply transaction_closed, Hclosed.
  - intros now notebook. destruct (_ || _); [reflexivity |].
    apply transaction_closed, Hclosed.
  - intros now op. destruct (JS.falsy _); [reflexivity |].
    apply transaction_closed, Hclosed.
Qed.

(** ** The note write path inside the full store *)

(** X27. [saveNote] does not look at the notebooks store: on an opened
    store it stores the note under its id whether or not a notebook with the
    given id exists, and it changes no store but the notes store. *)
Theorem IDB_saveNote_frame (now : Z) (this : IDB.t) (d : IDB.Database)
    (notebookId noteId : string) (note : Note.t) :
  IDB.opened this = Some d ->
  Note.id note = Some noteId -> noteId <> "" -> notebookId <> "" ->
  exists d',
    IDB.saveNote now this (Some notebookId) note = (Done tt, IDB.setDb this d')
    /\ IDB.notes d'
       = <[noteId := Storage.noteData now (Some notebookId) note]> (IDB.notes d)
    /\ IDB.notebooks d' = IDB.notebooks d
    /\ IDB.history d' = IDB.history d
    /\ IDB.pendingOps d' = IDB.pendingOps d
    /\ IDB.getNote (IDB.setDb this d') (Some notebookId) noteId
       = (Done (Some (Storage.noteData now (Some notebookId) note)),
          IDB.setDb this d').
Proof.
  intros Hopen Hid Hnote Hnb. unfold IDB.saveNote.
  rewrite (notesView_opened _ _ Hopen).
  rewrite (saveNote_opened now _ notebookId noteId note Hid Hnote Hnb).
  simpl. unfold IDB.withNotes.
  destruct (opened_inv _ _ Hopen) as [_ ->]. simpl.
  eexists. split; [reflexivity |]. simpl. repeat split.
  rewrite (IDB_getNote_opened _ _ _ _ (opened_setDb _ _ _ Hopen)). simpl.
  rewrite lookup_insert_eq, decide_True by reflexivity. reflexivity.
Qed.

Lemma IDB_saveNote_frame_witness :
  exists this',
    IDB.saveNote 1700000001000 IDBSamples.empty (Some "no-such-notebook")
      StorageSamples.note = (Done tt, this')
    /\ IDB.getNotebook this' "no-such-notebook" = (Done None, this').
Proof.
  destruct (IDB_saveNote_frame 1700000001000 IDBSamples.empty _
              "no-such-notebook" "note-1" StorageSamples.note
              eq_refl eq_refl)
    as (d' & Hcall & _ & Hnb & _); [discriminate | discriminate |].
  exists (IDB.setDb IDBSamples.empty d'). split; [exact Hcall |].
  assert (Hopen : IDB.opened IDBSamples.empty
                  = Some (IDB.mkDatabase ∅ ∅ ∅ ∅)) by reflexivity.
  rewrite (getNotebook_opened _ d' _ (opened_setDb _ _ d' Hopen)), Hnb.
  reflexivity.
Defined.
